(** * keystroke-sender: the native messaging host loop

    A shallow embedding of [src/keystroke_sender/host.py]: the frame codec
    ([read_message], [send_message]), the sliding-window rate limiter
    ([_check_rate_limit]), the injector calls ([type_text], [click_at]) and the
    body of the [while True] loop of [main].

    Monotonic timestamps and delays are Python floats.  Every finite float is
    a rational number, and the host only compares them and subtracts the
    constant window, so they are embedded as [Q] with exact arithmetic.

    The diagnostics that [log] writes on [stderr] are left out.  The
    definitions of [Host] give the main thread, whose writes on [stdout]
    succeed; the watchdog thread, which only reads [last_activity], has its
    loop in [watchdog], and [Threads] gives the process: the main thread with
    the watchdog thread beside it, which may end the process at any operation
    of the main thread, a blocked write included.  The legacy single-file host
    [keystroke_sender.py] ([Legacy]) and the registration script [register.py]
    ([Registration]) follow. *)

From Stdlib Require Import Init.Byte.
From Stdlib Require Strings.Byte.
From Stdlib Require Import Ascii String.
From Stdlib Require Import List NArith ZArith QArith Qabs Qround Bool Lia Lqa Sorted.
Import ListNotations.

Local Open Scope Z_scope.

(** ** Safety limits (host.py, lines 33-37) *)

Definition MAX_MESSAGE_BYTES : Z := 1048576.
Definition MAX_TEXT_LENGTH : Z := 10000.
Definition IDLE_TIMEOUT_SECONDS : Z := 300.
Definition RATE_LIMIT_WINDOW : Q := 1.
Definition RATE_LIMIT_MAX : Z := 20.

(** ** The rate limiter (host.py, lines 116-125) *)

Module RateLimiter.

(** The loop [while timestamps and timestamps[0] <= now - RATE_LIMIT_WINDOW:
    timestamps.pop(0)]. *)
Fixpoint discard_old (now : Q) (timestamps : list Q) : list Q :=
  match timestamps with
  | [] => []
  | t :: rest =>
      if Qle_bool t (now - RATE_LIMIT_WINDOW)
      then discard_old now rest
      else timestamps
  end.

(** The rest of [_check_rate_limit] once [now] has been read from the clock:
    the verdict and the list [timestamps] as the call leaves it. *)
Definition check_rate_limit_at (now : Q) (timestamps : list Q) : bool * list Q :=
  let timestamps := discard_old now timestamps in
  if Z.of_nat (length timestamps) >=? RATE_LIMIT_MAX
  then (false, timestamps)
  else (true, timestamps ++ [now]).

(** The admission check as the specification words it: every timestamp older
    than [now - 1.0] is discarded, wherever it stands in the list, and one that
    equals [now - 1.0] is retained. *)
Definition tryAdmit_spec (now : Q) (state : list Q) : bool * list Q :=
  let remaining := filter (fun t => Qle_bool (now - 1) t) state in
  if Z.of_nat (length remaining) <? 20
  then (true, remaining ++ [now])
  else (false, remaining).

(** What the code keeps of a state in arrival order: the timestamps strictly
    newer than [now - 1.0]. *)
Definition in_window (now : Q) (t : Q) : bool :=
  negb (Qle_bool t (now - RATE_LIMIT_WINDOW)).

End RateLimiter.

Import RateLimiter.

(** ** Python values *)

(** A [str] is a sequence of Unicode code points and [len] counts them; a
    [bytes] object is a sequence of bytes. *)
Abbreviation codepoint := N (only parsing).
Abbreviation pystr := (list N) (only parsing).
Abbreviation bytes := (list byte) (only parsing).

(** A literal of the source. *)
Definition lit (s : string) : pystr := map N_of_ascii (list_ascii_of_string s).

Fixpoint pystr_eqb (a b : pystr) : bool :=
  match a, b with
  | [], [] => true
  | x :: a, y :: b => (x =? y)%N && pystr_eqb a b
  | _, _ => false
  end.

(** A Python float: a finite value, an infinity or a NaN ([json.loads] accepts
    [Infinity], [-Infinity] and [NaN]). *)
Inductive pyfloat :=
| Finite (q : Q)
| Inf (negative : bool)
| NaN.

(** What [json.loads] returns.  A dict is the list of its items in insertion
    order, with no key twice; [None] is [JNull]. *)
#[warnings="-register-all"]
Inductive json :=
| JNull
| JBool (b : bool)
| JInt (z : Z)
| JFloat (f : pyfloat)
| JStr (s : pystr)
| JList (l : list json)
| JDict (items : list (pystr * json)).

(** [d.get(key)]: the value of the key, [None] when the key is absent. *)
Fixpoint dict_get (items : list (pystr * json)) (key : pystr) : json :=
  match items with
  | [] => JNull
  | (k, v) :: rest => if pystr_eqb k key then v else dict_get rest key
  end.

(** [key in d]. *)
Fixpoint dict_has (items : list (pystr * json)) (key : pystr) : bool :=
  match items with
  | [] => false
  | (k, _) :: rest => pystr_eqb k key || dict_has rest key
  end.

(** [d.get(key, default)]. *)
Definition dict_get_default (items : list (pystr * json)) (key : pystr)
    (default : json) : json :=
  if dict_has items key then dict_get items key else default.

Definition is_None (v : json) : bool :=
  match v with JNull => true | _ => false end.

(** [v == "..."] against a [str] literal. *)
Definition eq_str (v : json) (s : pystr) : bool :=
  match v with JStr t => pystr_eqb t s | _ => false end.

(** ** Exceptions *)

Inductive exn_class :=
| ValueError | JSONDecodeError | UnicodeDecodeError | UnicodeEncodeError
| TypeError | AttributeError | OverflowError | StructError
| OtherException.

Record exn := mk_exn { exn_class_of : exn_class; exn_text : pystr }.

(** [isinstance(e, ValueError)]: [json.JSONDecodeError] and the two Unicode
    errors are subclasses of [ValueError]. *)
Definition is_ValueError (e : exn) : bool :=
  match exn_class_of e with
  | ValueError | JSONDecodeError | UnicodeDecodeError | UnicodeEncodeError => true
  | _ => false
  end.

Definition is_JSONDecodeError (e : exn) : bool :=
  match exn_class_of e with JSONDecodeError => true | _ => false end.

(** The exceptions that the interpreter raises on the host's own operations;
    their text comes from the interpreter. *)
Inductive fault :=
| NoGetAttr (v : json)       (* [v.get] on a value that is no dict *)
| NotOrdered (v : json)      (* [v > 0] on a value that is no number *)
| BadInt (v : json)          (* [int(v)] refused *)
| PackRange (n : Z)          (* [struct.pack("@I", n)], [n] out of range *)
| NotEncodable (s : pystr).  (* [s.encode("utf-8")] on a lone surrogate *)

Definition fault_class (f : fault) : exn_class :=
  match f with
  | NoGetAttr _ => AttributeError
  | NotOrdered _ => TypeError
  | BadInt (JFloat NaN) => ValueError
  | BadInt (JFloat (Inf _)) => OverflowError
  | BadInt (JStr _) => ValueError
  | BadInt _ => TypeError
  | PackRange _ => StructError
  | NotEncodable _ => UnicodeEncodeError
  end.

(** ** The injector and the platform *)

(** The calls into [pynput] and [time.sleep], in the order they are made. *)
Inductive event :=
| KeyboardController          (* [from pynput.keyboard import Controller; Controller()] *)
| KeyType (char : codepoint)  (* [keyboard.type(char)] *)
| Sleep (seconds : json)      (* [time.sleep(seconds)] *)
| MouseController             (* [from pynput.mouse import ...; Controller()] *)
| MouseMove (x y : Z)         (* [mouse.position = (x, y)] *)
| MouseClick.                 (* [mouse.click(Button.left, 1)] *)

(** What [json.loads(raw.decode("utf-8"))] does on a payload. *)
Inductive loads_result :=
| Loaded (v : json)
| LoadsRaise (e : exn).

Inductive byteorder := LittleEndian | BigEndian.

(** Everything the host takes from the interpreter, the libraries and the
    machine it runs on. *)
Class Platform := {
  (** the byte order of [struct]'s [@] *)
  native_order : byteorder;
  (** [json.loads(raw.decode("utf-8"))] *)
  py_loads : bytes -> loads_result;
  (** [str(v)] of a decoded value that is no [str] *)
  py_repr : json -> pystr;
  (** [int(s)] of a [str]; [None] when it raises *)
  py_int_of_str : pystr -> option Z;
  (** [str(e)] of an exception of the interpreter *)
  fault_text : fault -> pystr;
  (** the successive values of [time.monotonic()] *)
  monotonic : nat -> Q;
  (** whether a call of the injector raises, after the calls made so far *)
  inj_raises : list event -> event -> option exn
}.

(** ** Decimal numerals, [str(n)] of an [int] *)

Fixpoint digits_of (fuel : nat) (n : N) (acc : pystr) : pystr :=
  let acc := (48 + n mod 10)%N :: acc in
  match fuel with
  | O => acc
  | S fuel => if (n / 10 =? 0)%N then acc else digits_of fuel (n / 10)%N acc
  end.

Definition dec_N (n : N) : pystr := digits_of (N.to_nat (N.log2 n)) n [].

Definition dec (z : Z) : pystr :=
  if z <? 0 then 45%N :: dec_N (Z.to_N (- z)) else dec_N (Z.to_N z).

(** ** Responses and their serialization (host.py, line 71) *)

(** The dicts that [main] passes to [send_message]. *)
Inductive response :=
| RespTyped (typed : Z)        (* {"status": "ok", "typed": typed} *)
| RespClick (x y : Z)          (* {"status": "ok", "action": "click", "x": x, "y": y} *)
| RespError (message : pystr). (* {"status": "error", "message": message} *)

Definition response_obj (r : response) : json :=
  match r with
  | RespTyped typed =>
      JDict [(lit "status", JStr (lit "ok")); (lit "typed", JInt typed)]
  | RespClick x y =>
      JDict [(lit "status", JStr (lit "ok")); (lit "action", JStr (lit "click"));
             (lit "x", JInt x); (lit "y", JInt y)]
  | RespError message =>
      JDict [(lit "status", JStr (lit "error")); (lit "message", JStr message)]
  end.

Definition hex_digit (n : N) : codepoint :=
  if (n <? 10)%N then (48 + n)%N else (87 + n)%N.

(** ['\\u{0:04x}'.format(n)] *)
Definition u_escape (n : N) : pystr :=
  [92; 117; hex_digit (n / 4096 mod 16); hex_digit (n / 256 mod 16);
   hex_digit (n / 16 mod 16); hex_digit (n mod 16)]%N.

(** [json.encoder.py_encode_basestring_ascii] on one character: the quote and
    the backslash are escaped, a character outside [' '..'~'] has its short
    escape or is written [\uXXXX], as a surrogate pair above U+FFFF. *)
Definition escape_char (c : codepoint) : pystr :=
  if (c =? 34)%N then [92; 34]%N
  else if (c =? 92)%N then [92; 92]%N
  else if (c =? 8)%N then [92; 98]%N
  else if (c =? 12)%N then [92; 102]%N
  else if (c =? 10)%N then [92; 110]%N
  else if (c =? 13)%N then [92; 114]%N
  else if (c =? 9)%N then [92; 116]%N
  else if ((32 <=? c) && (c <=? 126))%N then [c]
  else if (c <? 65536)%N then u_escape c
  else let n := (c - 65536)%N in
       u_escape (N.lor 55296 (N.land (N.shiftr n 10) 1023)) ++
       u_escape (N.lor 56320 (N.land n 1023)).

Definition dumps_str (s : pystr) : pystr :=
  [34%N] ++ flat_map escape_char s ++ [34%N].

(** [json.dumps(message_obj, separators=(",", ":"))] at the dicts of
    [response]. *)
Definition json_dumps (r : response) : pystr :=
  match r with
  | RespTyped typed =>
      lit "{" ++ dumps_str (lit "status") ++ lit ":" ++ dumps_str (lit "ok") ++
      lit "," ++ dumps_str (lit "typed") ++ lit ":" ++ dec typed ++ lit "}"
  | RespClick x y =>
      lit "{" ++ dumps_str (lit "status") ++ lit ":" ++ dumps_str (lit "ok") ++
      lit "," ++ dumps_str (lit "action") ++ lit ":" ++ dumps_str (lit "click") ++
      lit "," ++ dumps_str (lit "x") ++ lit ":" ++ dec x ++
      lit "," ++ dumps_str (lit "y") ++ lit ":" ++ dec y ++ lit "}"
  | RespError message =>
      lit "{" ++ dumps_str (lit "status") ++ lit ":" ++ dumps_str (lit "error") ++
      lit "," ++ dumps_str (lit "message") ++ lit ":" ++ dumps_str message ++
      lit "}"
  end.

(** ** UTF-8 and [struct] *)

Definition is_ascii (s : pystr) : bool := forallb (fun c => (c <? 128)%N) s.

Definition byte_of_N (n : N) : byte :=
  match Byte.of_N (n mod 256) with Some b => b | None => x00 end.

(** One character of [s.encode("utf-8")]; surrogates are refused. *)
Definition utf8_char (c : codepoint) : option bytes :=
  if (c <? 128)%N then Some [byte_of_N c]
  else if (c <? 2048)%N then
    Some [byte_of_N (192 + c / 64); byte_of_N (128 + c mod 64)]
  else if ((55296 <=? c) && (c <=? 57343))%N then None
  else if (c <? 65536)%N then
    Some [byte_of_N (224 + c / 4096); byte_of_N (128 + c / 64 mod 64);
          byte_of_N (128 + c mod 64)]
  else if (c <? 1114112)%N then
    Some [byte_of_N (240 + c / 262144); byte_of_N (128 + c / 4096 mod 64);
          byte_of_N (128 + c / 64 mod 64); byte_of_N (128 + c mod 64)]
  else None.

Fixpoint utf8_encode (s : pystr) : option bytes :=
  match s with
  | [] => Some []
  | c :: rest =>
      match utf8_char c, utf8_encode rest with
      | Some b, Some bs => Some (b ++ bs)
      | _, _ => None
      end
  end.

Definition le_bytes (n : Z) : bytes :=
  [byte_of_N (Z.to_N n); byte_of_N (Z.to_N (Z.shiftr n 8));
   byte_of_N (Z.to_N (Z.shiftr n 16)); byte_of_N (Z.to_N (Z.shiftr n 24))].

Definition le_value (raw : bytes) : Z :=
  fold_right (fun b acc => Z.of_N (Byte.to_N b) + 256 * acc) 0 raw.

(** [struct.pack("@I", n)]: [struct.error] outside [0 .. 2^32 - 1]. *)
Definition struct_pack_I (order : byteorder) (n : Z) : option bytes :=
  if (0 <=? n) && (n <? 4294967296)
  then Some (match order with
             | LittleEndian => le_bytes n
             | BigEndian => rev (le_bytes n)
             end)
  else None.

(** [struct.unpack("@I", raw)[0]] on four bytes. *)
Definition struct_unpack_I (order : byteorder) (raw : bytes) : Z :=
  match order with
  | LittleEndian => le_value raw
  | BigEndian => le_value (rev raw)
  end.

(** ** The process *)

(** The state of the host process and of its two streams.  [stdin] holds the
    bytes that the peer sends before it closes the stream, [stdout] the bytes
    written so far, [clock] counts the readings of [time.monotonic()],
    [injected] lists the injector calls made so far.  [activity_writes] is a
    ghost counter of the assignments to [last_activity[0]] by the loop. *)
Record world := mk_world {
  stdin : bytes;
  stdout : bytes;
  clock : nat;
  action_timestamps : list Q;
  last_activity : Q;
  activity_writes : nat;
  injected : list event
}.

Definition set_stdin (w : world) (data : bytes) : world :=
  mk_world data (stdout w) (clock w) (action_timestamps w) (last_activity w)
           (activity_writes w) (injected w).

Definition set_stdout (w : world) (data : bytes) : world :=
  mk_world (stdin w) data (clock w) (action_timestamps w) (last_activity w)
           (activity_writes w) (injected w).

Definition tick (w : world) : world :=
  mk_world (stdin w) (stdout w) (S (clock w)) (action_timestamps w)
           (last_activity w) (activity_writes w) (injected w).

Definition set_timestamps (w : world) (timestamps : list Q) : world :=
  mk_world (stdin w) (stdout w) (clock w) timestamps (last_activity w)
           (activity_writes w) (injected w).

Definition set_last_activity (w : world) (now : Q) : world :=
  mk_world (stdin w) (stdout w) (clock w) (action_timestamps w) now
           (S (activity_writes w)) (injected w).

Definition add_injected (w : world) (ev : event) : world :=
  mk_world (stdin w) (stdout w) (clock w) (action_timestamps w)
           (last_activity w) (activity_writes w) (injected w ++ [ev]).

(** How a piece of the program ends: with a value, with an exception, or with
    [sys.exit(code)], whose [SystemExit] no handler of the host catches. *)
Inductive outcome (A : Type) :=
| Ret (a : A)
| Raise (e : exn)
| SysExit (code : Z).
Arguments Ret {A} a.
Arguments Raise {A} e.
Arguments SysExit {A} code.

Definition M (A : Type) : Type := world -> outcome A * world.

Definition ret {A} (a : A) : M A := fun w => (Ret a, w).
Definition raise {A} (e : exn) : M A := fun w => (Raise e, w).
Definition sys_exit {A} (code : Z) : M A := fun w => (SysExit code, w).

Definition bind {A B} (m : M A) (k : A -> M B) : M B :=
  fun w =>
    match m w with
    | (Ret a, w') => k a w'
    | (Raise e, w') => (Raise e, w')
    | (SysExit code, w') => (SysExit code, w')
    end.

(** [try: m  except C as e: handler e], [catches] deciding [isinstance(e, C)]. *)
Definition try_except {A} (m : M A) (catches : exn -> bool) (handler : exn -> M A)
    : M A :=
  fun w =>
    match m w with
    | (Raise e, w') => if catches e then handler e w' else (Raise e, w')
    | r => r
    end.

Declare Scope host_scope.
Delimit Scope host_scope with host.
Notation "x <- m ;; k" := (bind m (fun x => k))
  (at level 61, m at next level, right associativity) : host_scope.
Notation "m ;; k" := (bind m (fun _ => k))
  (at level 61, right associativity) : host_scope.
Local Open Scope host_scope.

Section Host.

Context {P : Platform}.

Definition fault_exn (f : fault) : exn := mk_exn (fault_class f) (fault_text f).

(** *** The streams *)

(** [sys.stdin.buffer.read(n)]: the next [n] bytes, fewer only when the
    stream ends. *)
Definition stdin_read (n : nat) : M bytes :=
  fun w => (Ret (firstn n (stdin w)), set_stdin w (skipn n (stdin w))).

(** [sys.stdout.buffer.write(data)], and the flush that follows. *)
Definition stdout_write (data : bytes) : M unit :=
  fun w => (Ret tt, set_stdout w (stdout w ++ data)).

(** [time.monotonic()] *)
Definition time_monotonic : M Q :=
  fun w => (Ret (monotonic (clock w)), tick w).

(** *** read_message (lines 46-66) *)

(** Line 61 *)
Definition too_large_text : pystr :=
  lit "Message exceeds " ++ dec MAX_MESSAGE_BYTES ++ lit " byte limit".

(** Lines 51-65: the raw payload of the next frame. *)
Definition read_frame : M bytes :=
  raw_length <- stdin_read 4 ;;
  if (length raw_length =? 0)%nat then sys_exit 0
  else if (length raw_length <? 4)%nat then sys_exit 1
  else
    let message_length := struct_unpack_I native_order raw_length in
    if message_length >? MAX_MESSAGE_BYTES
    then raise (mk_exn ValueError too_large_text)
    else
      raw_message <- stdin_read (Z.to_nat message_length) ;;
      if Z.of_nat (length raw_message) <? message_length then sys_exit 1
      else ret raw_message.

(** Line 66 *)
Definition decode_message (raw_message : bytes) : M json :=
  match py_loads raw_message with
  | Loaded v => ret v
  | LoadsRaise e => raise e
  end.

Definition read_message : M json :=
  raw_message <- read_frame ;;
  decode_message raw_message.

(** *** send_message (lines 69-74) *)

Definition send_message (message_obj : response) : M unit :=
  match utf8_encode (json_dumps message_obj) with
  | None => raise (fault_exn (NotEncodable (json_dumps message_obj)))
  | Some encoded =>
      match struct_pack_I native_order (Z.of_nat (length encoded)) with
      | None => raise (fault_exn (PackRange (Z.of_nat (length encoded))))
      | Some prefix =>
          stdout_write prefix ;;
          stdout_write encoded
      end
  end.

(** *** The injector (lines 77-113) *)

(** One call into [pynput] or [time.sleep]: it is made, and it may raise. *)
Definition inject (ev : event) : M unit :=
  fun w =>
    match inj_raises (injected w) ev with
    | Some e => (Raise e, add_injected w ev)
    | None => (Ret tt, add_injected w ev)
    end.

(** [delay > 0]; [None] when the comparison raises. *)
Definition gt_zero (v : json) : option bool :=
  match v with
  | JInt z => Some (0 <? z)
  | JBool b => Some b
  | JFloat (Finite q) => Some (negb (Qle_bool q 0))
  | JFloat (Inf negative) => Some (negb negative)
  | JFloat NaN => Some false
  | _ => None
  end.

Definition py_gt_zero (v : json) : M bool :=
  match gt_zero v with
  | Some b => ret b
  | None => raise (fault_exn (NotOrdered v))
  end.

(** The body of [for char in text] with the count so far. *)
Fixpoint type_chars (text : pystr) (delay : json) (count : Z) : M Z :=
  match text with
  | [] => ret count
  | char :: rest =>
      inject (KeyType char) ;;
      let count := count + 1 in
      positive <- py_gt_zero delay ;;
      (if positive then inject (Sleep delay) else ret tt) ;;
      type_chars rest delay count
  end.

Definition type_text (text : pystr) (delay : json) : M Z :=
  inject KeyboardController ;;
  type_chars text delay 0.

Definition click_at (x y : Z) : M unit :=
  inject MouseController ;;
  inject (MouseMove x y) ;;
  inject (Sleep (JFloat (Finite (1 # 20)))) ;;
  inject MouseClick.

(** *** _check_rate_limit (lines 116-125) *)

Definition _check_rate_limit : M bool :=
  now <- time_monotonic ;;
  fun w =>
    let (allowed, timestamps) := check_rate_limit_at now (action_timestamps w) in
    (Ret allowed, set_timestamps w timestamps).

(** *** The loop of main (lines 154-226) *)

(** [int(v)] of a value that is not [None]: a float is truncated toward
    zero; [None] when the conversion raises. *)
Definition truncate (q : Q) : Z := Z.quot (Qnum q) (Zpos (Qden q)).

Definition int_of (v : json) : option Z :=
  match v with
  | JInt z => Some z
  | JBool b => Some (if b then 1 else 0)
  | JFloat (Finite q) => Some (truncate q)
  | JStr s => py_int_of_str s
  | _ => None
  end.

Definition py_int (v : json) : M Z :=
  match int_of v with
  | Some z => ret z
  | None => raise (fault_exn (BadInt v))
  end.

(** [f"{v}"] *)
Definition py_format (v : json) : pystr :=
  match v with
  | JStr s => s
  | _ => py_repr v
  end.

(** Line 170; [RATE_LIMIT_WINDOW] is the float [1.0] and is written so. *)
Definition rate_limit_text : pystr :=
  lit "Rate limit exceeded (" ++ dec RATE_LIMIT_MAX ++ lit " actions per 1.0s)".

(** Line 193 *)
Definition too_long_text (text : pystr) : pystr :=
  lit "Text too long (" ++ dec (Z.of_nat (length text)) ++ lit " chars, limit " ++
  dec MAX_TEXT_LENGTH ++ lit ")".

Definition default_delay : json := JFloat (Finite (1 # 20)).

(** Lines 183-203 *)
Definition type_action (message : list (pystr * json)) : M unit :=
  let text := dict_get message (lit "text") in
  if is_None text
  then send_message (RespError (lit "Missing 'text' field"))
  else
    match text with
    | JStr text =>
        if Z.of_nat (length text) >? MAX_TEXT_LENGTH
        then send_message (RespError (too_long_text text))
        else if (length text =? 0)%nat
        then send_message (RespTyped 0)
        else
          let delay := dict_get_default message (lit "delay") default_delay in
          typed <- type_text text delay ;;
          send_message (RespTyped typed)
    | _ => send_message (RespError (lit "'text' must be a string"))
    end.

(** Lines 206-216 *)
Definition click_action (message : list (pystr * json)) : M unit :=
  let x := dict_get message (lit "x") in
  let y := dict_get message (lit "y") in
  if is_None x || is_None y
  then send_message (RespError (lit "Missing 'x' or 'y' for click"))
  else
    x <- py_int x ;;
    y <- py_int y ;;
    click_at x y ;;
    send_message (RespClick x y).

(** Lines 174-180: the action of a request, [None] when the request names
    none and has no [text]. *)
Definition resolve_action (message : list (pystr * json)) : option json :=
  let action := dict_get message (lit "action") in
  if is_None action
  then if dict_has message (lit "text") then Some (JStr (lit "type")) else None
  else Some action.

(** Lines 165-219, the body of the second [try]; each [continue] ends it. *)
Definition try_body (message : json) : M unit :=
  allowed <- _check_rate_limit ;;
  if negb allowed
  then send_message (RespError rate_limit_text)
  else
    match message with
    | JDict items =>
        match resolve_action items with
        | None => send_message (RespError (lit "Missing 'action' field"))
        | Some action =>
            if eq_str action (lit "type") then type_action items
            else if eq_str action (lit "click") then click_action items
            else send_message
                   (RespError (lit "Unknown action: " ++ py_format action))
        end
    | _ => raise (fault_exn (NoGetAttr message))
    end.

(** Line 162 *)
Definition touch_activity : M unit :=
  now <- time_monotonic ;;
  fun w => (Ret tt, set_last_activity w now).

(** Lines 164-226: the second [try] with its two handlers. *)
Definition process (message : json) : M unit :=
  try_except (try_body message) (fun _ => true)
    (fun e =>
       if is_JSONDecodeError e
       then send_message (RespError (lit "Invalid JSON: " ++ exn_text e))
       else send_message (RespError (exn_text e))).

(** One turn of [while True]. *)
Definition main_iteration : M unit :=
  received <-
    try_except (message <- read_message ;; ret (Some message))
      is_ValueError
      (fun e => send_message (RespError (exn_text e)) ;; ret None) ;;
  match received with
  | None => ret tt
  | Some message =>
      touch_activity ;;
      process message
  end.

(** How the main thread stands after some turns of the loop: still running,
    exited with a code, or ended by an exception that nothing caught.  The
    process, which the watchdog thread may end as well, is [Threads.run]. *)
Inductive run :=
| Running (w : world)
| Exited (code : Z) (w : world)
| Crashed (e : exn) (w : world).

Fixpoint main_loop (turns : nat) (w : world) : run :=
  match turns with
  | O => Running w
  | S turns =>
      match main_iteration w with
      | (Ret _, w') => main_loop turns w'
      | (SysExit code, w') => Exited code w'
      | (Raise e, w') => Crashed e w'
      end
  end.

(** Lines 149-152: the process as the loop starts, on the given input. *)
Definition main_start (input : bytes) : world :=
  mk_world input [] 1 [] (monotonic 0) 0 [].

(** *** Vocabulary of the statements *)

(** The frame of a payload: its length prefix, then the payload. *)
Definition frame_of (payload : bytes) : option bytes :=
  match struct_pack_I native_order (Z.of_nat (length payload)) with
  | Some prefix => Some (prefix ++ payload)
  | None => None
  end.

(** The bytes of a response on the wire. *)
Definition wire (r : response) : option bytes :=
  match utf8_encode (json_dumps r) with
  | Some encoded => frame_of encoded
  | None => None
  end.

(** The next bytes of [stdin] are a whole frame with this payload. *)
Definition arrives (w : world) (payload rest : bytes) : Prop :=
  exists frame, frame_of payload = Some frame /\ stdin w = frame ++ rest.

(** The request is a dict whose action, named or implied, is [kind]. *)
Definition request_of (kind : string) (message : list (pystr * json)) : Prop :=
  exists action,
    resolve_action message = Some action /\ eq_str action (lit kind) = true.

(** The rate limiter admits an action in [w] and leaves [timestamps]. *)
Definition admitted (w : world) (timestamps : list Q) : Prop :=
  check_rate_limit_at (monotonic (clock w)) (action_timestamps w) =
  (true, timestamps).

(** Each of [calls], made in this order after [history], returns. *)
Fixpoint calls_succeed (history calls : list event) : Prop :=
  match calls with
  | [] => True
  | ev :: rest =>
      inj_raises history ev = None /\ calls_succeed (history ++ [ev]) rest
  end.

(** The pause after a character: [time.sleep(delay)] when [delay > 0]. *)
Definition pause (delay : json) : list event :=
  match gt_zero delay with
  | Some true => [Sleep delay]
  | _ => []
  end.

(** The injector calls of [type_text(text, delay)] when none raises: the
    controller, then each character with its pause. *)
Definition typing_calls (text : pystr) (delay : json) : list event :=
  KeyboardController :: flat_map (fun char => KeyType char :: pause delay) text.

(** A delay below zero. *)
Definition negative (delay : json) : bool :=
  match delay with
  | JInt z => z <? 0
  | JFloat (Finite q) => negb (Qle_bool 0 q)
  | JFloat (Inf negative) => negative
  | _ => false
  end.

(** The injector calls of [click_at(x, y)] when none raises. *)
Definition clicking_calls (x y : Z) : list event :=
  [MouseController; MouseMove x y; Sleep (JFloat (Finite (1 # 20))); MouseClick].

Definition add_calls (w : world) (calls : list event) : world :=
  mk_world (stdin w) (stdout w) (clock w) (action_timestamps w)
           (last_activity w) (activity_writes w) (injected w ++ calls).

(** The clock never goes back. *)
Definition clock_monotone : Prop :=
  forall i j, (i <= j)%nat -> (monotonic i <= monotonic j)%Q.

(** The state of the rate limiter is in arrival order, none of its timestamps
    is ahead of the clock, and it holds at most 20 of them. *)
Definition timestamps_in_order (w : world) : Prop :=
  StronglySorted Qle (action_timestamps w) /\
  Forall (fun t => forall k, (clock w <= k)%nat -> (t <= monotonic k)%Q)
         (action_timestamps w) /\
  Z.of_nat (length (action_timestamps w)) <= RATE_LIMIT_MAX.

(** A piece of the program that leaves the rate limiter in order. *)
Definition keeps_order {A} (m : M A) : Prop :=
  forall w, timestamps_in_order w -> timestamps_in_order (snd (m w)).

(** A piece of the program that never assigns [last_activity[0]]. *)
Definition keeps_activity {A} (m : M A) : Prop :=
  forall w, activity_writes (snd (m w)) = activity_writes w /\
            last_activity (snd (m w)) = last_activity w.

(** A piece of the program ended without writing on [stdout] and without
    exiting: with a value that satisfies [good], or with an exception. *)
Definition silently {A} (good : A -> Prop) (w : world)
    (result : outcome A * world) : Prop :=
  match result with
  | (Ret a, w') => good a /\ stdout w' = stdout w
  | (Raise _, w') => stdout w' = stdout w
  | (SysExit _, _) => False
  end.

(** Between [w] and [w'] the frame of [r], and nothing else, was written. *)
Definition answered_with (w w' : world) (r : response) : Prop :=
  exists out, wire r = Some out /\ stdout w' = stdout w ++ out.

(** The process after the dispatcher has read the clock once, left
    [timestamps] to the rate limiter, made the injector calls [calls] and
    written [out]. *)
Definition dispatched (w : world) (timestamps : list Q) (calls : list event)
    (out : bytes) : world :=
  mk_world (stdin w) (stdout w ++ out) (S (clock w)) timestamps
           (last_activity w) (activity_writes w) (injected w ++ calls).

End Host.

(** ** A reference platform

    One concrete interpreter, to run the host on concrete streams: a UTF-8
    decoder, a JSON reader after the grammar that [json.loads] accepts, the
    texts of CPython's exceptions, a clock and an injector given as
    parameters.  Floats are kept as exact rationals, numbers beyond the range
    of a double become infinities, and the text of a JSON error leaves out the
    position that CPython appends.  The theorems hold for every platform; the
    reference platform is where they are run at concrete inputs. *)

Module Reference.

Definition continuation (b : N) : bool := ((128 <=? b) && (b <=? 191))%N.

(** [raw.decode("utf-8")], strict: [None] is [UnicodeDecodeError]. *)
Fixpoint utf8_decode (raw : bytes) : option pystr :=
  match raw with
  | [] => Some []
  | b0 :: rest =>
      let n0 := Byte.to_N b0 in
      if (n0 <? 128)%N then option_map (cons n0) (utf8_decode rest)
      else if ((194 <=? n0) && (n0 <=? 223))%N then
        match rest with
        | b1 :: rest =>
            let n1 := Byte.to_N b1 in
            if continuation n1
            then option_map (cons ((n0 - 192) * 64 + (n1 - 128))%N)
                            (utf8_decode rest)
            else None
        | _ => None
        end
      else if ((224 <=? n0) && (n0 <=? 239))%N then
        match rest with
        | b1 :: b2 :: rest =>
            let n1 := Byte.to_N b1 in
            let n2 := Byte.to_N b2 in
            let c := ((n0 - 224) * 4096 + (n1 - 128) * 64 + (n2 - 128))%N in
            if continuation n1 && continuation n2 && (2048 <=? c)%N
               && negb ((55296 <=? c) && (c <=? 57343))%N
            then option_map (cons c) (utf8_decode rest)
            else None
        | _ => None
        end
      else if ((240 <=? n0) && (n0 <=? 244))%N then
        match rest with
        | b1 :: b2 :: b3 :: rest =>
            let n1 := Byte.to_N b1 in
            let n2 := Byte.to_N b2 in
            let n3 := Byte.to_N b3 in
            let c := ((n0 - 240) * 262144 + (n1 - 128) * 4096 +
                      (n2 - 128) * 64 + (n3 - 128))%N in
            if continuation n1 && continuation n2 && continuation n3
               && (65536 <=? c)%N && (c <? 1114112)%N
            then option_map (cons c) (utf8_decode rest)
            else None
        | _ => None
        end
      else None
  end.

Definition is_ws (c : N) : bool :=
  ((c =? 32) || (c =? 9) || (c =? 10) || (c =? 13))%N.

Definition is_digit (c : N) : bool := ((48 <=? c) && (c <=? 57))%N.

Fixpoint skip_ws (s : pystr) : pystr :=
  match s with
  | c :: rest => if is_ws c then skip_ws rest else s
  | [] => []
  end.

(** [s] without the prefix [p], when it starts with it. *)
Fixpoint strip_prefix (p s : pystr) : option pystr :=
  match p, s with
  | [], _ => Some s
  | x :: p, y :: s => if (x =? y)%N then strip_prefix p s else None
  | _ :: _, [] => None
  end.

Definition hex_value (c : N) : option N :=
  if is_digit c then Some (c - 48)%N
  else if ((97 <=? c) && (c <=? 102))%N then Some (c - 87)%N
  else if ((65 <=? c) && (c <=? 70))%N then Some (c - 55)%N
  else None.

(** The four hexadecimal digits of a [\u] escape. *)
Definition hex4 (s : pystr) : option (N * pystr) :=
  match s with
  | a :: b :: c :: d :: rest =>
      match hex_value a, hex_value b, hex_value c, hex_value d with
      | Some a, Some b, Some c, Some d =>
          Some ((a * 4096 + b * 256 + c * 16 + d)%N, rest)
      | _, _, _, _ => None
      end
  | _ => None
  end.

Definition simple_escape (c : N) : option N :=
  if (c =? 34)%N then Some 34%N
  else if (c =? 92)%N then Some 92%N
  else if (c =? 47)%N then Some 47%N
  else if (c =? 98)%N then Some 8%N
  else if (c =? 102)%N then Some 12%N
  else if (c =? 110)%N then Some 10%N
  else if (c =? 114)%N then Some 13%N
  else if (c =? 116)%N then Some 9%N
  else None.

(** A string after its opening quote; [acc] holds the characters read, last
    first.  A high surrogate escape followed by a low one is one character. *)
Fixpoint read_string (fuel : nat) (s : pystr) (acc : pystr)
    : option (pystr * pystr) :=
  match fuel with
  | O => None
  | S fuel =>
      match s with
      | [] => None
      | c :: rest =>
          if (c =? 34)%N then Some (rev acc, rest)
          else if (c =? 92)%N then
            match rest with
            | [] => None
            | e :: rest =>
                if (e =? 117)%N then
                  match hex4 rest with
                  | None => None
                  | Some (hi, rest) =>
                      let paired :=
                        if ((55296 <=? hi) && (hi <=? 56319))%N then
                          match strip_prefix [92; 117]%N rest with
                          | Some rest' =>
                              match hex4 rest' with
                              | Some (lo, rest'') =>
                                  if ((56320 <=? lo) && (lo <=? 57343))%N
                                  then Some ((65536 + (hi - 55296) * 1024 +
                                              (lo - 56320))%N, rest'')
                                  else None
                              | None => None
                              end
                          | None => None
                          end
                        else None in
                      match paired with
                      | Some (c, rest) => read_string fuel rest (c :: acc)
                      | None => read_string fuel rest (hi :: acc)
                      end
                  end
                else
                  match simple_escape e with
                  | Some c => read_string fuel rest (c :: acc)
                  | None => None
                  end
            end
          else if (c <? 32)%N then None
          else read_string fuel rest (c :: acc)
      end
  end.

(** The digits at the head of [s], as a number and a count, and what
    follows. *)
Fixpoint read_digits (s : pystr) (value : N) (count : nat) : N * nat * pystr :=
  match s with
  | c :: rest =>
      if is_digit c then read_digits rest (10 * value + (c - 48))%N (S count)
      else (value, count, s)
  | [] => (value, count, [])
  end.

(** A double of this magnitude or more is an infinity. *)
Definition float_limit : Q := inject_Z (2 ^ 1024 - 2 ^ 970).

Definition to_float (q : Q) : pyfloat :=
  if Qle_bool float_limit (Qabs q) then Inf (negb (Qle_bool 0 q))
  else Finite (Qred q).

Definition pow10 (e : Z) : Q :=
  if e <? 0 then 1 # Z.to_pos (10 ^ (- e)) else inject_Z (10 ^ e).

(** A number from its first digit on; [negative] tells whether a minus sign
    stood before it. *)
Definition read_number (negative : bool) (s : pystr) : option (json * pystr) :=
  match read_digits s 0 0 with
  | (_, O, _) => None
  | (int_part, S _, rest) =>
      let sign := if negative then -1 else 1 in
      let leading_zero :=
        match s with
        | c :: d :: _ => (c =? 48)%N && is_digit d
        | _ => false
        end in
      if leading_zero then Some (JInt 0, tl s)
      else
        let '(frac, frac_digits, rest1) :=
          match rest with
          | c :: after =>
              if (c =? 46)%N then
                match read_digits after 0 0 with
                | (_, O, _) => (0%N, O, rest)
                | (f, S k, r) => (f, S k, r)
                end
              else (0%N, O, rest)
          | [] => (0%N, O, rest)
          end in
        let '(exponent, has_exponent, rest2) :=
          match rest1 with
          | c :: after =>
              if ((c =? 101) || (c =? 69))%N then
                let '(exp_negative, after') :=
                  match after with
                  | d :: r => if (d =? 45)%N then (true, r)
                              else if (d =? 43)%N then (false, r)
                              else (false, after)
                  | [] => (false, after)
                  end in
                match read_digits after' 0 0 with
                | (_, O, _) => (0, false, rest1)
                | (e, S _, r) =>
                    ((if exp_negative then - Z.of_N e else Z.of_N e), true, r)
                end
              else (0, false, rest1)
          | [] => (0, false, rest1)
          end in
        match frac_digits, has_exponent with
        | O, false => Some (JInt (sign * Z.of_N int_part), rest2)
        | _, _ =>
            let mantissa :=
              (inject_Z (Z.of_N int_part) +
               inject_Z (Z.of_N frac) * pow10 (- Z.of_nat frac_digits))%Q in
            Some (JFloat (to_float (inject_Z sign * mantissa * pow10 exponent)),
                  rest2)
        end
  end.

(** [d[key] = value] on the items of a dict. *)
Fixpoint dict_set (items : list (pystr * json)) (key : pystr) (value : json)
    : list (pystr * json) :=
  match items with
  | [] => [(key, value)]
  | (k, v) :: rest =>
      if pystr_eqb k key then (k, value) :: rest
      else (k, v) :: dict_set rest key value
  end.

Definition read_literal (s : pystr) : option (json * pystr) :=
  match strip_prefix (lit "null") s with
  | Some rest => Some (JNull, rest)
  | None =>
  match strip_prefix (lit "true") s with
  | Some rest => Some (JBool true, rest)
  | None =>
  match strip_prefix (lit "false") s with
  | Some rest => Some (JBool false, rest)
  | None =>
  match strip_prefix (lit "NaN") s with
  | Some rest => Some (JFloat NaN, rest)
  | None =>
  match strip_prefix (lit "Infinity") s with
  | Some rest => Some (JFloat (Inf false), rest)
  | None =>
  match strip_prefix (lit "-Infinity") s with
  | Some rest => Some (JFloat (Inf true), rest)
  | None =>
  match s with
  | c :: rest => if (c =? 45)%N then read_number true rest
                 else read_number false s
  | [] => None
  end end end end end end end.

(** One JSON value at the head of [s], and what follows it. *)
Fixpoint read_value (fuel : nat) (s : pystr) : option (json * pystr) :=
  match fuel with
  | O => None
  | S fuel =>
      match skip_ws s with
      | [] => None
      | c :: rest =>
          if (c =? 34)%N then
            match read_string (S (length rest)) rest [] with
            | Some (str, rest) => Some (JStr str, rest)
            | None => None
            end
          else if (c =? 91)%N then
            match skip_ws rest with
            | d :: rest' =>
                if (d =? 93)%N then Some (JList [], rest')
                else read_items fuel rest []
            | [] => None
            end
          else if (c =? 123)%N then
            match skip_ws rest with
            | d :: rest' =>
                if (d =? 125)%N then Some (JDict [], rest')
                else read_members fuel rest []
            | [] => None
            end
          else read_literal (c :: rest)
      end
  end
with read_items (fuel : nat) (s : pystr) (acc : list json)
    : option (json * pystr) :=
  match fuel with
  | O => None
  | S fuel =>
      match read_value fuel s with
      | Some (v, rest) =>
          match skip_ws rest with
          | c :: rest =>
              if (c =? 44)%N then read_items fuel rest (v :: acc)
              else if (c =? 93)%N then Some (JList (rev (v :: acc)), rest)
              else None
          | [] => None
          end
      | None => None
      end
  end
with read_members (fuel : nat) (s : pystr) (acc : list (pystr * json))
    : option (json * pystr) :=
  match fuel with
  | O => None
  | S fuel =>
      match skip_ws s with
      | q :: rest =>
          if (q =? 34)%N then
            match read_string (S (length rest)) rest [] with
            | Some (key, rest) =>
                match skip_ws rest with
                | colon :: rest =>
                    if (colon =? 58)%N then
                      match read_value fuel rest with
                      | Some (v, rest) =>
                          match skip_ws rest with
                          | c :: rest =>
                              if (c =? 44)%N
                              then read_members fuel rest (dict_set acc key v)
                              else if (c =? 125)%N
                              then Some (JDict (dict_set acc key v), rest)
                              else None
                          | [] => None
                          end
                      | None => None
                      end
                    else None
                | [] => None
                end
            | None => None
            end
          else None
      | [] => None
      end
  end.

(** [json.loads(s)]: one value and nothing but white space after it. *)
Definition json_loads (s : pystr) : option json :=
  match read_value (2 * length s + 2) s with
  | Some (v, rest) =>
      match skip_ws rest with
      | [] => Some v
      | _ :: _ => None
      end
  | None => None
  end.

Definition loads (raw : bytes) : loads_result :=
  match utf8_decode raw with
  | None =>
      LoadsRaise (mk_exn UnicodeDecodeError
                    (lit "'utf-8' codec can't decode bytes"))
  | Some s =>
      match json_loads s with
      | Some v => Loaded v
      | None => LoadsRaise (mk_exn JSONDecodeError (lit "Expecting value"))
      end
  end.

Definition type_name (v : json) : pystr :=
  match v with
  | JNull => lit "NoneType"
  | JBool _ => lit "bool"
  | JInt _ => lit "int"
  | JFloat _ => lit "float"
  | JStr _ => lit "str"
  | JList _ => lit "list"
  | JDict _ => lit "dict"
  end.

(** The decimal expansion of a fraction below one, to at most [places]
    digits. *)
Fixpoint fraction_digits (places : nat) (num den : N) : pystr :=
  match places with
  | O => []
  | S places =>
      let d := (10 * num / den)%N in
      let r := (10 * num mod den)%N in
      (48 + d)%N :: (if (r =? 0)%N then [] else fraction_digits places r den)
  end.

Definition repr_float (f : pyfloat) : pystr :=
  match f with
  | NaN => lit "nan"
  | Inf negative => if negative then lit "-inf" else lit "inf"
  | Finite q =>
      let n := Z.to_N (Z.abs (Qnum q)) in
      let d := Npos (Qden q) in
      (if Qnum q <? 0 then lit "-" else []) ++ dec_N (n / d) ++ lit "." ++
      fraction_digits 17 (n mod d) d
  end.

(** [str(v)] and [repr(v)]; a [str] inside a list or a dict is written
    between single quotes as it stands. *)
Fixpoint repr (v : json) : pystr :=
  match v with
  | JNull => lit "None"
  | JBool b => if b then lit "True" else lit "False"
  | JInt z => dec z
  | JFloat f => repr_float f
  | JStr s => lit "'" ++ s ++ lit "'"
  | JList l =>
      lit "[" ++
      (fix elements (l : list json) : pystr :=
         match l with
         | [] => []
         | [x] => repr x
         | x :: rest => repr x ++ lit ", " ++ elements rest
         end) l ++ lit "]"
  | JDict items =>
      lit "{" ++
      (fix members (items : list (pystr * json)) : pystr :=
         match items with
         | [] => []
         | [(k, x)] => lit "'" ++ k ++ lit "': " ++ repr x
         | (k, x) :: rest =>
             lit "'" ++ k ++ lit "': " ++ repr x ++ lit ", " ++ members rest
         end) items ++ lit "}"
  end.

(** [int(s)]: an optional sign and decimal digits between white space. *)
Definition int_of_str (s : pystr) : option Z :=
  let s := skip_ws s in
  let '(negative, body) :=
    match s with
    | c :: rest => if (c =? 45)%N then (true, rest)
                   else if (c =? 43)%N then (false, rest)
                   else (false, s)
    | [] => (false, s)
    end in
  match read_digits body 0 0 with
  | (_, O, _) => None
  | (n, S _, rest) =>
      match skip_ws rest with
      | [] => Some (if negative then - Z.of_N n else Z.of_N n)
      | _ :: _ => None
      end
  end.

Definition text_of (f : fault) : pystr :=
  match f with
  | NoGetAttr v => lit "'" ++ type_name v ++ lit "' object has no attribute 'get'"
  | NotOrdered v =>
      lit "'>' not supported between instances of '" ++ type_name v ++
      lit "' and 'int'"
  | BadInt (JFloat NaN) => lit "cannot convert float NaN to integer"
  | BadInt (JFloat (Inf _)) => lit "cannot convert float infinity to integer"
  | BadInt (JStr s) => lit "invalid literal for int() with base 10: " ++ repr (JStr s)
  | BadInt v =>
      lit "int() argument must be a string, a bytes-like object or a real number, not '"
      ++ type_name v ++ lit "'"
  | PackRange _ => lit "'I' format requires 0 <= number <= 4294967295"
  | NotEncodable _ => lit "'utf-8' codec can't encode character: surrogates not allowed"
  end.

(** The reference platform on a machine of the given byte order, with the
    given clock and injector. *)
Definition platform (order : byteorder) (clock : nat -> Q)
    (injector : list event -> event -> option exn) : Platform :=
  {| native_order := order;
     py_loads := loads;
     py_repr := repr;
     py_int_of_str := int_of_str;
     fault_text := text_of;
     monotonic := clock;
     inj_raises := injector |}.

(** A little-endian machine whose clock advances one millisecond between two
    readings and whose injector never fails. *)
Definition quiet : Platform :=
  platform LittleEndian (fun k => Z.of_nat k # 1000) (fun _ _ => None).

(** The same machine with a keyboard that refuses the letter [b]. *)
Definition stuck : Platform :=
  platform LittleEndian (fun k => Z.of_nat k # 1000)
    (fun _ ev =>
       match ev with
       | KeyType char =>
           if (char =? 98)%N
           then Some (mk_exn OtherException (lit "key refused"))
           else None
       | _ => None
       end).

(** The same machine with a mouse that cannot be moved. *)
Definition pinned : Platform :=
  platform LittleEndian (fun k => Z.of_nat k # 1000)
    (fun _ ev =>
       match ev with
       | MouseMove _ _ => Some (mk_exn OtherException (lit "pointer refused"))
       | _ => None
       end).

(** The bytes of an ASCII text. *)
Definition ascii_bytes (s : string) : bytes := list_byte_of_string s.

(** [s] between double quotes. *)
Definition quoted (s : string) : string :=
  String "034" (s ++ String "034" EmptyString).

(** The frame of an ASCII payload on a little-endian machine. *)
Definition frame (payload : string) : bytes :=
  le_bytes (Z.of_nat (String.length payload)) ++ ascii_bytes payload.

(** Requests and responses as they stand on the wire. *)
Definition text_request (text : string) : string :=
  "{" ++ quoted "text" ++ ":" ++ quoted text ++ "}".

(** The request of the legacy form with the empty text. *)
Definition empty_text_request : string := text_request EmptyString.

Definition type_request (text delay : string) : string :=
  "{" ++ quoted "action" ++ ":" ++ quoted "type" ++ "," ++ quoted "text" ++ ":" ++
  quoted text ++ "," ++ quoted "delay" ++ ":" ++ delay ++ "}".

Definition bare_type_request : string :=
  "{" ++ quoted "action" ++ ":" ++ quoted "type" ++ "}".

Definition click_request (x y : string) : string :=
  "{" ++ quoted "action" ++ ":" ++ quoted "click" ++ "," ++ quoted "x" ++ ":" ++
  x ++ "," ++ quoted "y" ++ ":" ++ y ++ "}".

Definition ok_typed (typed : string) : string :=
  "{" ++ quoted "status" ++ ":" ++ quoted "ok" ++ "," ++ quoted "typed" ++ ":" ++
  typed ++ "}".

Definition ok_click (x y : string) : string :=
  "{" ++ quoted "status" ++ ":" ++ quoted "ok" ++ "," ++ quoted "action" ++ ":" ++
  quoted "click" ++ "," ++ quoted "x" ++ ":" ++ x ++ "," ++ quoted "y" ++ ":" ++
  y ++ "}".

Definition error (message : string) : string :=
  "{" ++ quoted "status" ++ ":" ++ quoted "error" ++ "," ++ quoted "message" ++
  ":" ++ quoted message ++ "}".

(** [count] frames of the same payload, one after the other. *)
Definition burst (count : nat) (payload : string) : bytes :=
  concat (repeat (frame payload) count).

End Reference.

(** ** Vocabulary of the proofs *)

(** The two halves of a surrogate pair, U+D800..U+DBFF and U+DC00..U+DFFF. *)
Definition is_high_surrogate (c : codepoint) : bool :=
  ((55296 <=? c) && (c <=? 56319))%N.

Definition is_low_surrogate (c : codepoint) : bool :=
  ((56320 <=? c) && (c <=? 57343))%N.

(** No high surrogate of [s] stands immediately before a low surrogate. *)
Fixpoint surrogates_unpaired (s : pystr) : bool :=
  match s with
  | c :: rest =>
      negb (is_high_surrogate c &&
            match rest with
            | d :: _ => is_low_surrogate d
            | [] => false
            end) &&
      surrogates_unpaired rest
  | [] => true
  end.

(** The characters of a [str] are code points, below U+110000. *)
Definition is_str (s : pystr) : bool :=
  forallb (fun c => (c <? 1114112)%N) s.

(** The message of an error response is a [str] in which no surrogates pair
    up; the other responses hold no text of their own. *)
Definition unpaired (r : response) : bool :=
  match r with
  | RespError message => is_str message && surrogates_unpaired message
  | RespTyped _ | RespClick _ _ => true
  end.

(** The end of a value in an object: a comma or the closing brace. *)
Definition closes (c : codepoint) : Prop := c = 44%N \/ c = 125%N.

(** The state of the process in a run. *)
Definition state_of (r : run) : world :=
  match r with
  | Running w | Exited _ w | Crashed _ w => w
  end.

(** The state of the process on the quiet reference machine after [turns]
    turns of the loop on the given input, or when it ended before. *)
Definition quiet_run (input : bytes) (turns : nat) : world :=
  state_of (main_loop (P := Reference.quiet) turns
              (main_start (P := Reference.quiet) input)).

(** The number that a decimal numeral denotes. *)
Definition digits_value (s : pystr) : N :=
  fold_left (fun value c => (10 * value + (c - 48))%N) s 0%N.

(** [count] calls of [read_frame], one after the other, and the payloads
    they return. *)
Fixpoint read_frames {P : Platform} (count : nat) : M (list bytes) :=
  match count with
  | O => ret []
  | S count =>
      payload <- read_frame ;;
      payloads <- read_frames count ;;
      ret (payload :: payloads)
  end.

(** [send_message] on each response in turn. *)
Fixpoint send_messages {P : Platform} (responses : list response) : M unit :=
  match responses with
  | [] => ret tt
  | r :: rest => send_message r ;; send_messages rest
  end.

(** The payload of a response: one byte for each character of its
    serialization. *)
Definition payload_of (r : response) : bytes := map byte_of_N (json_dumps r).

(** The clock readings at which successive calls of [_check_rate_limit]
    allow the action, when the calls read [nows] in turn and the first finds
    the state [timestamps]. *)
Fixpoint admissions (nows : list Q) (timestamps : list Q) : list Q :=
  match nows with
  | [] => []
  | now :: rest =>
      let (allowed, timestamps) := check_rate_limit_at now timestamps in
      (if allowed then [now] else []) ++ admissions rest timestamps
  end.

(** Of any twenty-one consecutive timestamps of the list, the last is at
    least one second after the first. *)
Definition spaced (times : list Q) : Prop :=
  forall i t u,
    nth_error times i = Some t -> nth_error times (i + 20) = Some u ->
    (t + 1 <= u)%Q.

(** The injector calls of [calls] that are made after [history], up to the
    first that raises, and what that one raises. *)
Fixpoint attempt {P : Platform} (history calls : list event)
    : list event * option exn :=
  match calls with
  | [] => ([], None)
  | ev :: rest =>
      match inj_raises history ev with
      | Some e => ([ev], Some e)
      | None =>
          let (made, raised) := attempt (history ++ [ev]) rest in
          (ev :: made, raised)
      end
  end.

(** What a piece of the program that answers a request leaves on [stdout]:
    the frame of one response when it returns, nothing when it raises; and it
    does not exit. *)
Definition responds {A} {P : Platform} (w : world) (result : outcome A * world)
    : Prop :=
  match result with
  | (Ret _, w') => exists r, answered_with w w' r
  | (Raise _, w') => stdout w' = stdout w
  | (SysExit _, _) => False
  end.

(** Between [w] and [w'] the frames of [count] responses, and nothing else,
    were written. *)
Definition wrote_responses {P : Platform} (w w' : world) (count : nat) : Prop :=
  exists responses outs,
    length responses = count /\
    Forall2 (fun r out => wire r = Some out) responses outs /\
    stdout w' = stdout w ++ concat outs.

(** A piece of the program that reads nothing from [stdin]. *)
Definition keeps_stdin {A} (m : M A) : Prop :=
  forall w, stdin (snd (m w)) = stdin w.

(** ** The idle watchdog (host.py, lines 128-139) *)

(** How one turn of the loop of [watchdog] ends. *)
Inductive watchdog_step :=
| WatchdogExit (code : Z)       (* [os._exit(code)] *)
| WatchdogSleep (seconds : Q).  (* [time.sleep(seconds)] *)

(** Lines 132-137: one turn, on the clock reading [now] and the value
    [last_activity] that it finds in [last_activity_ref[0]]. *)
Definition watchdog_turn (now last_activity : Q) : watchdog_step :=
  let elapsed := (now - last_activity)%Q in
  let remaining := (inject_Z IDLE_TIMEOUT_SECONDS - elapsed)%Q in
  if Qle_bool remaining 0 then WatchdogExit 0
  else WatchdogSleep (if Qle_bool remaining 10 then remaining else 10).

(** Lines 131-137: the thread.  Its turns are numbered from 0 and [observe]
    gives what each one reads: the clock, and [last_activity_ref[0]] as the
    loop of [main] left it.  The result is the turn at which the thread ends
    the process within [turns] turns from [wake] on, with the exit code. *)
Fixpoint watchdog (observe : nat -> Q * Q) (wake turns : nat)
    : option (nat * Z) :=
  match turns with
  | O => None
  | S turns =>
      match watchdog_turn (fst (observe wake)) (snd (observe wake)) with
      | WatchdogExit code => Some (wake, code)
      | WatchdogSleep _ => watchdog observe (S wake) turns
      end
  end.

(** What the thread reads when the clock jumps from 0 to 300 during its
    first sleep and nothing is received. *)
Definition late_observations (wake : nat) : Q * Q :=
  match wake with
  | O => (0, 0)%Q
  | S _ => (300, 0)%Q
  end.

(** [time.sleep(seconds)] suspends the thread for at least [seconds]. *)
Definition sleeps_honoured (observe : nat -> Q * Q) : Prop :=
  forall wake seconds,
    watchdog_turn (fst (observe wake)) (snd (observe wake)) = WatchdogSleep seconds ->
    (fst (observe wake) + seconds <= fst (observe (S wake)))%Q.

(** ** The legacy host (keystroke_sender.py)

    The single-file host that [host.py] replaces.  Its [send_message] and
    [type_text] (lines 48-76) are those of [host.py], line for line. *)

Module Legacy.

Section Host.

Context {P : Platform}.

(** Lines 33-44: [read_message] up to the payload; no size limit. *)
Definition read_frame : M bytes :=
  raw_length <- stdin_read 4 ;;
  if (length raw_length =? 0)%nat then sys_exit 0
  else if (length raw_length <? 4)%nat then sys_exit 1
  else
    let message_length := struct_unpack_I native_order raw_length in
    raw_message <- stdin_read (Z.to_nat message_length) ;;
    if Z.of_nat (length raw_message) <? message_length then sys_exit 1
    else ret raw_message.

Definition read_message : M json :=
  raw_message <- read_frame ;;
  decode_message raw_message.

(** Lines 88-104: the request is typed, whatever its [action]. *)
Definition handle (message : json) : M unit :=
  match message with
  | JDict items =>
      let text := dict_get items (lit "text") in
      if is_None text
      then send_message (RespError (lit "Missing 'text' field"))
      else
        match text with
        | JStr text =>
            if (length text =? 0)%nat
            then send_message (RespTyped 0)
            else
              let delay := dict_get_default items (lit "delay") default_delay in
              typed <- type_text text delay ;;
              send_message (RespTyped typed)
        | _ => send_message (RespError (lit "'text' must be a string"))
        end
  | _ => raise (fault_exn (NoGetAttr message))
  end.

(** Lines 106-111 *)
Definition handlers (e : exn) : M unit :=
  if is_JSONDecodeError e
  then send_message (RespError (lit "Invalid JSON: " ++ exn_text e))
  else send_message (RespError (exn_text e)).

(** Lines 84-111: one turn of [while True]; the read is inside the [try]. *)
Definition main_iteration : M unit :=
  try_except (message <- read_message ;; handle message) (fun _ => true) handlers.


End Host.

End Legacy.


(** ** The registration script (src/keystroke_sender/register.py)

    The script writes the manifest of the native messaging host and, on
    Windows, runs [reg].  Its state is the part of the file system it touches
    and the commands it has run; what [print] writes is left out, and
    [argparse] is taken to have parsed the command line. *)

Module Registration.

Definition HOST_NAME : pystr := lit "com.propdream.keystroke_sender".

(** [sys.platform] *)
Inductive platform_name :=
| Darwin
| Linux
| Win32
| OtherPlatform (name : pystr).

(** The dict that [register] dumps into the manifest file. *)
Record manifest := mk_manifest {
  manifest_name : pystr;
  manifest_description : pystr;
  manifest_path : pystr;
  manifest_type : pystr;
  manifest_allowed_origins : list pystr
}.

(** The directories that exist, the files that exist with the manifest each
    one holds, and the commands that [subprocess.run] has run, in order. *)
Record system := mk_system {
  directories : list pystr;
  files : list (pystr * manifest);
  commands : list (list pystr)
}.

Inductive failure :=
| SystemExit (message : pystr)               (* [sys.exit(message)] *)
| OSError (path : pystr)                     (* of [makedirs], [open], [os.remove] *)
| CalledProcessError (command : list pystr). (* of [subprocess.run(check=True)] *)

Inductive result (A : Type) :=
| Done (a : A)
| Failed (f : failure).
Arguments Done {A} a.
Arguments Failed {A} f.

Definition R (A : Type) : Type := system -> result A * system.

Definition done {A} (a : A) : R A := fun s => (Done a, s).
Definition fail {A} (f : failure) : R A := fun s => (Failed f, s).

Definition and_then {A B} (m : R A) (k : A -> R B) : R B :=
  fun s =>
    match m s with
    | (Done a, s') => k a s'
    | (Failed f, s') => (Failed f, s')
    end.

Declare Scope register_scope.
Notation "x <- m ;; k" := (and_then m (fun x => k))
  (at level 61, m at next level, right associativity) : register_scope.
Notation "m ;; k" := (and_then m (fun _ => k))
  (at level 61, right associativity) : register_scope.
Local Open Scope register_scope.

(** Everything the script takes from the interpreter and the machine. *)
Class Machine := {
  sys_platform : platform_name;
  (** [os.path.expanduser] *)
  expanduser : pystr -> pystr;
  (** [os.environ.get("LOCALAPPDATA", "")] *)
  local_app_data : pystr;
  (** [os.path.join(first, *others)] *)
  path_join : pystr -> list pystr -> pystr;
  (** [shutil.which] *)
  which : pystr -> option pystr;
  (** [os.path.abspath] *)
  abspath : pystr -> pystr;
  (** the return code of a command that [subprocess.run] runs *)
  returncode : list pystr -> Z;
  (** the line that [input] returns *)
  input_line : pystr
}.

Fixpoint lookup {A} (entries : list (pystr * A)) (key : pystr) : option A :=
  match entries with
  | [] => None
  | (k, v) :: rest => if pystr_eqb k key then Some v else lookup rest key
  end.

Fixpoint delete {A} (entries : list (pystr * A)) (key : pystr)
    : list (pystr * A) :=
  match entries with
  | [] => []
  | (k, v) :: rest =>
      if pystr_eqb k key then delete rest key else (k, v) :: delete rest key
  end.

Definition file_at (s : system) (path : pystr) : option manifest :=
  lookup (files s) path.

Definition is_file (s : system) (path : pystr) : bool :=
  match file_at s path with Some _ => true | None => false end.

Definition is_dir (s : system) (path : pystr) : bool :=
  existsb (pystr_eqb path) (directories s).

(** [os.makedirs(path, exist_ok=True)]: refused when [path] is a file. *)
Definition makedirs (path : pystr) : R unit :=
  fun s =>
    if is_file s path then (Failed (OSError path), s)
    else if is_dir s path then (Done tt, s)
    else (Done tt, mk_system (path :: directories s) (files s) (commands s)).

(** [with open(path, "w") as f: json.dump(manifest, f, indent=2)]: refused
    when [path] is a directory; a file that exists is overwritten. *)
Definition write_manifest (path : pystr) (m : manifest) : R unit :=
  fun s =>
    if is_dir s path then (Failed (OSError path), s)
    else (Done tt,
          mk_system (directories s) ((path, m) :: delete (files s) path)
            (commands s)).

(** [os.path.exists(path)] *)
Definition path_exists (s : system) (path : pystr) : bool :=
  is_file s path || is_dir s path.

(** [os.remove(path)]: refused when [path] is no file. *)
Definition remove (path : pystr) : R unit :=
  fun s =>
    if is_file s path
    then (Done tt, mk_system (directories s) (delete (files s) path) (commands s))
    else (Failed (OSError path), s).

Section Script.

Context {machine : Machine}.

(** [subprocess.run(command, check=check)] *)
Definition run (command : list pystr) (check : bool) : R unit :=
  fun s =>
    let s' := mk_system (directories s) (files s) (commands s ++ [command]) in
    if check && negb (returncode command =? 0)
    then (Failed (CalledProcessError command), s')
    else (Done tt, s').

(** Lines 20-36 *)
Definition _manifest_dir : result pystr :=
  match sys_platform with
  | Darwin =>
      Done (expanduser
              (lit "~/Library/Application Support/Google/Chrome/NativeMessagingHosts"))
  | Linux => Done (expanduser (lit "~/.config/google-chrome/NativeMessagingHosts"))
  | Win32 =>
      Done (path_join local_app_data
              [lit "Google"; lit "Chrome"; lit "User Data";
               lit "NativeMessagingHosts"])
  | OtherPlatform name => Failed (SystemExit (lit "Unsupported platform: " ++ name))
  end.

(** Lines 43-46 *)
Definition not_found_text : pystr :=
  lit "Error: 'keystroke-sender' not found on PATH." ++ [10%N] ++
  lit "Install the package first: pip install keystroke-sender".

(** Lines 39-47 *)
Definition _host_executable : result pystr :=
  match which (lit "keystroke-sender") with
  | None => Failed (SystemExit not_found_text)
  | Some path => Done (abspath path)
  end.

Definition lift {A} (r : result A) : R A := fun s => (r, s).

Definition is_win32 : bool :=
  match sys_platform with Win32 => true | _ => false end.

(** Lines 75 and 103 *)
Definition reg_key : pystr :=
  lit "HKCU\Software\Google\Chrome\NativeMessagingHosts\" ++ HOST_NAME.

(** Lines 58-64 *)
Definition manifest_for (host_path extension_id : pystr) : manifest :=
  mk_manifest HOST_NAME
    (lit "Simulates OS-level keystrokes for Chrome Form Filler")
    host_path (lit "stdio")
    [lit "chrome-extension://" ++ extension_id ++ lit "/"].

(** Lines 66 and 94 *)
Definition manifest_file (manifest_dir : pystr) : pystr :=
  path_join manifest_dir [HOST_NAME ++ lit ".json"].

(** Lines 76-79 *)
Definition reg_add (manifest_path : pystr) : list pystr :=
  [lit "reg"; lit "add"; reg_key; lit "/ve"; lit "/t"; lit "REG_SZ"; lit "/d";
   manifest_path; lit "/f"].

(** Lines 104-107 *)
Definition reg_delete : list pystr :=
  [lit "reg"; lit "delete"; reg_key; lit "/f"].

(** Lines 50-88 *)
Definition register (extension_id : pystr) : R unit :=
  manifest_dir <- lift _manifest_dir ;;
  makedirs manifest_dir ;;
  host_path <- lift _host_executable ;;
  let manifest := manifest_for host_path extension_id in
  let manifest_path := manifest_file manifest_dir in
  write_manifest manifest_path manifest ;;
  if is_win32 then run (reg_add manifest_path) true else done tt.

(** Lines 91-110 *)
Definition unregister : R unit :=
  manifest_dir <- lift _manifest_dir ;;
  let manifest_path := manifest_file manifest_dir in
  (fun s => if path_exists s manifest_path then remove manifest_path s
            else done tt s) ;;
  if is_win32 then run reg_delete false else done tt.

(** [str.isspace] of a character. *)
Definition is_space (c : codepoint) : bool :=
  (((9 <=? c) && (c <=? 13)) || ((28 <=? c) && (c <=? 32)) || (c =? 133) ||
   (c =? 160) || (c =? 5760) || ((8192 <=? c) && (c <=? 8202)) || (c =? 8232) ||
   (c =? 8233) || (c =? 8239) || (c =? 8287) || (c =? 12288))%N.

Fixpoint lstrip (s : pystr) : pystr :=
  match s with
  | [] => []
  | c :: rest => if is_space c then lstrip rest else s
  end.

(** [s.strip()] *)
Definition strip (s : pystr) : pystr := rev (lstrip (rev (lstrip s))).

(** What [parser.parse_args()] returns. *)
Record arguments := mk_arguments {
  extension_id : option pystr;
  unregister_flag : bool
}.

(** Lines 129-138 *)
Definition main (args : arguments) : R unit :=
  if unregister_flag args then unregister
  else
    match extension_id args with
    | Some (c :: rest) => register (c :: rest)
    | _ =>
        let ext_id := strip input_line in
        match ext_id with
        | [] => fail (SystemExit (lit "Error: Extension ID cannot be empty."))
        | _ :: _ => register ext_id
        end
    end.

End Script.

(** A Linux machine with the host installed. *)
Definition linux : Machine :=
  {| sys_platform := Linux;
     expanduser := fun path => lit "/home/u" ++ skipn 1 path;
     local_app_data := [];
     path_join := fun first others =>
       fold_left (fun path part => path ++ lit "/" ++ part) others first;
     which := fun _ => Some (lit "/usr/bin/keystroke-sender");
     abspath := fun path => path;
     returncode := fun _ => 0;
     input_line := lit " abc " |}.

(** A Linux machine on which the host is not installed. *)
Definition bare : Machine :=
  {| sys_platform := Linux;
     expanduser := fun path => lit "/home/u" ++ skipn 1 path;
     local_app_data := [];
     path_join := fun first others =>
       fold_left (fun path part => path ++ lit "/" ++ part) others first;
     which := fun _ => None;
     abspath := fun path => path;
     returncode := fun _ => 0;
     input_line := [] |}.

(** A Windows machine on which [reg] fails. *)
Definition windows : Machine :=
  {| sys_platform := Win32;
     expanduser := fun path => path;
     local_app_data := lit "C:\Users\u\AppData\Local";
     path_join := fun first others =>
       fold_left (fun path part => path ++ lit "\" ++ part) others first;
     which := fun _ => Some (lit "C:\Python\Scripts\keystroke-sender.EXE");
     abspath := fun path => path;
     returncode := fun _ => 1;
     input_line := [] |}.

Definition empty : system := mk_system [] [] [].

End Registration.

(** ** The process with its watchdog thread (host.py, lines 128-226)

    [main] starts the watchdog thread (line 152) before it enters the loop.
    The definitions above give the main thread; here the same code runs with
    the watchdog thread beside it.  At each operation of the main thread that
    goes to the system (a read, a write, a clock reading, a call of the
    injector) the watchdog thread may take turns of its loop, and a turn that
    finds the last activity 300 seconds old ends the process with
    [os._exit(0)]: nothing that the main thread had yet to do is done.  Which
    turns are taken, and with which clock readings, is the scheduler's; a write
    may block after some of its bytes, and the watchdog may end the process
    then. *)

Module Threads.

(** How a piece of the program ends. *)
Inductive fate (A : Type) :=
| Goes (r : outcome A)   (* as the main thread ends it *)
| Killed (code : Z).     (* [os._exit(code)] in the watchdog thread *)
Arguments Goes {A} r.
Arguments Killed {A} code.

Definition T (A : Type) : Type := world -> fate A * world.

Definition lift {A} (m : M A) : T A :=
  fun w => let (r, w') := m w in (Goes r, w').

Definition ret {A} (a : A) : T A := fun w => (Goes (Ret a), w).
Definition raise {A} (e : exn) : T A := fun w => (Goes (Raise e), w).
Definition sys_exit {A} (code : Z) : T A := fun w => (Goes (SysExit code), w).

Definition bind {A B} (m : T A) (k : A -> T B) : T B :=
  fun w =>
    match m w with
    | (Goes (Ret a), w') => k a w'
    | (Goes (Raise e), w') => (Goes (Raise e), w')
    | (Goes (SysExit code), w') => (Goes (SysExit code), w')
    | (Killed code, w') => (Killed code, w')
    end.

Definition try_except {A} (m : T A) (catches : exn -> bool)
    (handler : exn -> T A) : T A :=
  fun w =>
    match m w with
    | (Goes (Raise e), w') =>
        if catches e then handler e w' else (Goes (Raise e), w')
    | r => r
    end.

Declare Scope threads_scope.
Notation "x <- m ;; k" := (bind m (fun x => k))
  (at level 61, m at next level, right associativity) : threads_scope.
Notation "m ;; k" := (bind m (fun _ => k))
  (at level 61, right associativity) : threads_scope.
Local Open Scope threads_scope.

(** The operations at which the main thread waits for the system. *)
Inductive operation :=
| Reading (n : nat)        (* [sys.stdin.buffer.read(n)] *)
| Writing (rest : bytes)   (* a write that blocks, with [rest] still to go *)
| Clock                    (* [time.monotonic()] *)
| Calling (ev : event).    (* a call of [pynput] or [time.sleep], begun *)

(** What the operating system decides. *)
Class Scheduler := {
  (** the clock readings of the turns that the watchdog thread takes while
      the main thread is at an operation, in the given state *)
  polls : operation -> world -> list Q;
  (** the number of bytes of a write that go out before the write blocks *)
  stall : world -> nat
}.

Section Host.

Context {P : Platform} {scheduler : Scheduler}.

(** Turns of the loop of [watchdog] (lines 131-137) on the given clock
    readings: the exit code of the first that ends the process. *)
Fixpoint watchdog_turns (readings : list Q) (last_activity : Q) : option Z :=
  match readings with
  | [] => None
  | now :: rest =>
      match watchdog_turn now last_activity with
      | WatchdogExit code => Some code
      | WatchdogSleep _ => watchdog_turns rest last_activity
      end
  end.

(** The turns that the watchdog thread takes while the main thread is at
    [op]; they read [last_activity_ref[0]] as the main thread left it. *)
Definition yield (op : operation) : T unit :=
  fun w =>
    match watchdog_turns (polls op w) (last_activity w) with
    | Some code => (Killed code, w)
    | None => (Goes (Ret tt), w)
    end.

(** *** The streams *)

Definition stdin_read (n : nat) : T bytes :=
  yield (Reading n) ;; lift (stdin_read n).

(** The bytes that go out before the write blocks, the wait, the rest. *)
Definition stdout_write (data : bytes) : T unit :=
  fun w =>
    (lift (stdout_write (firstn (stall w) data)) ;;
     yield (Writing (skipn (stall w) data)) ;;
     lift (stdout_write (skipn (stall w) data))) w.

Definition time_monotonic : T Q :=
  yield Clock ;; lift time_monotonic.

(** *** read_message (lines 46-66) *)

Definition read_frame : T bytes :=
  raw_length <- stdin_read 4 ;;
  if (length raw_length =? 0)%nat then sys_exit 0
  else if (length raw_length <? 4)%nat then sys_exit 1
  else
    let message_length := struct_unpack_I native_order raw_length in
    if message_length >? MAX_MESSAGE_BYTES
    then raise (mk_exn ValueError too_large_text)
    else
      raw_message <- stdin_read (Z.to_nat message_length) ;;
      if Z.of_nat (length raw_message) <? message_length then sys_exit 1
      else ret raw_message.

Definition read_message : T json :=
  raw_message <- read_frame ;;
  lift (decode_message raw_message).

(** *** send_message (lines 69-74) *)

Definition send_message (message_obj : response) : T unit :=
  match utf8_encode (json_dumps message_obj) with
  | None => raise (fault_exn (NotEncodable (json_dumps message_obj)))
  | Some encoded =>
      match struct_pack_I native_order (Z.of_nat (length encoded)) with
      | None => raise (fault_exn (PackRange (Z.of_nat (length encoded))))
      | Some prefix =>
          stdout_write prefix ;;
          stdout_write encoded
      end
  end.

(** *** The injector (lines 77-113) *)

(** One call into [pynput] or [time.sleep]: it begins, the watchdog may end
    the process while it lasts, and it returns or raises. *)
Definition inject (ev : event) : T unit :=
  fun w =>
    match yield (Calling ev) (add_injected w ev) with
    | (Killed code, w') => (Killed code, w')
    | (Goes _, w') =>
        match inj_raises (injected w) ev with
        | Some e => (Goes (Raise e), w')
        | None => (Goes (Ret tt), w')
        end
    end.

Fixpoint type_chars (text : pystr) (delay : json) (count : Z) : T Z :=
  match text with
  | [] => ret count
  | char :: rest =>
      inject (KeyType char) ;;
      let count := count + 1 in
      positive <- lift (py_gt_zero delay) ;;
      (if positive then inject (Sleep delay) else ret tt) ;;
      type_chars rest delay count
  end.

Definition type_text (text : pystr) (delay : json) : T Z :=
  inject KeyboardController ;;
  type_chars text delay 0.

Definition click_at (x y : Z) : T unit :=
  inject MouseController ;;
  inject (MouseMove x y) ;;
  inject (Sleep (JFloat (Finite (1 # 20)))) ;;
  inject MouseClick.

(** *** _check_rate_limit (lines 116-125) *)

Definition _check_rate_limit : T bool :=
  now <- time_monotonic ;;
  lift (fun w =>
          let (allowed, timestamps) :=
            check_rate_limit_at now (action_timestamps w) in
          (Ret allowed, set_timestamps w timestamps)).

(** *** The loop of main (lines 154-226) *)

(** Lines 183-203 *)
Definition type_action (message : list (pystr * json)) : T unit :=
  let text := dict_get message (lit "text") in
  if is_None text
  then send_message (RespError (lit "Missing 'text' field"))
  else
    match text with
    | JStr text =>
        if Z.of_nat (length text) >? MAX_TEXT_LENGTH
        then send_message (RespError (too_long_text text))
        else if (length text =? 0)%nat
        then send_message (RespTyped 0)
        else
          let delay := dict_get_default message (lit "delay") default_delay in
          typed <- type_text text delay ;;
          send_message (RespTyped typed)
    | _ => send_message (RespError (lit "'text' must be a string"))
    end.

(** Lines 206-216 *)
Definition click_action (message : list (pystr * json)) : T unit :=
  let x := dict_get message (lit "x") in
  let y := dict_get message (lit "y") in
  if is_None x || is_None y
  then send_message (RespError (lit "Missing 'x' or 'y' for click"))
  else
    x <- lift (py_int x) ;;
    y <- lift (py_int y) ;;
    click_at x y ;;
    send_message (RespClick x y).

(** Lines 165-219 *)
Definition try_body (message : json) : T unit :=
  allowed <- _check_rate_limit ;;
  if negb allowed
  then send_message (RespError rate_limit_text)
  else
    match message with
    | JDict items =>
        match resolve_action items with
        | None => send_message (RespError (lit "Missing 'action' field"))
        | Some action =>
            if eq_str action (lit "type") then type_action items
            else if eq_str action (lit "click") then click_action items
            else send_message
                   (RespError (lit "Unknown action: " ++ py_format action))
        end
    | _ => raise (fault_exn (NoGetAttr message))
    end.

(** Line 162 *)
Definition touch_activity : T unit :=
  now <- time_monotonic ;;
  lift (fun w => (Ret tt, set_last_activity w now)).

(** Lines 164-226 *)
Definition process (message : json) : T unit :=
  try_except (try_body message) (fun _ => true)
    (fun e =>
       if is_JSONDecodeError e
       then send_message (RespError (lit "Invalid JSON: " ++ exn_text e))
       else send_message (RespError (exn_text e))).

(** One turn of [while True]. *)
Definition main_iteration : T unit :=
  received <-
    try_except (message <- read_message ;; ret (Some message))
      is_ValueError
      (fun e => send_message (RespError (exn_text e)) ;; ret None) ;;
  match received with
  | None => ret tt
  | Some message =>
      touch_activity ;;
      process message
  end.

(** How the process stands after some turns of the loop: still running, or
    ended, and then how. *)
Inductive run :=
| Going (w : world)
| Exit (code : Z) (w : world)      (* [sys.exit(code)] in the main thread *)
| Uncaught (e : exn) (w : world)   (* an exception that nothing caught *)
| Ended (code : Z) (w : world).    (* [os._exit(code)] in the watchdog thread *)

Fixpoint main_loop (turns : nat) (w : world) : run :=
  match turns with
  | O => Going w
  | S turns =>
      match main_iteration w with
      | (Goes (Ret _), w') => main_loop turns w'
      | (Goes (SysExit code), w') => Exit code w'
      | (Goes (Raise e), w') => Uncaught e w'
      | (Killed code, w') => Ended code w'
      end
  end.

(** The exit status of the process: the interpreter ends with the status 1
    on an exception that nothing caught. *)
Definition exit_status (r : run) : option Z :=
  match r with
  | Going _ => None
  | Exit code _ => Some code
  | Uncaught _ _ => Some 1
  | Ended code _ => Some code
  end.

(** A turn of the watchdog thread ended the process, on a reading of the
    clock that found the last activity 300 seconds old, in a state that
    satisfies [good]. *)
Definition struck (good : world -> Prop) : Prop :=
  exists op w now,
    good w /\ In now (polls op w) /\
    (300 <= now - last_activity w)%Q.

(** The main thread only adds to what it has written. *)
Definition appends {A} (main_thread : M A) : Prop :=
  forall w, exists written, stdout (snd (main_thread w)) = stdout w ++ written.

(** The main thread was on its way from [w] to [final], and the process was
    ended in [w']: what it had written since [w] is the beginning of what it
    was to write. *)
Definition cut_short (w w' final : world) : Prop :=
  exists written rest,
    stdout w' = stdout w ++ written /\ stdout final = stdout w' ++ rest.

(** Nothing, or the first bytes of the frame of a response, up to the whole
    of it. *)
Definition begins_response (written : bytes) : Prop :=
  written = [] \/ exists r rest, wire r = Some (written ++ rest).

(** [m] beside the watchdog thread does what the main thread [main_thread]
    does alone, unless the watchdog ends the process; and then the main thread
    is cut short. *)
Definition tracks {A} (good : world -> Prop) (m : T A) (main_thread : M A)
    : Prop :=
  appends main_thread /\
  forall w,
    good w ->
    match m w with
    | (Goes r, w') => main_thread w = (r, w') /\ good w'
    | (Killed code, w') =>
        code = 0 /\ struck good /\ cut_short w w' (snd (main_thread w))
    end.

(** No turn of the watchdog thread finds the last activity 300 seconds old:
    the peer and the injector are fast enough. *)
Definition calm : Prop :=
  forall op w now, In now (polls op w) -> (now - last_activity w < 300)%Q.

End Host.

(** The watchdog takes one turn while the main thread is in a sleep of 301
    seconds, 300 seconds after the last activity, and no other; a write goes
    out in one piece. *)
Definition during_a_long_sleep : Scheduler :=
  {| polls := fun op w =>
       match op with
       | Calling (Sleep (JInt 301)) => [(last_activity w + 300)%Q]
       | _ => []
       end;
     stall := fun _ => 0%nat |}.

(** The watchdog takes a turn at every operation of the main thread, one
    second after the last activity; a write blocks after three bytes. *)
Definition busy : Scheduler :=
  {| polls := fun _ w => [(last_activity w + 1)%Q];
     stall := fun _ => 3%nat |}.

(** The peer stops reading: a write blocks after three bytes, and the
    watchdog takes a turn while it waits with bytes still to go, 300 seconds
    after the last activity. *)
Definition stalled_peer : Scheduler :=
  {| polls := fun op w =>
       match op with
       | Writing (_ :: _) => [(last_activity w + 300)%Q]
       | _ => []
       end;
     stall := fun _ => 3%nat |}.

(** The peer sends nothing more and keeps the stream open: the watchdog takes
    a turn while the main thread waits for input that is not there, 300
    seconds after the last activity. *)
Definition silent_peer : Scheduler :=
  {| polls := fun op w =>
       match op, stdin w with
       | Reading _, [] => [(last_activity w + 300)%Q]
       | _, _ => []
       end;
     stall := fun _ => 0%nat |}.

End Threads.

(** * Proofs *)

(** ** [struct] and the frame prefix *)

Lemma to_N_byte_of_N (n : N) : Byte.to_N (byte_of_N n) = (n mod 256)%N.
Proof.
  unfold byte_of_N.
  destruct (Byte.of_N (n mod 256)) as [b|] eqn:E.
  - apply Byte.to_of_N; exact E.
  - apply Byte.of_N_None_iff in E.
    pose proof (N.mod_upper_bound n 256). lia.
Qed.

Lemma byte_value (n : Z) :
  0 <= n -> Z.of_N (Byte.to_N (byte_of_N (Z.to_N n))) = n mod 256.
Proof.
  intros Hn. rewrite to_N_byte_of_N, N2Z.inj_mod, Z2N.id by exact Hn.
  reflexivity.
Qed.

Lemma le_value_le_bytes (n : Z) :
  0 <= n < 4294967296 -> le_value (le_bytes n) = n.
Proof.
  intros Hn. unfold le_value, le_bytes.
  cbv [fold_right].
  rewrite !Z.shiftr_div_pow2 by lia.
  rewrite !byte_value by (try apply Z.div_pos; lia).
  change (2 ^ 8) with 256. change (2 ^ 16) with 65536.
  change (2 ^ 24) with 16777216.
  Z.div_mod_to_equations. lia.
Qed.

Lemma Some_eq {A} (a b : A) : Some a = Some b -> a = b.
Proof. intros H; injection H; auto. Qed.

Lemma struct_pack_I_length (order : byteorder) (n : Z) (prefix : bytes) :
  struct_pack_I order n = Some prefix -> length prefix = 4%nat.
Proof.
  unfold struct_pack_I.
  destruct ((0 <=? n) && (n <? 4294967296)); [|discriminate].
  intros H; apply Some_eq in H; subst prefix. destruct order; reflexivity.
Qed.

Lemma struct_pack_I_range (order : byteorder) (n : Z) :
  0 <= n < 4294967296 -> exists prefix, struct_pack_I order n = Some prefix.
Proof.
  intros Hn. unfold struct_pack_I.
  assert ((0 <=? n) && (n <? 4294967296) = true) as ->.
  { apply andb_true_iff; split; [apply Z.leb_le | apply Z.ltb_lt]; lia. }
  eexists; reflexivity.
Qed.

(** Unpacking a packed length gives the length back, in either byte order. *)
Lemma struct_unpack_pack (order : byteorder) (n : Z) (prefix : bytes) :
  struct_pack_I order n = Some prefix -> struct_unpack_I order prefix = n.
Proof.
  unfold struct_pack_I, struct_unpack_I.
  destruct ((0 <=? n) && (n <? 4294967296)) eqn:E; [|discriminate].
  apply andb_true_iff in E. destruct E as [E1 E2].
  apply Z.leb_le in E1. apply Z.ltb_lt in E2.
  intros H; apply Some_eq in H; subst prefix. destruct order.
  - apply le_value_le_bytes; lia.
  - rewrite rev_involutive. apply le_value_le_bytes; lia.
Qed.

(** ** Reading and writing frames *)

Lemma firstn_exact {A} (a b : list A) (n : nat) :
  length a = n -> firstn n (a ++ b) = a.
Proof.
  intros <-. rewrite firstn_app, Nat.sub_diag, firstn_all. simpl.
  apply app_nil_r.
Qed.

Lemma skipn_exact {A} (a b : list A) (n : nat) :
  length a = n -> skipn n (a ++ b) = b.
Proof.
  intros <-. rewrite skipn_app, Nat.sub_diag, skipn_all. reflexivity.
Qed.

Lemma gtb_false (a b : Z) : a <= b -> (a >? b) = false.
Proof. intros H. rewrite Z.gtb_ltb. apply Z.ltb_ge. exact H. Qed.

Lemma gtb_true (a b : Z) : b < a -> (a >? b) = true.
Proof. intros H. rewrite Z.gtb_ltb. apply Z.ltb_lt. exact H. Qed.

(** ** Serialized responses are ASCII and fit a frame *)

Lemma is_ascii_app (a b : pystr) : is_ascii (a ++ b) = is_ascii a && is_ascii b.
Proof. apply forallb_app. Qed.

Lemma digits_of_ascii (fuel : nat) (n : N) (acc : pystr) :
  is_ascii acc = true -> is_ascii (digits_of fuel n acc) = true.
Proof.
  revert n acc. induction fuel as [|fuel IH]; intros n acc Hacc.
  - cbn [digits_of is_ascii forallb]. fold (is_ascii acc). rewrite Hacc.
    rewrite andb_true_r. apply N.ltb_lt.
    pose proof (N.mod_upper_bound n 10). lia.
  - cbn [digits_of].
    assert (is_ascii ((48 + n mod 10)%N :: acc) = true) as Hacc'.
    { cbn [is_ascii forallb]. fold (is_ascii acc). rewrite Hacc.
      rewrite andb_true_r. apply N.ltb_lt.
      pose proof (N.mod_upper_bound n 10). lia. }
    destruct (n / 10 =? 0)%N; [exact Hacc'|].
    apply IH. exact Hacc'.
Qed.

Lemma dec_ascii (z : Z) : is_ascii (dec z) = true.
Proof.
  unfold dec, dec_N. destruct (z <? 0).
  - cbn [is_ascii forallb]. apply digits_of_ascii. reflexivity.
  - apply digits_of_ascii. reflexivity.
Qed.

Lemma hex_digit_ascii (n : N) : (n < 16)%N -> (hex_digit n <? 128)%N = true.
Proof.
  intros Hn. unfold hex_digit. apply N.ltb_lt.
  destruct (n <? 10)%N; lia.
Qed.

Lemma u_escape_ascii (n : N) : is_ascii (u_escape n) = true.
Proof.
  unfold u_escape. cbn [is_ascii forallb].
  rewrite !hex_digit_ascii by (apply N.mod_upper_bound; lia).
  reflexivity.
Qed.

Lemma escape_char_ascii (c : codepoint) : is_ascii (escape_char c) = true.
Proof.
  unfold escape_char.
  repeat match goal with
         | |- context [if (c =? ?k)%N then _ else _] =>
             destruct (c =? k)%N; [reflexivity|]
         end.
  destruct ((32 <=? c) && (c <=? 126))%N eqn:E.
  - apply andb_true_iff in E. destruct E as [_ E]. apply N.leb_le in E.
    cbn [is_ascii forallb]. rewrite andb_true_r. apply N.ltb_lt. lia.
  - destruct (c <? 65536)%N.
    + apply u_escape_ascii.
    + cbv zeta. rewrite is_ascii_app, !u_escape_ascii. reflexivity.
Qed.

Lemma flat_map_escape_ascii (s : pystr) : is_ascii (flat_map escape_char s) = true.
Proof.
  induction s as [|c s IH]; [reflexivity|].
  cbn [flat_map]. rewrite is_ascii_app, escape_char_ascii, IH. reflexivity.
Qed.

Lemma dumps_str_ascii (s : pystr) : is_ascii (dumps_str s) = true.
Proof.
  unfold dumps_str. rewrite !is_ascii_app, flat_map_escape_ascii. reflexivity.
Qed.

Lemma json_dumps_ascii (r : response) : is_ascii (json_dumps r) = true.
Proof.
  destruct r; unfold json_dumps;
    rewrite !is_ascii_app, ?dumps_str_ascii, ?dec_ascii; reflexivity.
Qed.

Lemma utf8_encode_ascii (s : pystr) :
  is_ascii s = true -> utf8_encode s = Some (map byte_of_N s).
Proof.
  induction s as [|c s IH]; [reflexivity|].
  cbn [is_ascii forallb]. fold (is_ascii s). intros H.
  apply andb_true_iff in H. destruct H as [Hc Hs].
  cbn [utf8_encode map]. unfold utf8_char. rewrite Hc, (IH Hs). reflexivity.
Qed.

(** The encoded form of a response: one byte for each character of its
    serialization. *)
Lemma encoded_response (r : response) :
  utf8_encode (json_dumps r) = Some (map byte_of_N (json_dumps r)).
Proof. apply utf8_encode_ascii, json_dumps_ascii. Qed.

Lemma digits_of_length (fuel : nat) (n : N) (acc : pystr) :
  (length (digits_of fuel n acc) <= S fuel + length acc)%nat.
Proof.
  revert n acc. induction fuel as [|fuel IH]; intros n acc.
  - cbn [digits_of length]. lia.
  - cbn [digits_of]. destruct (n / 10 =? 0)%N.
    + cbn [length]. lia.
    + specialize (IH (n / 10)%N ((48 + n mod 10)%N :: acc)).
      cbn [length] in IH. lia.
Qed.

Lemma log2_below (n : N) (k : N) : (n < 2 ^ k)%N -> (N.log2 n <= k)%N.
Proof.
  intros Hn. destruct (N.eq_dec n 0) as [->|Hz].
  - change (N.log2 0) with 0%N. lia.
  - apply N.lt_le_incl, N.log2_lt_pow2; lia.
Qed.

(** An [int] below [2^k] in absolute value prints in at most [k + 2]
    characters. *)
Lemma dec_length (z : Z) (k : N) :
  Z.abs z < 2 ^ Z.of_N k -> (length (dec z) <= 2 + N.to_nat k)%nat.
Proof.
  intros Hz.
  assert (Z.to_N (Z.abs z) < 2 ^ k)%N as Hn.
  { apply N2Z.inj_lt. rewrite Z2N.id by lia.
    rewrite N2Z.inj_pow. exact Hz. }
  apply log2_below in Hn.
  unfold dec, dec_N. destruct (z <? 0) eqn:E.
  - apply Z.ltb_lt in E. replace (- z) with (Z.abs z) by lia.
    cbn [length]. pose proof (digits_of_length
      (N.to_nat (N.log2 (Z.to_N (Z.abs z)))) (Z.to_N (Z.abs z)) []) as H.
    cbn [length] in H. lia.
  - apply Z.ltb_ge in E. replace z with (Z.abs z) at 1 2 by lia.
    pose proof (digits_of_length
      (N.to_nat (N.log2 (Z.to_N (Z.abs z)))) (Z.to_N (Z.abs z)) []) as H.
    cbn [length] in H. lia.
Qed.

Lemma escape_char_length (c : codepoint) : (length (escape_char c) <= 12)%nat.
Proof.
  unfold escape_char.
  repeat match goal with
         | |- context [if ?b then _ else _] => destruct b
         end; cbv zeta; rewrite ?length_app; cbn [length u_escape]; lia.
Qed.

Lemma flat_map_escape_length (s : pystr) :
  (length (flat_map escape_char s) <= 12 * length s)%nat.
Proof.
  induction s as [|c s IH]; [cbn; lia|].
  cbn [flat_map]. rewrite length_app. cbn [length].
  pose proof (escape_char_length c). lia.
Qed.

Lemma json_dumps_typed_length (typed : Z) :
  length (json_dumps (RespTyped typed)) = (24 + length (dec typed))%nat.
Proof.
  unfold json_dumps. generalize (dec typed) as d. intros d.
  rewrite !length_app. cbn. lia.
Qed.

Lemma json_dumps_click_length (x y : Z) :
  length (json_dumps (RespClick x y)) =
  (42 + length (dec x) + length (dec y))%nat.
Proof.
  unfold json_dumps. generalize (dec x) as dx, (dec y) as dy. intros dx dy.
  rewrite !length_app. cbn. lia.
Qed.

Lemma json_dumps_error_length (message : pystr) :
  (length (json_dumps (RespError message)) <= 32 + 12 * length message)%nat.
Proof.
  unfold json_dumps, dumps_str.
  pose proof (flat_map_escape_length message) as H.
  revert H. generalize (flat_map escape_char message) as e. intros e H.
  rewrite !length_app. cbn. lia.
Qed.

(** ** Responses are told apart on the wire *)

Lemma digits_of_value (fuel : nat) :
  forall (n : N) (acc : pystr),
    (n < 2 ^ N.of_nat (S fuel))%N ->
    fold_left (fun value c => (10 * value + (c - 48))%N) (digits_of fuel n acc) 0%N =
    fold_left (fun value c => (10 * value + (c - 48))%N) acc n.
Proof.
  induction fuel as [|fuel IH]; intros n acc Hn.
  - cbn [digits_of fold_left]. f_equal.
    change (2 ^ N.of_nat 1)%N with 2%N in Hn.
    rewrite N.mod_small by lia. lia.
  - cbn [digits_of].
    pose proof (N.Div0.div_mod n 10) as Hdm.
    assert (n / 10 < 2 ^ N.of_nat (S fuel))%N as Hq.
    { rewrite Nat2N.inj_succ, N.pow_succ_r' in Hn.
      apply N.Div0.div_lt_upper_bound. lia. }
    revert Hdm Hq. generalize (n / 10)%N (n mod 10)%N. intros q r Hdm Hq.
    destruct (q =? 0)%N eqn:E.
    + apply N.eqb_eq in E. cbn [fold_left]. f_equal. lia.
    + rewrite IH by exact Hq. cbn [fold_left]. f_equal. lia.
Qed.

(** The numeral of [n] denotes [n]. *)
Lemma dec_N_value (n : N) : digits_value (dec_N n) = n.
Proof.
  unfold digits_value, dec_N. rewrite digits_of_value; [reflexivity|].
  rewrite Nat2N.inj_succ, N2Nat.id.
  destruct (N.eq_dec n 0) as [->|Hn]; [reflexivity|].
  apply N.log2_spec. lia.
Qed.

Lemma digits_of_head (fuel : nat) :
  forall (n : N) (acc : pystr),
    exists c rest, digits_of fuel n acc = c :: rest /\ (48 <= c)%N.
Proof.
  induction fuel as [|fuel IH]; intros n acc.
  - cbn [digits_of]. eexists; eexists; split; [reflexivity|apply N.le_add_r].
  - cbn [digits_of]. destruct (n / 10 =? 0)%N.
    + eexists; eexists; split; [reflexivity|apply N.le_add_r].
    + apply IH.
Qed.

Lemma dec_inj (a b : Z) : dec a = dec b -> a = b.
Proof.
  unfold dec. destruct (a <? 0) eqn:Ea, (b <? 0) eqn:Eb; intros H.
  - injection H as H. apply (f_equal digits_value) in H.
    rewrite !dec_N_value in H. apply Z.ltb_lt in Ea, Eb. lia.
  - destruct (digits_of_head (N.to_nat (N.log2 (Z.to_N b))) (Z.to_N b) [])
      as [c [rest [Hd Hc]]].
    unfold dec_N in H. rewrite Hd in H. injection H as H _. lia.
  - destruct (digits_of_head (N.to_nat (N.log2 (Z.to_N a))) (Z.to_N a) [])
      as [c [rest [Hd Hc]]].
    unfold dec_N in H. rewrite Hd in H. injection H as H _. lia.
  - apply (f_equal digits_value) in H.
    rewrite !dec_N_value in H. apply Z.ltb_ge in Ea, Eb. lia.
Qed.

Lemma json_dumps_typed_inj (a b : Z) :
  json_dumps (RespTyped a) = json_dumps (RespTyped b) -> a = b.
Proof.
  unfold json_dumps. intros H.
  repeat apply app_inv_head in H.
  apply app_inv_tail in H. apply dec_inj. exact H.
Qed.

Lemma json_dumps_error_not_typed (message : pystr) (typed : Z) :
  json_dumps (RespError message) <> json_dumps (RespTyped typed).
Proof.
  unfold json_dumps. intros H.
  do 3 apply app_inv_head in H.
  apply (f_equal (fun s => nth 1 s 0%N)) in H.
  cbn in H. discriminate.
Qed.

Lemma map_byte_of_N_inj (s t : pystr) :
  is_ascii s = true -> is_ascii t = true ->
  map byte_of_N s = map byte_of_N t -> s = t.
Proof.
  intros Hs Ht H.
  apply (f_equal (map (fun b => Byte.to_N b))) in H.
  rewrite !map_map in H.
  assert (forall u, is_ascii u = true ->
                    map (fun c => Byte.to_N (byte_of_N c)) u = u) as Hid.
  { induction u as [|c u IH]; [reflexivity|].
    cbn [is_ascii forallb map]. fold (is_ascii u). intros Hu.
    apply andb_true_iff in Hu. destruct Hu as [Hc Hu].
    rewrite to_N_byte_of_N, (IH Hu). f_equal.
    apply N.ltb_lt in Hc. apply N.mod_small. lia. }
  rewrite (Hid s Hs), (Hid t Ht) in H. exact H.
Qed.

(** Two descriptions of the same state of the process. *)
Ltac world_eq :=
  unfold dispatched, add_calls, add_injected, set_stdout, set_stdin,
    set_timestamps, set_last_activity, tick;
  cbn [stdin stdout clock action_timestamps last_activity activity_writes
       injected];
  rewrite ?app_nil_r, <- ?app_assoc; try reflexivity.

Section HostFacts.

Context {P : Platform}.

Lemma frame_of_inv (payload frame : bytes) :
  frame_of payload = Some frame ->
  exists prefix, struct_pack_I native_order (Z.of_nat (length payload)) = Some prefix
    /\ frame = prefix ++ payload /\ length prefix = 4%nat.
Proof.
  unfold frame_of.
  destruct (struct_pack_I native_order (Z.of_nat (length payload)))
    as [prefix|] eqn:Hp; [|discriminate].
  intros H. apply Some_eq in H. exists prefix.
  repeat split; [symmetry; exact H | eapply struct_pack_I_length; exact Hp].
Qed.

(** A whole frame within the size limit is read as its payload, and the bytes
    after it are left on the stream. *)
Lemma read_frame_arrives (w : world) (payload rest : bytes) :
  arrives w payload rest ->
  Z.of_nat (length payload) <= MAX_MESSAGE_BYTES ->
  read_frame w = (Ret payload, set_stdin w rest).
Proof.
  intros [frame [Hf Hs]] Hmax.
  destruct (frame_of_inv _ _ Hf) as [prefix [Hp [-> Hlen]]].
  unfold read_frame, bind, stdin_read.
  rewrite Hs, <- app_assoc, (firstn_exact _ _ 4 Hlen), Hlen.
  change ((4 =? 0)%nat) with false. change ((4 <? 4)%nat) with false.
  cbv iota.
  rewrite (struct_unpack_pack _ _ _ Hp), (gtb_false _ _ Hmax).
  unfold set_stdin at 1 2. cbn [stdin].
  rewrite (skipn_exact _ _ 4 Hlen), Nat2Z.id.
  rewrite (firstn_exact _ _ _ eq_refl), Z.ltb_irrefl.
  unfold ret, set_stdin. cbn [stdin stdout clock action_timestamps last_activity
    activity_writes injected].
  rewrite (skipn_exact _ _ _ eq_refl). reflexivity.
Qed.

Lemma wire_inv (r : response) (out : bytes) :
  wire r = Some out ->
  exists prefix,
    struct_pack_I native_order (Z.of_nat (length (json_dumps r))) = Some prefix /\
    length prefix = 4%nat /\
    out = prefix ++ map byte_of_N (json_dumps r).
Proof.
  unfold wire. rewrite encoded_response. intros H.
  destruct (frame_of_inv _ _ H) as [prefix [Hp [-> Hlen]]].
  rewrite length_map in Hp. exists prefix. repeat split; assumption.
Qed.

Lemma wire_fits (r : response) :
  Z.of_nat (length (json_dumps r)) < 4294967296 ->
  exists out, wire r = Some out.
Proof.
  intros Hlen. unfold wire. rewrite encoded_response. unfold frame_of.
  destruct (struct_pack_I_range native_order
              (Z.of_nat (length (map byte_of_N (json_dumps r)))))
    as [prefix Hp]; [rewrite length_map; lia|].
  rewrite Hp. eexists; reflexivity.
Qed.

(** [send_message] writes the frame of the response, and nothing else
    changes. *)
Lemma send_message_wire (r : response) (out : bytes) (w : world) :
  wire r = Some out ->
  send_message r w = (Ret tt, set_stdout w (stdout w ++ out)).
Proof.
  intros H. destruct (wire_inv r out H) as [prefix [Hp [_ ->]]].
  unfold send_message. rewrite encoded_response. cbv beta iota.
  rewrite length_map, Hp.
  unfold bind, stdout_write, set_stdout.
  cbn [stdin stdout clock action_timestamps last_activity activity_writes
       injected].
  rewrite <- app_assoc. reflexivity.
Qed.

Lemma wire_typed (typed : Z) :
  Z.abs typed < 2 ^ 63 -> exists out, wire (RespTyped typed) = Some out.
Proof.
  intros H. apply wire_fits. rewrite json_dumps_typed_length.
  pose proof (dec_length typed 63 H). lia.
Qed.

Lemma wire_click (x y : Z) :
  Z.abs x < 2 ^ 1024 -> Z.abs y < 2 ^ 1024 ->
  exists out, wire (RespClick x y) = Some out.
Proof.
  intros Hx Hy. apply wire_fits. rewrite json_dumps_click_length.
  pose proof (dec_length x 1024 Hx). pose proof (dec_length y 1024 Hy). lia.
Qed.

Lemma wire_error (message : pystr) :
  Z.of_nat (length message) <= 1000000 ->
  exists out, wire (RespError message) = Some out.
Proof.
  intros H. apply wire_fits.
  pose proof (json_dumps_error_length message). lia.
Qed.

(** ** The pieces of the dispatcher *)


Lemma check_rate_limit_admitted (w : world) (timestamps : list Q) :
  admitted w timestamps ->
  _check_rate_limit w = (Ret true, set_timestamps (tick w) timestamps).
Proof.
  unfold admitted, _check_rate_limit, bind, time_monotonic. intros H.
  cbn [tick action_timestamps]. rewrite H. reflexivity.
Qed.

Lemma check_rate_limit_denied (w : world) (timestamps : list Q) :
  check_rate_limit_at (monotonic (clock w)) (action_timestamps w) =
    (false, timestamps) ->
  _check_rate_limit w = (Ret false, set_timestamps (tick w) timestamps).
Proof.
  unfold _check_rate_limit, bind, time_monotonic. intros H.
  cbn [tick action_timestamps]. rewrite H. reflexivity.
Qed.

(** An admitted request whose handling ends in sending [r]: the dispatcher
    writes the frame of [r]. *)
Lemma process_sends (message : json) (w w1 : world) (r : response)
    (out : bytes) :
  try_body message w = send_message r w1 ->
  wire r = Some out ->
  process message w = (Ret tt, set_stdout w1 (stdout w1 ++ out)).
Proof.
  intros Hbody Hwire. unfold process, try_except.
  rewrite Hbody, (send_message_wire r out w1 Hwire). reflexivity.
Qed.

Lemma try_body_admitted (items : list (pystr * json)) (w : world)
    (timestamps : list Q) :
  admitted w timestamps ->
  try_body (JDict items) w =
  match resolve_action items with
  | None => send_message (RespError (lit "Missing 'action' field"))
  | Some action =>
      if eq_str action (lit "type") then type_action items
      else if eq_str action (lit "click") then click_action items
      else send_message (RespError (lit "Unknown action: " ++ py_format action))
  end (set_timestamps (tick w) timestamps).
Proof.
  intros H. unfold try_body, bind.
  rewrite (check_rate_limit_admitted w timestamps H). reflexivity.
Qed.

Lemma pystr_eqb_eq (a b : pystr) : pystr_eqb a b = true <-> a = b.
Proof.
  revert b. induction a as [|x a IH]; intros [|y b]; cbn [pystr_eqb];
    try (split; [discriminate | intros [=]]); [tauto|].
  rewrite andb_true_iff, N.eqb_eq, IH. split.
  - intros [-> ->]; reflexivity.
  - intros [= -> ->]; split; reflexivity.
Qed.

Lemma eq_str_inv (v : json) (s : pystr) : eq_str v s = true -> v = JStr s.
Proof.
  destruct v; cbn [eq_str]; try discriminate.
  intros H. apply pystr_eqb_eq in H. congruence.
Qed.

Lemma try_body_type (items : list (pystr * json)) (w : world)
    (timestamps : list Q) :
  admitted w timestamps -> request_of "type" items ->
  try_body (JDict items) w = type_action items (set_timestamps (tick w) timestamps).
Proof.
  intros Ha [action [Hr He]].
  rewrite (try_body_admitted items w timestamps Ha), Hr, He. reflexivity.
Qed.

Lemma try_body_click (items : list (pystr * json)) (w : world)
    (timestamps : list Q) :
  admitted w timestamps -> request_of "click" items ->
  try_body (JDict items) w =
  click_action items (set_timestamps (tick w) timestamps).
Proof.
  intros Ha [action [Hr He]].
  rewrite (try_body_admitted items w timestamps Ha), Hr.
  apply eq_str_inv in He. subst action. reflexivity.
Qed.

(** *** The injector *)

Lemma add_calls_app (w : world) (a b : list event) :
  add_calls (add_calls w a) b = add_calls w (a ++ b).
Proof. world_eq. Qed.

Lemma inject_ok (ev : event) (w : world) :
  inj_raises (injected w) ev = None -> inject ev w = (Ret tt, add_calls w [ev]).
Proof. unfold inject. intros ->. reflexivity. Qed.

Lemma type_chars_ok (text : pystr) (delay : json) (positive : bool) :
  gt_zero delay = Some positive ->
  forall (count : Z) (w : world),
    calls_succeed (injected w)
      (flat_map (fun char => KeyType char :: pause delay) text) ->
    type_chars text delay count w =
    (Ret (count + Z.of_nat (length text)),
     add_calls w (flat_map (fun char => KeyType char :: pause delay) text)).
Proof.
  intros Hd.
  assert (pause delay = if positive then [Sleep delay] else []) as Hp.
  { unfold pause. rewrite Hd. destruct positive; reflexivity. }
  rewrite Hp. clear Hp.
  induction text as [|char text IH]; intros count w Hok.
  - cbn [type_chars flat_map length]. unfold ret. f_equal; [f_equal; lia|].
    destruct w; world_eq.
  - cbn [flat_map] in Hok |- *.
    cbn [type_chars]. unfold bind at 1. unfold py_gt_zero. rewrite Hd.
    destruct positive; cbn [app calls_succeed] in Hok |- *.
    + destruct Hok as [Hkey [Hsleep Hok]].
      rewrite (inject_ok _ _ Hkey).
      unfold bind at 1. unfold ret at 1. unfold bind at 1.
      rewrite (inject_ok (Sleep delay) (add_calls w [KeyType char]))
        by exact Hsleep.
      rewrite IH by exact Hok.
      rewrite !add_calls_app. f_equal. f_equal.
      cbn [length]. lia.
    + destruct Hok as [Hkey Hok].
      rewrite (inject_ok _ _ Hkey).
      unfold bind at 1. unfold ret at 1. unfold bind at 1. unfold ret at 1.
      rewrite IH by exact Hok.
      rewrite add_calls_app. f_equal. f_equal.
      cbn [length]. lia.
Qed.

Lemma type_text_ok (text : pystr) (delay : json) (positive : bool) (w : world) :
  gt_zero delay = Some positive ->
  calls_succeed (injected w) (typing_calls text delay) ->
  type_text text delay w =
  (Ret (Z.of_nat (length text)), add_calls w (typing_calls text delay)).
Proof.
  intros Hd Hok. unfold typing_calls in *. cbn [calls_succeed] in Hok.
  destruct Hok as [Hctl Hok].
  unfold type_text, bind. rewrite (inject_ok _ _ Hctl).
  rewrite (type_chars_ok text delay positive Hd 0 (add_calls w [KeyboardController]))
    by exact Hok.
  rewrite add_calls_app. reflexivity.
Qed.

Lemma click_at_ok (x y : Z) (w : world) :
  calls_succeed (injected w) (clicking_calls x y) ->
  click_at x y w = (Ret tt, add_calls w (clicking_calls x y)).
Proof.
  unfold clicking_calls. cbn [calls_succeed].
  intros [H1 [H2 [H3 [H4 _]]]].
  unfold click_at, bind.
  rewrite (inject_ok _ _ H1).
  rewrite (inject_ok _ (add_calls w [MouseController])) by exact H2.
  rewrite (inject_ok _ (add_calls (add_calls w _) _)) by exact H3.
  rewrite (inject_ok _ (add_calls (add_calls (add_calls w _) _) _)) by exact H4.
  rewrite !add_calls_app. reflexivity.
Qed.

Lemma process_returns (message : json) (w w' : world) :
  try_body message w = (Ret tt, w') -> process message w = (Ret tt, w').
Proof. intros H. unfold process, try_except. rewrite H. reflexivity. Qed.

Lemma too_long_text_cites (text : pystr) :
  too_long_text text =
  lit "Text too long (" ++ dec (Z.of_nat (length text)) ++
  lit " chars, limit 10000)".
Proof. reflexivity. Qed.

Lemma too_long_text_length (text : pystr) :
  Z.of_nat (length text) < 2 ^ 63 ->
  Z.of_nat (length (too_long_text text)) <= 1000000.
Proof.
  intros H. unfold too_long_text.
  pose proof (dec_length (Z.of_nat (length text)) 63) as Hd.
  revert Hd. generalize (dec (Z.of_nat (length text))) as d. intros d Hd.
  rewrite !length_app. cbn [lit list_ascii_of_string map length].
  change (length (dec MAX_TEXT_LENGTH)) with 5%nat.
  assert (length d <= 2 + N.to_nat 63)%nat by (apply Hd; lia).
  change (N.to_nat 63) with 63%nat in *. lia.
Qed.

(** A type request with a text that is too long: the error response, and no
    injector call. *)
Lemma type_too_long (items : list (pystr * json)) (text : pystr) (w : world)
    (timestamps : list Q) :
  admitted w timestamps -> request_of "type" items ->
  dict_get items (lit "text") = JStr text ->
  MAX_TEXT_LENGTH < Z.of_nat (length text) < 2 ^ 63 ->
  exists out,
    wire (RespError (too_long_text text)) = Some out /\
    process (JDict items) w = (Ret tt, dispatched w timestamps [] out).
Proof.
  intros Ha Hreq Htext [Hlong Hsize].
  destruct (wire_error (too_long_text text)) as [out Hout].
  { apply too_long_text_length. exact Hsize. }
  exists out. split; [exact Hout|].
  rewrite (process_sends (JDict items) w (set_timestamps (tick w) timestamps)
             (RespError (too_long_text text)) out); [world_eq| |exact Hout].
  rewrite (try_body_type items w timestamps Ha Hreq).
  unfold type_action. rewrite Htext. cbn [is_None].
  rewrite (gtb_true _ _ Hlong). reflexivity.
Qed.

(** A type request with the empty text: success with [typed] 0, and no
    injector call. *)
Lemma type_empty (items : list (pystr * json)) (w : world)
    (timestamps : list Q) :
  admitted w timestamps -> request_of "type" items ->
  dict_get items (lit "text") = JStr [] ->
  exists out,
    wire (RespTyped 0) = Some out /\
    process (JDict items) w = (Ret tt, dispatched w timestamps [] out).
Proof.
  intros Ha Hreq Htext.
  destruct (wire_typed 0) as [out Hout]; [reflexivity|].
  exists out. split; [exact Hout|].
  rewrite (process_sends (JDict items) w (set_timestamps (tick w) timestamps)
             (RespTyped 0) out); [world_eq| |exact Hout].
  rewrite (try_body_type items w timestamps Ha Hreq).
  unfold type_action. rewrite Htext. reflexivity.
Qed.

Lemma type_missing_text (items : list (pystr * json)) (w : world)
    (timestamps : list Q) :
  admitted w timestamps -> request_of "type" items ->
  dict_get items (lit "text") = JNull ->
  exists out,
    wire (RespError (lit "Missing 'text' field")) = Some out /\
    process (JDict items) w = (Ret tt, dispatched w timestamps [] out).
Proof.
  intros Ha Hreq Htext.
  destruct (wire_error (lit "Missing 'text' field")) as [out Hout];
    [cbn; lia|].
  exists out. split; [exact Hout|].
  rewrite (process_sends (JDict items) w (set_timestamps (tick w) timestamps)
             (RespError (lit "Missing 'text' field")) out);
    [world_eq| |exact Hout].
  rewrite (try_body_type items w timestamps Ha Hreq).
  unfold type_action. rewrite Htext. reflexivity.
Qed.

Lemma type_text_not_str (items : list (pystr * json)) (w : world)
    (timestamps : list Q) :
  admitted w timestamps -> request_of "type" items ->
  dict_get items (lit "text") <> JNull ->
  (forall text, dict_get items (lit "text") <> JStr text) ->
  exists out,
    wire (RespError (lit "'text' must be a string")) = Some out /\
    process (JDict items) w = (Ret tt, dispatched w timestamps [] out).
Proof.
  intros Ha Hreq Hnone Hstr.
  destruct (wire_error (lit "'text' must be a string")) as [out Hout];
    [cbn; lia|].
  exists out. split; [exact Hout|].
  rewrite (process_sends (JDict items) w (set_timestamps (tick w) timestamps)
             (RespError (lit "'text' must be a string")) out);
    [world_eq| |exact Hout].
  rewrite (try_body_type items w timestamps Ha Hreq).
  unfold type_action.
  destruct (dict_get items (lit "text")) as [| | | |text| |] eqn:E;
    try reflexivity.
  - contradiction.
  - exfalso. apply (Hstr text). reflexivity.
Qed.

(** A type request with a text of 1 to 10,000 characters and a delay that
    compares with 0: every character goes to the injector and, when no call
    raises, the response reports the length of the text. *)
Lemma type_typed (items : list (pystr * json)) (text : pystr) (delay : json)
    (positive : bool) (w : world) (timestamps : list Q) :
  admitted w timestamps -> request_of "type" items ->
  dict_get items (lit "text") = JStr text ->
  0 < Z.of_nat (length text) <= MAX_TEXT_LENGTH ->
  dict_get_default items (lit "delay") default_delay = delay ->
  gt_zero delay = Some positive ->
  calls_succeed (injected w) (typing_calls text delay) ->
  exists out,
    wire (RespTyped (Z.of_nat (length text))) = Some out /\
    process (JDict items) w =
    (Ret tt, dispatched w timestamps (typing_calls text delay) out).
Proof.
  intros Ha Hreq Htext [Hpos Hmax] Hdelay Hgt Hok.
  destruct (wire_typed (Z.of_nat (length text))) as [out Hout].
  { unfold MAX_TEXT_LENGTH in Hmax. lia. }
  exists out. split; [exact Hout|].
  apply process_returns.
  rewrite (try_body_type items w timestamps Ha Hreq).
  unfold type_action. rewrite Htext. cbn [is_None].
  rewrite (gtb_false _ _ Hmax).
  assert ((length text =? 0)%nat = false) as -> by (apply Nat.eqb_neq; lia).
  rewrite Hdelay. unfold bind.
  rewrite (type_text_ok text delay positive _ Hgt) by exact Hok.
  rewrite (send_message_wire _ out) by exact Hout.
  world_eq.
Qed.

Lemma click_clicked (items : list (pystr * json)) (vx vy : json) (x y : Z)
    (w : world) (timestamps : list Q) :
  admitted w timestamps -> request_of "click" items ->
  dict_get items (lit "x") = vx -> dict_get items (lit "y") = vy ->
  vx <> JNull -> vy <> JNull ->
  int_of vx = Some x -> int_of vy = Some y ->
  try_body (JDict items) w =
  (click_at x y ;; send_message (RespClick x y))
    (set_timestamps (tick w) timestamps).
Proof.
  intros Ha Hreq Hx Hy Hnx Hny Hix Hiy.
  rewrite (try_body_click items w timestamps Ha Hreq).
  unfold click_action. rewrite Hx, Hy.
  assert (is_None vx = false) as -> by (destruct vx; try reflexivity; congruence).
  assert (is_None vy = false) as -> by (destruct vy; try reflexivity; congruence).
  cbn [orb]. unfold py_int. rewrite Hix, Hiy. reflexivity.
Qed.

(** ** The turns of the loop *)

Lemma read_frame_eof (w : world) :
  stdin w = [] -> read_frame w = (SysExit 0, set_stdin w []).
Proof.
  intros H. unfold read_frame, bind, stdin_read. rewrite H. reflexivity.
Qed.

Lemma read_frame_short_prefix (w : world) :
  (0 < length (stdin w) < 4)%nat -> read_frame w = (SysExit 1, set_stdin w []).
Proof.
  intros [Hpos Hlt]. unfold read_frame, bind, stdin_read.
  rewrite firstn_all2, skipn_all2 by lia.
  assert ((length (stdin w) =? 0)%nat = false) as ->
    by (apply Nat.eqb_neq; lia).
  assert ((length (stdin w) <? 4)%nat = true) as ->
    by (apply Nat.ltb_lt; lia).
  reflexivity.
Qed.

Lemma read_frame_prefix (w : world) (raw_length rest : bytes) :
  stdin w = raw_length ++ rest -> length raw_length = 4%nat ->
  read_frame w =
  (let message_length := struct_unpack_I native_order raw_length in
   if message_length >? MAX_MESSAGE_BYTES
   then raise (mk_exn ValueError too_large_text)
   else
     raw_message <- stdin_read (Z.to_nat message_length) ;;
     if Z.of_nat (length raw_message) <? message_length then sys_exit 1
     else ret raw_message) (set_stdin w rest).
Proof.
  intros Hs Hlen. unfold read_frame at 1, bind at 1, stdin_read at 1.
  rewrite Hs, (firstn_exact _ _ 4 Hlen), (skipn_exact _ _ 4 Hlen), Hlen.
  reflexivity.
Qed.

Lemma read_frame_short_body (w : world) (raw_length rest : bytes) :
  stdin w = raw_length ++ rest -> length raw_length = 4%nat ->
  struct_unpack_I native_order raw_length <= MAX_MESSAGE_BYTES ->
  Z.of_nat (length rest) < struct_unpack_I native_order raw_length ->
  read_frame w = (SysExit 1, set_stdin w []).
Proof.
  intros Hs Hlen Hmax Hshort.
  rewrite (read_frame_prefix w raw_length rest Hs Hlen). cbv zeta.
  rewrite (gtb_false _ _ Hmax). unfold bind, stdin_read.
  unfold set_stdin.
  cbn [stdin stdout clock action_timestamps last_activity activity_writes
       injected].
  assert (length rest <= Z.to_nat (struct_unpack_I native_order raw_length))%nat
    as Hle by lia.
  rewrite (firstn_all2 rest Hle), (skipn_all2 rest Hle).
  assert ((Z.of_nat (length rest) <? struct_unpack_I native_order raw_length)
          = true) as -> by (apply Z.ltb_lt; exact Hshort).
  reflexivity.
Qed.

Lemma read_frame_oversized (w : world) (raw_length rest : bytes) :
  stdin w = raw_length ++ rest -> length raw_length = 4%nat ->
  MAX_MESSAGE_BYTES < struct_unpack_I native_order raw_length ->
  read_frame w = (Raise (mk_exn ValueError too_large_text), set_stdin w rest).
Proof.
  intros Hs Hlen Hbig.
  rewrite (read_frame_prefix w raw_length rest Hs Hlen). cbv zeta.
  rewrite (gtb_true _ _ Hbig). reflexivity.
Qed.

Lemma main_iteration_exits (w w' : world) (code : Z) :
  read_frame w = (SysExit code, w') -> main_iteration w = (SysExit code, w').
Proof.
  intros H. unfold main_iteration, bind, try_except, read_message, bind.
  rewrite H. reflexivity.
Qed.

(** A [ValueError] out of [read_message] is answered and the turn ends, before
    [last_activity[0]] is assigned. *)
Lemma main_iteration_value_error (w w' : world) (e : exn) :
  read_message w = (Raise e, w') -> is_ValueError e = true ->
  main_iteration w =
  match send_message (RespError (exn_text e)) w' with
  | (Ret _, w'') => (Ret tt, w'')
  | (Raise e', w'') => (Raise e', w'')
  | (SysExit code, w'') => (SysExit code, w'')
  end.
Proof.
  intros H He. unfold main_iteration, bind, try_except.
  rewrite H, He.
  destruct (send_message (RespError (exn_text e)) w') as [[[]|e'|code] w''];
    reflexivity.
Qed.

Lemma main_iteration_decoded (w w' : world) (message : json) :
  read_message w = (Ret message, w') ->
  main_iteration w =
  process message (set_last_activity (tick w') (monotonic (clock w'))).
Proof.
  intros H. unfold main_iteration, bind, try_except.
  rewrite H. unfold ret, touch_activity, bind, time_monotonic.
  reflexivity.
Qed.

Lemma read_message_arrives (w : world) (payload rest : bytes) :
  arrives w payload rest ->
  Z.of_nat (length payload) <= MAX_MESSAGE_BYTES ->
  read_message w =
  match py_loads payload with
  | Loaded v => (Ret v, set_stdin w rest)
  | LoadsRaise e => (Raise e, set_stdin w rest)
  end.
Proof.
  intros Ha Hmax. unfold read_message, bind.
  rewrite (read_frame_arrives w payload rest Ha Hmax).
  unfold decode_message. destruct (py_loads payload); reflexivity.
Qed.

Lemma negative_gt_zero (delay : json) :
  negative delay = true -> gt_zero delay = Some false.
Proof.
  destruct delay as [| |z|[q|n|]| | |]; cbn [negative gt_zero]; try discriminate.
  - intros H. apply Z.ltb_lt in H. f_equal. apply Z.ltb_ge. lia.
  - intros H. f_equal. apply negb_false_iff, Qle_bool_iff.
    apply negb_true_iff in H.
    destruct (Qlt_le_dec q 0) as [Hlt|Hge]; [apply Qlt_le_weak; exact Hlt|].
    apply Qle_bool_iff in Hge. congruence.
  - intros ->. reflexivity.
Qed.

Lemma dict_get_has (items : list (pystr * json)) (key : pystr) :
  dict_get items key <> JNull -> dict_has items key = true.
Proof.
  induction items as [|[k v] items IH]; cbn [dict_get dict_has].
  - congruence.
  - destruct (pystr_eqb k key); [reflexivity|]. exact IH.
Qed.

Lemma dict_get_default_present (items : list (pystr * json)) (key : pystr)
    (default : json) :
  dict_get items key <> JNull ->
  dict_get_default items key default = dict_get items key.
Proof.
  intros H. unfold dict_get_default. rewrite (dict_get_has items key H).
  reflexivity.
Qed.

Lemma typing_calls_no_pause (text : pystr) (delay : json) :
  gt_zero delay = Some false ->
  typing_calls text delay = KeyboardController :: map KeyType text.
Proof.
  intros H. unfold typing_calls, pause. rewrite H.
  assert (flat_map (fun char => [KeyType char]) text = map KeyType text) as ->;
    [|reflexivity].
  induction text as [|c text IH]; [reflexivity|].
  cbn [flat_map map app]. rewrite IH. reflexivity.
Qed.

Lemma read_message_oversized (w : world) (raw_length rest : bytes) :
  stdin w = raw_length ++ rest -> length raw_length = 4%nat ->
  MAX_MESSAGE_BYTES < struct_unpack_I native_order raw_length ->
  read_message w =
  (Raise (mk_exn ValueError (lit "Message exceeds 1048576 byte limit")),
   set_stdin w rest).
Proof.
  intros Hs Hlen Hbig. unfold read_message, bind.
  rewrite (read_frame_oversized w raw_length rest Hs Hlen Hbig). reflexivity.
Qed.

(** A request that the rate limiter denies, whatever it asks for: the error
    of the rate limiter, and no injector call. *)
Lemma process_denied (message : json) (w : world) (timestamps : list Q) :
  check_rate_limit_at (monotonic (clock w)) (action_timestamps w) =
    (false, timestamps) ->
  exists out,
    wire (RespError (lit "Rate limit exceeded (20 actions per 1.0s)")) = Some out /\
    process message w = (Ret tt, dispatched w timestamps [] out).
Proof.
  intros Hrate.
  destruct (wire_error rate_limit_text) as [out Hout];
    [apply Z.leb_le; reflexivity|].
  exists out. split; [exact Hout|].
  rewrite (process_sends message w (set_timestamps (tick w) timestamps)
             (RespError rate_limit_text) out); [world_eq| |exact Hout].
  unfold try_body, bind. rewrite (check_rate_limit_denied w timestamps Hrate).
  reflexivity.
Qed.

End HostFacts.

(** ** What never assigns [last_activity[0]] *)

Create HintDb keeps.
Create HintDb order.

Section Activity.

Context {P : Platform}.

Lemma keeps_ret {A} (a : A) : keeps_activity (ret a).
Proof. intros w; split; reflexivity. Qed.

Lemma keeps_raise {A} (e : exn) : keeps_activity (raise (A := A) e).
Proof. intros w; split; reflexivity. Qed.

Lemma keeps_sys_exit {A} (code : Z) : keeps_activity (sys_exit (A := A) code).
Proof. intros w; split; reflexivity. Qed.

Lemma keeps_bind {A B} (m : M A) (k : A -> M B) :
  keeps_activity m -> (forall a, keeps_activity (k a)) ->
  keeps_activity (bind m k).
Proof.
  intros Hm Hk w. unfold bind. specialize (Hm w).
  destruct (m w) as [[a|e|code] w']; cbn [snd] in *; try exact Hm.
  destruct (Hk a w') as [H1 H2]. destruct Hm as [H3 H4].
  split; congruence.
Qed.

Lemma keeps_try_except {A} (m : M A) (catches : exn -> bool)
    (handler : exn -> M A) :
  keeps_activity m -> (forall e, keeps_activity (handler e)) ->
  keeps_activity (try_except m catches handler).
Proof.
  intros Hm Hh w. unfold try_except. specialize (Hm w).
  destruct (m w) as [[a|e|code] w']; cbn [snd] in *; try exact Hm.
  destruct (catches e); [|exact Hm].
  destruct (Hh e w') as [H1 H2]. destruct Hm as [H3 H4].
  split; congruence.
Qed.

Lemma keeps_stdin_read (n : nat) : keeps_activity (stdin_read n).
Proof. intros w; split; reflexivity. Qed.

Lemma keeps_stdout_write (data : bytes) : keeps_activity (stdout_write data).
Proof. intros w; split; reflexivity. Qed.

Lemma keeps_time_monotonic : keeps_activity time_monotonic.
Proof. intros w; split; reflexivity. Qed.

Lemma keeps_inject (ev : event) : keeps_activity (inject ev).
Proof.
  intros w. unfold inject. destruct (inj_raises (injected w) ev);
    split; reflexivity.
Qed.

#[local] Hint Resolve keeps_ret keeps_raise keeps_sys_exit keeps_stdin_read
  keeps_stdout_write keeps_time_monotonic keeps_inject : keeps.

Ltac keeps :=
  repeat first
    [ solve [auto with keeps]
    | apply keeps_bind; [|intros ?]
    | apply keeps_try_except; [|intros ?]
    | match goal with
      | |- keeps_activity (if ?b then _ else _) => destruct b
      | |- keeps_activity (match ?x with _ => _ end) => destruct x
      end ].

Lemma keeps_send_message (r : response) : keeps_activity (send_message r).
Proof. unfold send_message. keeps. Qed.

Lemma keeps_read_frame : keeps_activity read_frame.
Proof. unfold read_frame. keeps. Qed.

Lemma keeps_read_message : keeps_activity read_message.
Proof.
  unfold read_message. apply keeps_bind; [apply keeps_read_frame|].
  intros raw. unfold decode_message. keeps.
Qed.

Lemma keeps_py_gt_zero (v : json) : keeps_activity (py_gt_zero v).
Proof. unfold py_gt_zero. keeps. Qed.

Lemma keeps_py_int (v : json) : keeps_activity (py_int v).
Proof. unfold py_int. keeps. Qed.

#[local] Hint Resolve keeps_send_message keeps_py_gt_zero keeps_py_int : keeps.

Lemma keeps_type_chars (text : pystr) (delay : json) (count : Z) :
  keeps_activity (type_chars text delay count).
Proof.
  revert count. induction text as [|char text IH]; intros count;
    cbn [type_chars]; keeps.
Qed.

Lemma keeps_check_rate_limit : keeps_activity _check_rate_limit.
Proof.
  unfold _check_rate_limit. apply keeps_bind; [auto with keeps|].
  intros now w.
  destruct (check_rate_limit_at now (action_timestamps w)); split; reflexivity.
Qed.

#[local] Hint Resolve keeps_type_chars keeps_check_rate_limit : keeps.

Lemma keeps_try_body (message : json) : keeps_activity (try_body message).
Proof.
  unfold try_body, type_action, click_action, type_text, click_at. keeps.
Qed.

(** The dispatcher never assigns [last_activity[0]]. *)
Lemma keeps_process (message : json) : keeps_activity (process message).
Proof.
  unfold process. apply keeps_try_except; [apply keeps_try_body|].
  intros e. keeps.
Qed.

(** A frame that is read and decoded: one assignment, of the clock reading
    that follows the read. *)
Lemma decoded_frame_updates_last_activity (w : world) (payload rest : bytes)
    (message : json) :
  arrives w payload rest ->
  Z.of_nat (length payload) <= MAX_MESSAGE_BYTES ->
  py_loads payload = Loaded message ->
  activity_writes (snd (main_iteration w)) = S (activity_writes w) /\
  last_activity (snd (main_iteration w)) = monotonic (clock w).
Proof.
  intros Ha Hmax Hloads.
  pose proof (read_message_arrives w payload rest Ha Hmax) as Hread.
  rewrite Hloads in Hread.
  rewrite (main_iteration_decoded w _ message Hread).
  destruct (keeps_process message
              (set_last_activity (tick (set_stdin w rest))
                 (monotonic (clock (set_stdin w rest))))) as [H1 H2].
  rewrite H1, H2. split; reflexivity.
Qed.

(** A frame that is read but whose payload [json.loads] refuses with a
    [ValueError] (a [JSONDecodeError] or a [UnicodeDecodeError]): no
    assignment. *)
Lemma undecodable_frame_keeps_last_activity (w : world) (payload rest : bytes)
    (e : exn) :
  arrives w payload rest ->
  Z.of_nat (length payload) <= MAX_MESSAGE_BYTES ->
  py_loads payload = LoadsRaise e ->
  is_ValueError e = true ->
  activity_writes (snd (main_iteration w)) = activity_writes w /\
  last_activity (snd (main_iteration w)) = last_activity w.
Proof.
  intros Ha Hmax Hloads He.
  pose proof (read_message_arrives w payload rest Ha Hmax) as Hread.
  rewrite Hloads in Hread.
  rewrite (main_iteration_value_error w _ e Hread He).
  destruct (keeps_send_message (RespError (exn_text e)) (set_stdin w rest))
    as [H1 H2].
  destruct (send_message (RespError (exn_text e)) (set_stdin w rest))
    as [[[]|e'|code] w'']; cbn [snd] in *; split; assumption.
Qed.

(** A frame that fails framing or is oversized: no assignment. *)
Lemma unread_frame_keeps_last_activity (w : world) :
  (forall message w', read_message w <> (Ret message, w')) ->
  activity_writes (snd (main_iteration w)) = activity_writes w /\
  last_activity (snd (main_iteration w)) = last_activity w.
Proof.
  intros Hno. destruct (keeps_read_message w) as [H1 H2].
  unfold main_iteration, bind, try_except.
  destruct (read_message w) as [[message|e|code] w'] eqn:Hread; cbn [snd] in *.
  - exfalso. apply (Hno message w'). reflexivity.
  - destruct (is_ValueError e); [|cbn [snd]; split; assumption].
    destruct (keeps_send_message (RespError (exn_text e)) w') as [H3 H4].
    destruct (send_message (RespError (exn_text e)) w')
      as [[[]|e'|code] w'']; cbn [snd bind ret] in *; split; congruence.
  - split; assumption.
Qed.

End Activity.

(** ** Every way a type request can end *)

Section Outcomes.

Context {P : Platform}.

Lemma wire_same_serialization (r1 r2 : response) (out : bytes) :
  wire r1 = Some out -> wire r2 = Some out -> json_dumps r1 = json_dumps r2.
Proof.
  intros H1 H2.
  destruct (wire_inv r1 out H1) as [p1 [_ [Hl1 E1]]].
  destruct (wire_inv r2 out H2) as [p2 [_ [Hl2 E2]]].
  apply (f_equal (skipn 4)) in E1. apply (f_equal (skipn 4)) in E2.
  rewrite (skipn_exact _ _ 4 Hl1) in E1. rewrite (skipn_exact _ _ 4 Hl2) in E2.
  apply map_byte_of_N_inj; try apply json_dumps_ascii. congruence.
Qed.

Lemma wire_nonempty (r : response) (out : bytes) :
  wire r = Some out -> (4 <= length out)%nat.
Proof.
  intros H. destruct (wire_inv r out H) as [p [_ [Hl ->]]].
  rewrite length_app. lia.
Qed.

Lemma send_message_outcome (r : response) (w : world) :
  (exists out, wire r = Some out /\
               send_message r w = (Ret tt, set_stdout w (stdout w ++ out))) \/
  (exists e, send_message r w = (Raise e, w)).
Proof.
  destruct (wire r) as [out|] eqn:Hw.
  - left. exists out. split; [reflexivity|]. apply send_message_wire. exact Hw.
  - right. unfold wire, frame_of in Hw. rewrite encoded_response in Hw.
    unfold send_message. rewrite encoded_response. cbv beta iota.
    destruct (struct_pack_I native_order
                (Z.of_nat (length (map byte_of_N (json_dumps r)))));
      [discriminate|].
    eexists. reflexivity.
Qed.

(** What a handler of the second [try] leaves on [stdout]: nothing, or one
    error response. *)
Lemma send_error_outcome (message : pystr) (w w0 : world) :
  stdout w = stdout w0 ->
  stdout (snd (send_message (RespError message) w)) = stdout w0 \/
  exists m, answered_with w0 (snd (send_message (RespError message) w))
              (RespError m).
Proof.
  intros Hsame.
  destruct (send_message_outcome (RespError message) w)
    as [[out [Hout Hsend]]|[e Hsend]]; rewrite Hsend; cbn [snd].
  - right. exists message, out. split; [exact Hout|].
    unfold set_stdout. cbn [stdout]. rewrite Hsame. reflexivity.
  - left. exact Hsame.
Qed.

Lemma handler_outcome (e : exn) (w w0 : world) :
  stdout w = stdout w0 ->
  stdout (snd ((if is_JSONDecodeError e
                then send_message (RespError (lit "Invalid JSON: " ++ exn_text e))
                else send_message (RespError (exn_text e))) w)) = stdout w0 \/
  exists m,
    answered_with w0
      (snd ((if is_JSONDecodeError e
             then send_message (RespError (lit "Invalid JSON: " ++ exn_text e))
             else send_message (RespError (exn_text e))) w))
      (RespError m).
Proof.
  intros Hsame. destruct (is_JSONDecodeError e);
    apply send_error_outcome; exact Hsame.
Qed.

Lemma silently_bind {A B} (m : M A) (k : A -> M B) (good : A -> Prop)
    (good' : B -> Prop) (w0 w : world) :
  silently good w0 (m w) ->
  (forall a w1, good a -> stdout w1 = stdout w0 -> silently good' w0 (k a w1)) ->
  silently good' w0 (bind m k w).
Proof.
  unfold bind. destruct (m w) as [[a|e|code] w1]; cbn [silently].
  - intros [Hg Hs] Hk. apply Hk; assumption.
  - intros Hs _. exact Hs.
  - intros [].
Qed.

Lemma inject_outcome (ev : event) (w0 w : world) :
  stdout w = stdout w0 -> silently (fun _ => True) w0 (inject ev w).
Proof.
  intros Hs. unfold inject.
  destruct (inj_raises (injected w) ev); cbn [silently]; auto.
Qed.

Lemma py_gt_zero_outcome (delay : json) (w0 w : world) :
  stdout w = stdout w0 -> silently (fun _ => True) w0 (py_gt_zero delay w).
Proof.
  intros Hs. unfold py_gt_zero.
  destruct (gt_zero delay); cbn [silently ret raise]; auto.
Qed.

Lemma type_chars_outcome (text : pystr) (delay : json) (w0 : world) :
  forall (count : Z) (w : world),
    stdout w = stdout w0 ->
    silently (fun typed => typed = count + Z.of_nat (length text)) w0
      (type_chars text delay count w).
Proof.
  induction text as [|char text IH]; intros count w Hs.
  - cbn [type_chars length silently ret]. split; [lia|exact Hs].
  - cbn [type_chars].
    apply (silently_bind _ _ (fun _ => True)); [apply inject_outcome; exact Hs|].
    intros _ w1 _ Hs1.
    apply (silently_bind _ _ (fun _ => True));
      [apply py_gt_zero_outcome; exact Hs1|].
    intros positive w2 _ Hs2.
    apply (silently_bind _ _ (fun _ => True)).
    + destruct positive; [apply inject_outcome; exact Hs2|].
      cbn [silently ret]. auto.
    + intros _ w3 _ Hs3.
      specialize (IH (count + 1) w3 Hs3).
      destruct (type_chars text delay (count + 1) w3) as [[typed|e|code] w4];
        cbn [silently] in *; [|exact IH|exact IH].
      destruct IH as [-> Hs4]. split; [|exact Hs4]. cbn [length]. lia.
Qed.

Lemma type_text_outcome (text : pystr) (delay : json) (w : world) :
  silently (fun typed => typed = Z.of_nat (length text)) w
    (type_text text delay w).
Proof.
  unfold type_text.
  apply (silently_bind _ _ (fun _ => True)); [apply inject_outcome; reflexivity|].
  intros _ w1 _ Hs1.
  apply (type_chars_outcome text delay w 0 w1 Hs1).
Qed.

(** A type request with a text of 1 to 10,000 characters leaves on [stdout]
    nothing, one error response, or the success response that reports the
    length of the text. *)
Lemma type_request_outcome (message : list (pystr * json)) (text : pystr)
    (w : world) :
  request_of "type" message ->
  dict_get message (lit "text") = JStr text ->
  0 < Z.of_nat (length text) <= MAX_TEXT_LENGTH ->
  stdout (snd (process (JDict message) w)) = stdout w \/
  (exists m, answered_with w (snd (process (JDict message) w)) (RespError m)) \/
  answered_with w (snd (process (JDict message) w))
    (RespTyped (Z.of_nat (length text))).
Proof.
  intros Hreq Htext [Hpos Hmax].
  destruct (check_rate_limit_at (monotonic (clock w)) (action_timestamps w))
    as [[|] timestamps] eqn:Hrate.
  - (* admitted *)
    unfold process, try_except.
    rewrite (try_body_type message w timestamps Hrate Hreq).
    unfold type_action. rewrite Htext. cbn [is_None].
    rewrite (gtb_false _ _ Hmax).
    assert ((length text =? 0)%nat = false) as -> by (apply Nat.eqb_neq; lia).
    unfold bind.
    pose proof (type_text_outcome text
                  (dict_get_default message (lit "delay") default_delay)
                  (set_timestamps (tick w) timestamps)) as Ht.
    destruct (type_text text
                (dict_get_default message (lit "delay") default_delay)
                (set_timestamps (tick w) timestamps)) as [[typed|e|code] w2];
      cbn [silently] in Ht;
      [|destruct (handler_outcome e w2 w Ht) as [H|H]; [left|right; left];
        exact H|contradiction].
    destruct Ht as [-> Hs2].
    destruct (send_message_outcome (RespTyped (Z.of_nat (length text))) w2)
      as [[out [Hout Hsend]]|[e Hsend]]; rewrite Hsend.
    + right. right. exists out. split; [exact Hout|].
      cbn [snd]. unfold set_stdout. cbn [stdout]. rewrite Hs2. reflexivity.
    + destruct (handler_outcome e w2 w Hs2) as [H|H]; [left|right; left];
        exact H.
  - (* denied *)
    unfold process, try_except, try_body, bind.
    rewrite (check_rate_limit_denied w timestamps Hrate). cbn [negb].
    destruct (send_message_outcome (RespError rate_limit_text)
                (set_timestamps (tick w) timestamps))
      as [[out [Hout Hsend]]|[e Hsend]]; rewrite Hsend.
    + right. left. exists rate_limit_text, out. split; [exact Hout|].
      reflexivity.
    + destruct (handler_outcome e (set_timestamps (tick w) timestamps) w eq_refl)
        as [H|H]; [left|right; left]; exact H.
Qed.

End Outcomes.

(** ** The frame codec and the exits of the process *)

Lemma main_loop_exits {P : Platform} (w w' : world) (code : Z) (turns : nat) :
  main_iteration w = (SysExit code, w') ->
  main_loop (S turns) w = Exited code w'.
Proof. intros H. cbn [main_loop]. rewrite H. reflexivity. Qed.

Lemma main_loop_continues {P : Platform} (w w' : world) (turns : nat) :
  main_iteration w = (Ret tt, w') ->
  main_loop (S turns) w = main_loop turns w'.
Proof. intros H. cbn [main_loop]. rewrite H. reflexivity. Qed.

(** C5: a read of the length prefix that returns no byte ends the process with
    exit code 0; one that returns 1 to 3 bytes ends it with exit code 1; a body
    read that returns fewer bytes than the prefix declares ends it with exit
    code 1 (the body is read when the declared length is within the limit of
    1,048,576 bytes). *)
Theorem C5_exit_codes {P : Platform} (w : world) (turns : nat) :
  (stdin w = [] -> exists w', main_loop (S turns) w = Exited 0 w') /\
  ((0 < length (stdin w) < 4)%nat ->
   exists w', main_loop (S turns) w = Exited 1 w') /\
  (forall raw_length rest,
     stdin w = raw_length ++ rest -> length raw_length = 4%nat ->
     struct_unpack_I native_order raw_length <= MAX_MESSAGE_BYTES ->
     Z.of_nat (length rest) < struct_unpack_I native_order raw_length ->
     exists w', main_loop (S turns) w = Exited 1 w').
Proof.
  split; [|split].
  - intros H. eexists. apply main_loop_exits, main_iteration_exits.
    apply read_frame_eof. exact H.
  - intros H. eexists. apply main_loop_exits, main_iteration_exits.
    apply read_frame_short_prefix. exact H.
  - intros raw_length rest Hs Hlen Hmax Hshort. eexists.
    apply main_loop_exits, main_iteration_exits.
    apply (read_frame_short_body w raw_length rest Hs Hlen Hmax Hshort).
Qed.

Lemma C5_exit_codes_witness :
  (exists w', main_loop (P := Reference.quiet) 1
                (main_start (P := Reference.quiet) []) = Exited 0 w') /\
  (exists w', main_loop (P := Reference.quiet) 1
                (main_start (P := Reference.quiet) [x02; x00]) = Exited 1 w') /\
  (exists w', main_loop (P := Reference.quiet) 1
                (main_start (P := Reference.quiet) [x02; x00; x00; x00; x7b])
              = Exited 1 w').
Proof.
  split; [|split].
  - apply (C5_exit_codes (P := Reference.quiet)). reflexivity.
  - apply (C5_exit_codes (P := Reference.quiet)). cbn. lia.
  - apply (proj2 (proj2 (C5_exit_codes (P := Reference.quiet)
                           (main_start (P := Reference.quiet)
                              [x02; x00; x00; x00; x7b]) 0))
             [x02; x00; x00; x00] [x7b]).
    + reflexivity.
    + reflexivity.
    + vm_compute. discriminate.
    + vm_compute. reflexivity.
Defined.

Lemma too_large_text_cites :
  too_large_text = lit "Message exceeds 1048576 byte limit".
Proof. reflexivity. Qed.

(** C6: a length prefix above 1,048,576 makes the read fail with a
    [ValueError] that the loop answers with an error response, after which it
    goes on to the next turn. *)
Theorem C6_oversized_is_recoverable {P : Platform} (w : world)
    (raw_length rest : bytes) (turns : nat) :
  stdin w = raw_length ++ rest -> length raw_length = 4%nat ->
  MAX_MESSAGE_BYTES < struct_unpack_I native_order raw_length ->
  read_message w =
    (Raise (mk_exn ValueError (lit "Message exceeds 1048576 byte limit")),
     set_stdin w rest) /\
  exists out,
    wire (RespError (lit "Message exceeds 1048576 byte limit")) = Some out /\
    main_iteration w =
      (Ret tt, set_stdout (set_stdin w rest) (stdout w ++ out)) /\
    main_loop (S turns) w =
      main_loop turns (set_stdout (set_stdin w rest) (stdout w ++ out)).
Proof.
  intros Hs Hlen Hbig.
  pose proof (read_message_oversized w raw_length rest Hs Hlen Hbig) as Hread.
  split; [exact Hread|].
  destruct (wire_error too_large_text) as [out Hout];
    [apply Z.leb_le; reflexivity|].
  exists out. split; [exact Hout|].
  assert (main_iteration w =
          (Ret tt, set_stdout (set_stdin w rest) (stdout w ++ out))) as Hturn.
  { rewrite (main_iteration_value_error w _ _ Hread eq_refl).
    cbn [exn_text]. rewrite (send_message_wire _ out _ Hout). reflexivity. }
  split; [exact Hturn|].
  apply main_loop_continues. exact Hturn.
Qed.

Lemma C6_oversized_is_recoverable_witness :
  exists out,
    wire (P := Reference.quiet)
      (RespError (lit "Message exceeds 1048576 byte limit")) = Some out /\
    main_loop (P := Reference.quiet) 1
      (main_start (P := Reference.quiet) [x01; x00; x10; x00; x41]) =
    Running (mk_world [x41] out 1 [] (0 # 1000) 0 []).
Proof.
  destruct (C6_oversized_is_recoverable (P := Reference.quiet)
              (main_start (P := Reference.quiet) [x01; x00; x10; x00; x41])
              [x01; x00; x10; x00] [x41] 0)
    as [_ [out [Hout [_ Hloop]]]].
  - reflexivity.
  - reflexivity.
  - vm_compute. reflexivity.
  - exists out. split; [exact Hout|]. rewrite Hloop. reflexivity.
Defined.

(** C2 (the code departs from the claim): the frame [01 00 00 00 7B] is read
    in full; its payload, one opening brace, is refused by [json.loads] with a
    [JSONDecodeError], which is a [ValueError]: the handler of the first [try]
    takes it, an error response is sent and the turn ends before line 162, so
    [last_activity[0]] is not assigned. *)
Theorem C2_undecodable_frame_skips_last_activity :
  arrives (P := Reference.quiet)
    (main_start (P := Reference.quiet) (Reference.frame "{"))
    (Reference.ascii_bytes "{") [] /\
  (exists text,
     Reference.loads (Reference.ascii_bytes "{") =
     LoadsRaise (mk_exn JSONDecodeError text)) /\
  exists w',
    main_iteration (P := Reference.quiet)
      (main_start (P := Reference.quiet) (Reference.frame "{")) = (Ret tt, w') /\
    stdin w' = [] /\
    activity_writes w' = 0%nat /\
    last_activity w' =
      last_activity (main_start (P := Reference.quiet) (Reference.frame "{")) /\
    exists message,
      wire (P := Reference.quiet) (RespError message) = Some (stdout w').
Proof.
  split; [|split].
  - exists (Reference.frame "{"). split; vm_compute; reflexivity.
  - eexists. vm_compute. reflexivity.
  - eexists. split; [vm_compute; reflexivity|].
    repeat split. exists (lit "Expecting value"). vm_compute. reflexivity.
Qed.

Lemma escape_char_nonempty (c : codepoint) : (1 <= length (escape_char c))%nat.
Proof.
  unfold escape_char.
  repeat match goal with
         | |- context [if ?b then _ else _] => destruct b
         end; cbv zeta; rewrite ?length_app; cbn [length u_escape]; lia.
Qed.

Lemma json_dumps_error_longer (message : pystr) :
  (31 + length message <= length (json_dumps (RespError message)))%nat.
Proof.
  assert (length message <= length (flat_map escape_char message))%nat as H.
  { induction message as [|c message IH]; [cbn; lia|].
    cbn [flat_map]. rewrite length_app. cbn [length].
    pose proof (escape_char_nonempty c). lia. }
  unfold json_dumps, dumps_str.
  revert H. generalize (flat_map escape_char message) as e. intros e H.
  rewrite !length_app. cbn. lia.
Qed.

(** C9 (as stated, refuted): the error response whose message is 1,048,576
    letters is written as one frame, and [read_message] refuses that frame:
    its payload is longer than 1,048,576 bytes.  And the value does not always
    come back either: a message of the two lone surrogates U+D83D and U+DE00
    is serialized as two [\u] escapes, which [json.loads] reads as the one
    character U+1F600. *)
Lemma C9_large_response_is_refused :
  (exists out,
     wire (P := Reference.quiet)
       (RespError (repeat 97%N (N.to_nat 1048576))) = Some out /\
     read_message (P := Reference.quiet)
       (main_start (P := Reference.quiet) out) =
     (Raise (mk_exn ValueError (lit "Message exceeds 1048576 byte limit")),
      set_stdin (main_start (P := Reference.quiet) out) (skipn 4 out))) /\
  Reference.loads (map byte_of_N (json_dumps (RespError [55357; 56832]%N))) =
    Loaded (JDict [(lit "status", JStr (lit "error"));
                   (lit "message", JStr [128512%N])]).
Proof.
  split; [|vm_compute; reflexivity].
  pose proof (json_dumps_error_length (repeat 97%N (N.to_nat 1048576))) as Hup.
  pose proof (json_dumps_error_longer (repeat 97%N (N.to_nat 1048576))) as Hlow.
  rewrite repeat_length in Hup, Hlow.
  assert (Z.of_nat (N.to_nat 1048576) = 1048576) as Hn by (apply N_nat_Z).
  destruct (wire_fits (P := Reference.quiet)
              (RespError (repeat 97%N (N.to_nat 1048576)))) as [out Hout];
    [lia|].
  exists out. split; [exact Hout|].
  destruct (wire_inv (P := Reference.quiet) _ _ Hout)
    as [prefix [Hp [Hlen ->]]].
  rewrite (skipn_exact _ _ 4 Hlen).
  apply (read_message_oversized (P := Reference.quiet) _ prefix).
  - reflexivity.
  - exact Hlen.
  - rewrite (struct_unpack_pack _ _ _ Hp). unfold MAX_MESSAGE_BYTES. lia.
Qed.

(** ** What [json.loads] makes of a serialized response

    The loader of the reference reads back the serialization of a response:
    UTF-8, the escapes of a string, the numerals, the members of the dict. *)

Lemma utf8_decode_ascii (s : pystr) :
  is_ascii s = true -> Reference.utf8_decode (map byte_of_N s) = Some s.
Proof.
  induction s as [|c s IH]; [reflexivity|].
  cbn [is_ascii forallb map]. fold (is_ascii s). intros H.
  apply andb_true_iff in H. destruct H as [Hc Hs].
  cbn [Reference.utf8_decode]. rewrite to_N_byte_of_N.
  assert (c mod 256 = c)%N as -> by (apply N.mod_small; apply N.ltb_lt in Hc; lia).
  rewrite Hc, (IH Hs). reflexivity.
Qed.

Lemma hex_value_digit (k : N) :
  (k < 16)%N -> Reference.hex_value (hex_digit k) = Some k.
Proof.
  intros H.
  assert (k = 0 \/ k = 1 \/ k = 2 \/ k = 3 \/ k = 4 \/ k = 5 \/ k = 6 \/ k = 7 \/
          k = 8 \/ k = 9 \/ k = 10 \/ k = 11 \/ k = 12 \/ k = 13 \/ k = 14 \/
          k = 15)%N as Hk by lia.
  repeat (destruct Hk as [->|Hk]; [reflexivity|]). subst k. reflexivity.
Qed.

Lemma hex_digits_value (n : N) :
  (n < 65536)%N ->
  ((n / 4096 mod 16) * 4096 + (n / 256 mod 16) * 256 + (n / 16 mod 16) * 16 +
   n mod 16 = n)%N.
Proof.
  intros H.
  pose proof (N.div_mod n 16) as H0.
  pose proof (N.div_mod (n / 16) 16) as H1.
  pose proof (N.div_mod (n / 256) 16) as H2.
  assert (n / 16 / 16 = n / 256)%N as E1 by (rewrite N.Div0.div_div; reflexivity).
  assert (n / 256 / 16 = n / 4096)%N as E2 by (rewrite N.Div0.div_div; reflexivity).
  rewrite E1 in H1. rewrite E2 in H2.
  assert (n / 4096 < 16)%N as Hhi by (apply N.Div0.div_lt_upper_bound; lia).
  rewrite (N.mod_small (n / 4096) 16 Hhi).
  specialize (H0 ltac:(lia)). specialize (H1 ltac:(lia)). specialize (H2 ltac:(lia)).
  revert H0 H1 H2.
  generalize (n mod 16)%N (n / 16 mod 16)%N (n / 256 mod 16)%N (n / 16)%N
             (n / 256)%N (n / 4096)%N.
  intros. lia.
Qed.

Lemma hex4_digits (n : N) (rest : pystr) :
  (n < 65536)%N ->
  Reference.hex4 (hex_digit (n / 4096 mod 16) :: hex_digit (n / 256 mod 16) ::
                  hex_digit (n / 16 mod 16) :: hex_digit (n mod 16) :: rest) =
  Some (n, rest).
Proof.
  intros H. unfold Reference.hex4.
  rewrite !hex_value_digit by (apply N.mod_lt; lia).
  rewrite (hex_digits_value n H). reflexivity.
Qed.

Lemma land_high_low (k x : N) : (x < 1024)%N -> N.land (k * 1024) x = 0%N.
Proof.
  intros H. apply N.bits_inj. intros i. rewrite N.land_spec, N.bits_0.
  change 1024%N with (2 ^ 10)%N.
  destruct (N.lt_ge_cases i 10) as [Hi|Hi].
  - rewrite N.mul_pow2_bits_low by exact Hi. reflexivity.
  - rewrite <- (N.mod_small x (2 ^ 10)) by exact H.
    rewrite N.mod_pow2_bits_high by exact Hi. apply andb_false_r.
Qed.

Lemma lor_high (k x : N) :
  (x < 1024)%N -> N.lor (k * 1024) x = (k * 1024 + x)%N.
Proof.
  intros H. rewrite (N.add_nocarry_lxor _ _ (land_high_low k x H)).
  symmetry. apply N.lxor_lor. apply land_high_low. exact H.
Qed.

Lemma high_half (n : N) :
  (n < 1048576)%N ->
  N.lor 55296 (N.land (N.shiftr n 10) 1023) = (55296 + n / 1024)%N.
Proof.
  intros H. change 1023%N with (N.ones 10).
  rewrite N.land_ones, N.shiftr_div_pow2. change (2 ^ 10)%N with 1024%N.
  assert (n / 1024 < 1024)%N as Hq by (apply N.Div0.div_lt_upper_bound; lia).
  rewrite (N.mod_small _ _ Hq).
  change 55296%N with (54 * 1024)%N. apply lor_high. exact Hq.
Qed.

Lemma low_half (n : N) :
  N.lor 56320 (N.land n 1023) = (56320 + n mod 1024)%N.
Proof.
  change 1023%N with (N.ones 10).
  rewrite N.land_ones. change (2 ^ 10)%N with 1024%N.
  change 56320%N with (55 * 1024)%N. apply lor_high.
  apply N.mod_lt. lia.
Qed.

Lemma high_half_any (n : N) :
  exists x, (x < 1024)%N /\
            N.lor 55296 (N.land (N.shiftr n 10) 1023) = (55296 + x)%N.
Proof.
  exists (N.shiftr n 10 mod 1024)%N.
  assert (N.shiftr n 10 mod 1024 < 1024)%N as Hx by (apply N.mod_lt; lia).
  split; [exact Hx|].
  change 1023%N with (N.ones 10). rewrite N.land_ones.
  change (2 ^ 10)%N with 1024%N.
  change 55296%N with (54 * 1024)%N. apply lor_high. exact Hx.
Qed.

Lemma read_string_u_escape (fuel : nat) (n : N) (tail acc : pystr) :
  (n < 65536)%N ->
  Reference.read_string (S fuel) (u_escape n ++ tail) acc =
  match (if is_high_surrogate n then
           match Reference.strip_prefix [92; 117]%N tail with
           | Some rest' =>
               match Reference.hex4 rest' with
               | Some (lo, rest'') =>
                   if is_low_surrogate lo
                   then Some ((65536 + (n - 55296) * 1024 + (lo - 56320))%N,
                              rest'')
                   else None
               | None => None
               end
           | None => None
           end
         else None) with
  | Some (c, rest) => Reference.read_string fuel rest (c :: acc)
  | None => Reference.read_string fuel tail (n :: acc)
  end.
Proof.
  intros H. unfold u_escape.
  cbn [app Reference.read_string N.eqb Pos.eqb].
  rewrite (hex4_digits n tail H). reflexivity.
Qed.

Lemma strip_u_escape (n : N) (tail : pystr) :
  Reference.strip_prefix [92; 117]%N (u_escape n ++ tail) =
  Some (hex_digit (n / 4096 mod 16) :: hex_digit (n / 256 mod 16) ::
        hex_digit (n / 16 mod 16) :: hex_digit (n mod 16) :: tail).
Proof. reflexivity. Qed.

(** What follows a high surrogate is never read as a low one, unless it is
    one. *)
Lemma lookahead_not_low (d : N) (tail rest' rest'' : pystr) (lo : N) :
  is_low_surrogate d = false ->
  Reference.strip_prefix [92; 117]%N (escape_char d ++ tail) = Some rest' ->
  Reference.hex4 rest' = Some (lo, rest'') ->
  is_low_surrogate lo = false.
Proof.
  intros Hd. unfold escape_char.
  destruct (N.eqb_spec d 34) as [->|H34]; [intros H; discriminate H|].
  destruct (N.eqb_spec d 92) as [->|H92]; [intros H; discriminate H|].
  destruct (N.eqb_spec d 8) as [->|H8]; [intros H; discriminate H|].
  destruct (N.eqb_spec d 12) as [->|H12]; [intros H; discriminate H|].
  destruct (N.eqb_spec d 10) as [->|H10]; [intros H; discriminate H|].
  destruct (N.eqb_spec d 13) as [->|H13]; [intros H; discriminate H|].
  destruct (N.eqb_spec d 9) as [->|H9]; [intros H; discriminate H|].
  destruct ((32 <=? d) && (d <=? 126))%N.
  { cbn [app Reference.strip_prefix].
    destruct (N.eqb_spec 92 d) as [E|_]; [congruence|intros H; discriminate H]. }
  destruct (N.ltb_spec d 65536) as [Hlt|Hge].
  - rewrite strip_u_escape. intros H1 H2.
    assert (rest' = hex_digit (d / 4096 mod 16) :: hex_digit (d / 256 mod 16) ::
                    hex_digit (d / 16 mod 16) :: hex_digit (d mod 16) :: tail)
      as -> by congruence.
    rewrite (hex4_digits d tail Hlt) in H2.
    assert (lo = d) as -> by congruence. exact Hd.
  - cbv zeta. rewrite <- app_assoc, strip_u_escape. intros H1 H2.
    destruct (high_half_any (d - 65536)) as [x [Hx Hhi]].
    rewrite Hhi in H1.
    match type of H1 with
    | Some ?l = Some rest' => assert (rest' = l) as -> by congruence
    end.
    rewrite hex4_digits in H2 by lia.
    assert (lo = 55296 + x)%N as -> by congruence.
    unfold is_low_surrogate.
    apply andb_false_iff. left. apply N.leb_gt. lia.
Qed.

Lemma read_string_char (c : N) (s : pystr) (fuel : nat) (acc rest : pystr) :
  (c <? 1114112)%N = true ->
  is_high_surrogate c &&
    match s with d :: _ => is_low_surrogate d | [] => false end = false ->
  Reference.read_string (S fuel)
    (escape_char c ++ flat_map escape_char s ++ 34%N :: rest) acc =
  Reference.read_string fuel (flat_map escape_char s ++ 34%N :: rest) (c :: acc).
Proof.
  intros Hc Hpair. apply N.ltb_lt in Hc. unfold escape_char at 1.
  destruct (N.eqb_spec c 34) as [->|H34]; [reflexivity|].
  destruct (N.eqb_spec c 92) as [->|H92]; [reflexivity|].
  destruct (N.eqb_spec c 8) as [->|H8]; [reflexivity|].
  destruct (N.eqb_spec c 12) as [->|H12]; [reflexivity|].
  destruct (N.eqb_spec c 10) as [->|H10]; [reflexivity|].
  destruct (N.eqb_spec c 13) as [->|H13]; [reflexivity|].
  destruct (N.eqb_spec c 9) as [->|H9]; [reflexivity|].
  destruct ((32 <=? c) && (c <=? 126))%N eqn:Hprint.
  { apply andb_true_iff in Hprint. destruct Hprint as [Hlo _].
    apply N.leb_le in Hlo.
    cbn [app Reference.read_string].
    destruct (N.eqb_spec c 34) as [E|_]; [congruence|].
    destruct (N.eqb_spec c 92) as [E|_]; [congruence|].
    destruct (N.ltb_spec c 32) as [E|_]; [lia|]. reflexivity. }
  destruct (N.ltb_spec c 65536) as [Hlt|Hge].
  - rewrite (read_string_u_escape fuel c _ acc Hlt).
    destruct (is_high_surrogate c); [|reflexivity].
    cbn [andb] in Hpair.
    destruct s as [|d s]; [reflexivity|].
    cbn [flat_map]. rewrite <- app_assoc.
    destruct (Reference.strip_prefix [92; 117]%N
                (escape_char d ++ flat_map escape_char s ++ 34%N :: rest))
      as [rest'|] eqn:E1; [|reflexivity].
    destruct (Reference.hex4 rest') as [[lo rest'']|] eqn:E2; [|reflexivity].
    rewrite (lookahead_not_low d _ _ _ _ Hpair E1 E2). reflexivity.
  - cbv zeta. rewrite <- app_assoc.
    rewrite (high_half (c - 65536)) by lia.
    rewrite (low_half (c - 65536)).
    assert (c - 65536 = 1024 * ((c - 65536) / 1024) + (c - 65536) mod 1024)%N
      as Hdiv by (apply N.div_mod; lia).
    assert ((c - 65536) mod 1024 < 1024)%N as Hr by (apply N.mod_lt; lia).
    assert ((c - 65536) / 1024 < 1024)%N as Hq
      by (apply N.Div0.div_lt_upper_bound; lia).
    revert Hdiv Hr Hq.
    generalize ((c - 65536) / 1024)%N ((c - 65536) mod 1024)%N.
    intros q r Hdiv Hr Hq.
    rewrite read_string_u_escape by lia.
    assert (is_high_surrogate (55296 + q) = true) as ->.
    { unfold is_high_surrogate. apply andb_true_iff.
      split; apply N.leb_le; lia. }
    rewrite strip_u_escape, hex4_digits by lia.
    assert (is_low_surrogate (56320 + r) = true) as ->.
    { unfold is_low_surrogate. apply andb_true_iff.
      split; apply N.leb_le; lia. }
    assert (65536 + (55296 + q - 55296) * 1024 + (56320 + r - 56320) = c)%N
      as -> by lia.
    reflexivity.
Qed.

Lemma read_string_escaped (s : pystr) :
  forall (fuel : nat) (acc rest : pystr),
    is_str s = true -> surrogates_unpaired s = true ->
    (length (flat_map escape_char s) < fuel)%nat ->
    Reference.read_string fuel (flat_map escape_char s ++ 34%N :: rest) acc =
    Some (rev acc ++ s, rest).
Proof.
  induction s as [|c s IH]; intros fuel acc rest Hstr Hun Hfuel.
  - destruct fuel as [|fuel]; [cbn in Hfuel; lia|].
    cbn [flat_map app Reference.read_string N.eqb Pos.eqb].
    rewrite app_nil_r. reflexivity.
  - cbn [is_str forallb] in Hstr. fold (is_str s) in Hstr.
    apply andb_true_iff in Hstr. destruct Hstr as [Hc Hstr].
    cbn [surrogates_unpaired] in Hun.
    apply andb_true_iff in Hun. destruct Hun as [Hpair Hun].
    apply negb_true_iff in Hpair.
    cbn [flat_map] in Hfuel |- *. rewrite length_app in Hfuel.
    pose proof (escape_char_nonempty c) as Hone.
    destruct fuel as [|fuel]; [lia|].
    rewrite <- app_assoc, (read_string_char c s fuel acc rest Hc Hpair).
    rewrite (IH fuel (c :: acc) rest Hstr Hun) by lia.
    cbn [rev]. rewrite <- app_assoc. reflexivity.
Qed.

(** *** Numerals *)

Lemma digits_of_digits (fuel : nat) :
  forall (n : N) (acc : pystr),
    forallb Reference.is_digit acc = true ->
    forallb Reference.is_digit (digits_of fuel n acc) = true.
Proof.
  assert (forall n, Reference.is_digit (48 + n mod 10) = true) as Hd.
  { intros n. unfold Reference.is_digit.
    pose proof (N.mod_lt n 10 ltac:(lia)) as H. revert H.
    generalize (n mod 10)%N. intros r H.
    apply andb_true_iff. split; apply N.leb_le; lia. }
  induction fuel as [|fuel IH]; intros n acc Hacc; cbn [digits_of].
  - cbn [forallb]. rewrite Hd, Hacc. reflexivity.
  - destruct (n / 10 =? 0)%N.
    + cbn [forallb]. rewrite Hd, Hacc. reflexivity.
    + apply IH. cbn [forallb]. rewrite Hd, Hacc. reflexivity.
Qed.

(** A numeral of more than one digit does not begin with a zero. *)
Lemma digits_of_leading (fuel : nat) :
  forall (n : N) (acc rest : pystr),
    (n < 2 ^ N.of_nat (S fuel))%N ->
    (acc <> [] -> n <> 0%N) ->
    digits_of fuel n acc = 48%N :: rest -> rest = [].
Proof.
  induction fuel as [|fuel IH]; intros n acc rest Hn Hacc; cbn [digits_of].
  - change (2 ^ N.of_nat 1)%N with 2%N in Hn. intros H.
    assert (n mod 10 = n)%N as Hmod by (apply N.mod_small; lia).
    rewrite Hmod in H.
    assert (48 + n = 48)%N as Hz by congruence.
    assert (acc = rest) as <- by congruence.
    destruct acc as [|a acc]; [reflexivity|].
    exfalso. apply Hacc; [discriminate|lia].
  - destruct (N.eqb_spec (n / 10) 0) as [Hq|Hq].
    + intros H.
      assert (n < 10)%N as Hlt.
      { pose proof (N.div_mod n 10 ltac:(lia)) as Hdm.
        pose proof (N.mod_lt n 10 ltac:(lia)) as Hr. rewrite Hq in Hdm. lia. }
      assert (n mod 10 = n)%N as Hmod by (apply N.mod_small; lia).
      rewrite Hmod in H.
      assert (48 + n = 48)%N as Hz by congruence.
      assert (acc = rest) as <- by congruence.
      destruct acc as [|a acc]; [reflexivity|].
      exfalso. apply Hacc; [discriminate|lia].
    + apply IH; [|intros _; exact Hq].
      rewrite Nat2N.inj_succ, N.pow_succ_r' in Hn.
      pose proof (N.div_mod n 10 ltac:(lia)) as Hdm.
      revert Hn Hdm. generalize (2 ^ N.of_nat (S fuel))%N (n / 10)%N (n mod 10)%N.
      intros p q r Hn Hdm. lia.
Qed.

Lemma dec_N_digits (n : N) : forallb Reference.is_digit (dec_N n) = true.
Proof. unfold dec_N. apply digits_of_digits. reflexivity. Qed.

Lemma dec_N_leading (n : N) (rest : pystr) :
  dec_N n = 48%N :: rest -> rest = [].
Proof.
  unfold dec_N. apply digits_of_leading; [|intros H; contradiction].
  rewrite Nat2N.inj_succ, N2Nat.id.
  destruct (N.eq_dec n 0) as [->|Hn]; [reflexivity|].
  apply N.log2_spec. lia.
Qed.

Lemma read_digits_app (s : pystr) :
  forall (tail : pystr) (value : N) (count : nat),
    forallb Reference.is_digit s = true ->
    match tail with
    | c :: _ => Reference.is_digit c = false
    | [] => True
    end ->
    Reference.read_digits (s ++ tail) value count =
    (fold_left (fun value c => (10 * value + (c - 48))%N) s value,
     (count + length s)%nat, tail).
Proof.
  induction s as [|c s IH]; intros tail value count Hs Htail.
  - cbn [app fold_left length]. rewrite Nat.add_0_r.
    destruct tail as [|c tail]; [reflexivity|].
    cbn [Reference.read_digits]. rewrite Htail. reflexivity.
  - cbn [forallb] in Hs. apply andb_true_iff in Hs. destruct Hs as [Hc Hs].
    cbn [app Reference.read_digits fold_left length]. rewrite Hc.
    rewrite (IH tail _ _ Hs Htail). f_equal. f_equal. lia.
Qed.

Lemma read_number_dec_N (negative : bool) (n : N) (c : N) (tail : pystr) :
  closes c ->
  Reference.read_number negative (dec_N n ++ c :: tail) =
  Some (JInt ((if negative then -1 else 1) * Z.of_N n), c :: tail).
Proof.
  intros Hc. unfold Reference.read_number.
  assert (Reference.is_digit c = false) as Hnd by (destruct Hc as [->| ->]; reflexivity).
  rewrite (read_digits_app (dec_N n) (c :: tail) 0 0 (dec_N_digits n) Hnd).
  fold (digits_value (dec_N n)). rewrite dec_N_value.
  destruct (digits_of_head (N.to_nat (N.log2 n)) n []) as [d [more [Hd _]]].
  fold (dec_N n) in Hd.
  assert (length (dec_N n) = S (length more)) as Hlen by (rewrite Hd; reflexivity).
  rewrite Hlen. cbn [Nat.add].
  assert (match dec_N n ++ c :: tail with
          | a :: b :: _ => (a =? 48)%N && Reference.is_digit b
          | _ => false
          end = false) as ->.
  { rewrite Hd. cbn [app].
    destruct more as [|e more].
    - cbn [app]. rewrite Hnd. apply andb_false_r.
    - cbn [app]. destruct (N.eqb_spec d 48) as [->|_]; [|reflexivity].
      pose proof (dec_N_leading n _ Hd) as H. discriminate H. }
  assert ((c =? 46)%N = false) as H46 by (destruct Hc as [->| ->]; reflexivity).
  assert (((c =? 101) || (c =? 69))%N = false) as He
    by (destruct Hc as [->| ->]; reflexivity).
  rewrite H46. cbv beta iota zeta. rewrite He. reflexivity.
Qed.

Lemma is_digit_cases (d : N) :
  Reference.is_digit d = true ->
  (d = 48 \/ d = 49 \/ d = 50 \/ d = 51 \/ d = 52 \/ d = 53 \/ d = 54 \/
   d = 55 \/ d = 56 \/ d = 57)%N.
Proof.
  unfold Reference.is_digit. intros H. apply andb_true_iff in H.
  destruct H as [H1 H2]. apply N.leb_le in H1. apply N.leb_le in H2. lia.
Qed.

Lemma read_value_digit (fuel : nat) (d : N) (s : pystr) :
  Reference.is_digit d = true ->
  Reference.read_value (S fuel) (d :: s) = Reference.read_number false (d :: s).
Proof.
  intros H. pose proof (is_digit_cases d H) as Hd.
  repeat (destruct Hd as [->|Hd]; [reflexivity|]). subst d. reflexivity.
Qed.

Lemma read_value_minus (fuel : nat) (d : N) (s : pystr) :
  Reference.is_digit d = true ->
  Reference.read_value (S fuel) (45%N :: d :: s) =
  Reference.read_number true (d :: s).
Proof.
  intros H. pose proof (is_digit_cases d H) as Hd.
  repeat (destruct Hd as [->|Hd]; [reflexivity|]). subst d. reflexivity.
Qed.

Lemma read_value_int (fuel : nat) (z : Z) (c : N) (tail : pystr) :
  closes c ->
  Reference.read_value (S fuel) (dec z ++ c :: tail) = Some (JInt z, c :: tail).
Proof.
  intros Hc. unfold dec.
  destruct (Z.ltb_spec z 0) as [Hneg|Hpos].
  - pose proof (dec_N_digits (Z.to_N (- z))) as Hdigits.
    pose proof (read_number_dec_N true (Z.to_N (- z)) c tail Hc) as Hnum.
    destruct (dec_N (Z.to_N (- z))) as [|d more] eqn:Hd.
    { destruct (digits_of_head (N.to_nat (N.log2 (Z.to_N (- z)))) (Z.to_N (- z)) [])
        as [d [more [H _]]]. fold (dec_N (Z.to_N (- z))) in H. congruence. }
    cbn [forallb] in Hdigits. apply andb_true_iff in Hdigits.
    cbn [app]. rewrite (read_value_minus fuel d _ (proj1 Hdigits)).
    cbn [app] in Hnum. rewrite Hnum. f_equal. f_equal. f_equal. lia.
  - pose proof (dec_N_digits (Z.to_N z)) as Hdigits.
    pose proof (read_number_dec_N false (Z.to_N z) c tail Hc) as Hnum.
    destruct (dec_N (Z.to_N z)) as [|d more] eqn:Hd.
    { destruct (digits_of_head (N.to_nat (N.log2 (Z.to_N z))) (Z.to_N z) [])
        as [d [more [H _]]]. fold (dec_N (Z.to_N z)) in H. congruence. }
    cbn [forallb] in Hdigits. apply andb_true_iff in Hdigits.
    cbn [app]. rewrite (read_value_digit fuel d _ (proj1 Hdigits)).
    cbn [app] in Hnum. rewrite Hnum. f_equal. f_equal. f_equal. lia.
Qed.

(** *** Objects *)

Lemma dumps_str_app (s tail : pystr) :
  dumps_str s ++ tail = 34%N :: flat_map escape_char s ++ 34%N :: tail.
Proof.
  unfold dumps_str. cbn [app]. rewrite <- app_assoc. reflexivity.
Qed.

Lemma read_string_dumps (s tail : pystr) :
  is_str s = true -> surrogates_unpaired s = true ->
  Reference.read_string
    (S (length (flat_map escape_char s ++ 34%N :: tail)))
    (flat_map escape_char s ++ 34%N :: tail) [] = Some (s, tail).
Proof.
  intros Hstr Hun.
  rewrite (read_string_escaped s _ [] tail Hstr Hun); [reflexivity|].
  rewrite length_app. cbn [length]. lia.
Qed.

Lemma read_value_string (fuel : nat) (s tail : pystr) :
  is_str s = true -> surrogates_unpaired s = true ->
  Reference.read_value (S fuel) (dumps_str s ++ tail) = Some (JStr s, tail).
Proof.
  intros Hstr Hun. rewrite dumps_str_app.
  cbn [Reference.read_value Reference.skip_ws Reference.is_ws N.eqb Pos.eqb orb].
  rewrite (read_string_dumps s tail Hstr Hun). reflexivity.
Qed.

Lemma read_value_object (fuel : nat) (key tail : pystr) :
  Reference.read_value (S fuel) (123%N :: dumps_str key ++ tail) =
  Reference.read_members fuel (dumps_str key ++ tail) [].
Proof. rewrite dumps_str_app. reflexivity. Qed.

(** One member of an object, and the comma or the brace after it. *)
Lemma read_members_step (fuel : nat) (key text : pystr) (v : json) (c : N)
    (tail : pystr) (acc : list (pystr * json)) :
  is_str key = true -> surrogates_unpaired key = true ->
  closes c ->
  Reference.read_value (S fuel) (text ++ c :: tail) = Some (v, c :: tail) ->
  Reference.read_members (S (S fuel))
    (dumps_str key ++ 58%N :: text ++ c :: tail) acc =
  if (c =? 44)%N
  then Reference.read_members (S fuel) tail (Reference.dict_set acc key v)
  else Some (JDict (Reference.dict_set acc key v), tail).
Proof.
  intros Hstr Hun Hc Hv. rewrite dumps_str_app.
  cbn [Reference.read_members Reference.skip_ws Reference.is_ws N.eqb Pos.eqb orb].
  rewrite (read_string_dumps key _ Hstr Hun).
  cbn [Reference.skip_ws Reference.is_ws N.eqb Pos.eqb orb].
  rewrite Hv.
  destruct Hc as [->| ->]; reflexivity.
Qed.

Lemma json_loads_dumps (r : response) :
  unpaired r = true -> Reference.json_loads (json_dumps r) = Some (response_obj r).
Proof.
  intros Hr. unfold Reference.json_loads.
  assert (exists fuel, (2 * length (json_dumps r) + 2 = 6 + fuel)%nat)
    as [fuel ->].
  { exists (2 * length (json_dumps r) - 4)%nat.
    assert (2 <= length (json_dumps r))%nat; [|lia].
    destruct r; unfold json_dumps, dumps_str; rewrite !length_app;
      change (length (lit "{")) with 1%nat; cbn [length]; lia. }
  destruct r as [typed|x y|message].
  - change (json_dumps (RespTyped typed))
      with (123%N :: dumps_str (lit "status") ++ 58%N :: dumps_str (lit "ok") ++
            44%N :: dumps_str (lit "typed") ++ 58%N :: dec typed ++ 125%N :: []).
    change (6 + fuel)%nat with (S (S (S (S (S (S fuel)))))).
    rewrite read_value_object.
    rewrite (read_members_step _ (lit "status") (dumps_str (lit "ok"))
               (JStr (lit "ok")) 44);
      [|reflexivity|reflexivity|left; reflexivity|
       apply read_value_string; reflexivity].
    cbn [N.eqb Pos.eqb].
    rewrite (read_members_step _ (lit "typed") (dec typed) (JInt typed) 125);
      [|reflexivity|reflexivity|right; reflexivity|
       apply read_value_int; right; reflexivity].
    reflexivity.
  - change (json_dumps (RespClick x y))
      with (123%N :: dumps_str (lit "status") ++ 58%N :: dumps_str (lit "ok") ++
            44%N :: dumps_str (lit "action") ++ 58%N ::
            dumps_str (lit "click") ++
            44%N :: dumps_str (lit "x") ++ 58%N :: dec x ++
            44%N :: dumps_str (lit "y") ++ 58%N :: dec y ++ 125%N :: []).
    change (6 + fuel)%nat with (S (S (S (S (S (S fuel)))))).
    rewrite read_value_object.
    rewrite (read_members_step _ (lit "status") (dumps_str (lit "ok"))
               (JStr (lit "ok")) 44);
      [|reflexivity|reflexivity|left; reflexivity|
       apply read_value_string; reflexivity].
    cbn [N.eqb Pos.eqb].
    rewrite (read_members_step _ (lit "action") (dumps_str (lit "click"))
               (JStr (lit "click")) 44);
      [|reflexivity|reflexivity|left; reflexivity|
       apply read_value_string; reflexivity].
    cbn [N.eqb Pos.eqb].
    rewrite (read_members_step _ (lit "x") (dec x) (JInt x) 44);
      [|reflexivity|reflexivity|left; reflexivity|
       apply read_value_int; left; reflexivity].
    cbn [N.eqb Pos.eqb].
    rewrite (read_members_step _ (lit "y") (dec y) (JInt y) 125);
      [|reflexivity|reflexivity|right; reflexivity|
       apply read_value_int; right; reflexivity].
    reflexivity.
  - cbn [unpaired] in Hr. apply andb_true_iff in Hr. destruct Hr as [Hstr Hun].
    change (json_dumps (RespError message))
      with (123%N :: dumps_str (lit "status") ++ 58%N ::
            dumps_str (lit "error") ++
            44%N :: dumps_str (lit "message") ++ 58%N ::
            dumps_str message ++ 125%N :: []).
    change (6 + fuel)%nat with (S (S (S (S (S (S fuel)))))).
    rewrite read_value_object.
    rewrite (read_members_step _ (lit "status") (dumps_str (lit "error"))
               (JStr (lit "error")) 44);
      [|reflexivity|reflexivity|left; reflexivity|
       apply read_value_string; reflexivity].
    cbn [N.eqb Pos.eqb].
    rewrite (read_members_step _ (lit "message") (dumps_str message)
               (JStr message) 125);
      [|reflexivity|reflexivity|right; reflexivity|
       apply read_value_string; assumption].
    reflexivity.
Qed.

Lemma loads_dumps (r : response) :
  unpaired r = true ->
  Reference.loads (map byte_of_N (json_dumps r)) = Loaded (response_obj r).
Proof.
  intros Hr. unfold Reference.loads.
  rewrite (utf8_decode_ascii _ (json_dumps_ascii r)).
  rewrite (json_loads_dumps r Hr). reflexivity.
Qed.

(** C9 (amended): for every response whose compact serialization is at most
    1,048,576 bytes long, [send_message] writes the 4-byte native-order length
    prefix and the serialization, and [read_message] on these bytes reads a
    payload that is byte for byte the serialization and returns what
    [json.loads] makes of it.  With the loader of the reference, that is the
    dict of the response itself, for every response in whose message, a [str]
    of code points below U+110000, no high surrogate stands immediately before
    a low surrogate. *)
Theorem C9_response_round_trip {P : Platform} (r : response) (out rest : bytes)
    (sender reader : world) :
  wire r = Some out ->
  Z.of_nat (length (json_dumps r)) <= MAX_MESSAGE_BYTES ->
  stdin reader = out ++ rest ->
  send_message r sender = (Ret tt, set_stdout sender (stdout sender ++ out)) /\
  exists encoded,
    json_dumps r = map (fun b => Byte.to_N b) encoded /\
    utf8_encode (json_dumps r) = Some encoded /\
    read_frame reader = (Ret encoded, set_stdin reader rest) /\
    read_message reader = decode_message encoded (set_stdin reader rest) /\
    ((forall raw, py_loads raw = Reference.loads raw) ->
     unpaired r = true ->
     read_message reader = (Ret (response_obj r), set_stdin reader rest)).
Proof.
  intros Hout Hmax Hin.
  split; [apply send_message_wire; exact Hout|].
  exists (map byte_of_N (json_dumps r)).
  assert (arrives reader (map byte_of_N (json_dumps r)) rest) as Harr.
  { exists out. split; [|exact Hin].
    unfold wire in Hout. rewrite encoded_response in Hout. exact Hout. }
  assert (Z.of_nat (length (map byte_of_N (json_dumps r))) <= MAX_MESSAGE_BYTES)
    as Hmax' by (rewrite length_map; exact Hmax).
  pose proof (read_frame_arrives reader _ rest Harr Hmax') as Hframe.
  assert (read_message reader =
          decode_message (map byte_of_N (json_dumps r)) (set_stdin reader rest))
    as Hread by (unfold read_message, bind; rewrite Hframe; reflexivity).
  repeat split.
  - pose proof (json_dumps_ascii r) as Hascii.
    revert Hascii. generalize (json_dumps r) as s.
    induction s as [|c s IH]; [reflexivity|].
    cbn [is_ascii forallb map]. fold (is_ascii s). intros H.
    apply andb_true_iff in H. destruct H as [Hc Hs].
    rewrite to_N_byte_of_N, <- (IH Hs). f_equal.
    apply N.ltb_lt in Hc. symmetry. apply N.mod_small. lia.
  - apply encoded_response.
  - exact Hframe.
  - exact Hread.
  - intros Hloads Hr. rewrite Hread. unfold decode_message.
    rewrite Hloads, (loads_dumps r Hr). reflexivity.
Qed.

Lemma C9_response_round_trip_witness :
  exists out,
    wire (P := Reference.quiet) (RespError [233; 128512; 55357; 34; 97]%N) =
      Some out /\
    read_message (P := Reference.quiet)
      (main_start (P := Reference.quiet) out) =
    (Ret (response_obj (RespError [233; 128512; 55357; 34; 97]%N)),
     set_stdin (main_start (P := Reference.quiet) out) []).
Proof.
  destruct (wire (P := Reference.quiet)
              (RespError [233; 128512; 55357; 34; 97]%N)) as [out|] eqn:Hout;
    [|vm_compute in Hout; discriminate Hout].
  exists out. split; [reflexivity|].
  destruct (C9_response_round_trip (P := Reference.quiet)
              (RespError [233; 128512; 55357; 34; 97]%N) out []
              (main_start (P := Reference.quiet) [])
              (main_start (P := Reference.quiet) out) Hout)
    as [_ [encoded [_ [_ [_ [_ Hvalue]]]]]].
  - vm_compute. discriminate.
  - cbn [main_start stdin]. rewrite app_nil_r. reflexivity.
  - apply Hvalue; [intros raw; reflexivity|reflexivity].
Defined.

(** ** The dispatcher *)

Lemma wire_ok_typed_zero {P : Platform} :
  wire (RespTyped 0) = frame_of (Reference.ascii_bytes (Reference.ok_typed "0")).
Proof.
  unfold wire.
  assert (utf8_encode (json_dumps (RespTyped 0)) =
          Some (Reference.ascii_bytes (Reference.ok_typed "0"))) as ->
    by (vm_compute; reflexivity).
  reflexivity.
Qed.

(** C8 (as stated, refuted): twenty-one requests with the empty text arrive
    within 42 milliseconds; the first twenty are answered
    [{"status":"ok","typed":0}], the twenty-first is answered with the error of
    the rate limiter. *)
Lemma C8_empty_text_beyond_the_rate_limit :
  Reference.loads (Reference.ascii_bytes Reference.empty_text_request) =
    Loaded (JDict [(lit "text", JStr [])]) /\
  stdout (quiet_run (Reference.burst 21 Reference.empty_text_request) 21) =
    Reference.burst 20 (Reference.ok_typed "0") ++
    Reference.frame
      (Reference.error "Rate limit exceeded (20 actions per 1.0s)") /\
  injected (quiet_run (Reference.burst 21 Reference.empty_text_request) 21) = [].
Proof. vm_compute. repeat split; reflexivity. Qed.

(** C8 (amended): for every type request whose [text] is the empty string and
    that the rate limiter admits, the response is exactly
    [{"status":"ok","typed":0}] and no injector call occurs. *)
Theorem C8_empty_text_typed_zero {P : Platform} (w : world)
    (timestamps : list Q) (message : list (pystr * json)) :
  admitted w timestamps ->
  request_of "type" message ->
  dict_get message (lit "text") = JStr [] ->
  exists out,
    frame_of (Reference.ascii_bytes (Reference.ok_typed "0")) = Some out /\
    process (JDict message) w = (Ret tt, dispatched w timestamps [] out).
Proof.
  intros Ha Hreq Htext.
  destruct (type_empty message w timestamps Ha Hreq Htext) as [out [Hout Hrun]].
  exists out. split; [|exact Hrun].
  rewrite <- wire_ok_typed_zero. exact Hout.
Qed.

Lemma C8_empty_text_typed_zero_witness :
  exists out,
    frame_of (P := Reference.quiet)
      (Reference.ascii_bytes (Reference.ok_typed "0")) = Some out /\
    process (P := Reference.quiet) (JDict [(lit "text", JStr [])])
      (main_start (P := Reference.quiet) []) =
    (Ret tt,
     dispatched (main_start (P := Reference.quiet) []) [(1 # 1000)%Q] [] out).
Proof.
  apply (C8_empty_text_typed_zero (P := Reference.quiet)).
  - reflexivity.
  - exists (JStr (lit "type")). split; reflexivity.
  - reflexivity.
Defined.

(** C7 (as stated, refuted): after twenty admitted requests within 42
    milliseconds, a type request with a text of 10,001 letters is answered
    with the error of the rate limiter, which cites neither the length nor the
    limit of the text. *)
Lemma C7_long_text_beyond_the_rate_limit :
  stdout (quiet_run (Reference.burst 20 Reference.empty_text_request) 20) =
    Reference.burst 20 (Reference.ok_typed "0") /\
  exists out,
    wire (P := Reference.quiet)
      (RespError (lit "Rate limit exceeded (20 actions per 1.0s)")) = Some out /\
    process (P := Reference.quiet)
      (JDict [(lit "text", JStr (repeat 97%N (N.to_nat 10001)))])
      (quiet_run (Reference.burst 20 Reference.empty_text_request) 20) =
    (Ret tt,
     dispatched (quiet_run (Reference.burst 20 Reference.empty_text_request) 20)
       (action_timestamps
          (quiet_run (Reference.burst 20 Reference.empty_text_request) 20))
       [] out).
Proof.
  split; [vm_compute; reflexivity|].
  apply (process_denied (P := Reference.quiet)).
  vm_compute. reflexivity.
Qed.

(** C7 (amended): for every type request whose [text] is a string longer than
    10,000 characters and that the rate limiter admits, the response is an
    error whose message cites the length of the text and the limit of 10,000,
    and no injector call occurs.  (A [str] of CPython has fewer than [2^63]
    characters.) *)
Theorem C7_text_too_long {P : Platform} (w : world) (timestamps : list Q)
    (message : list (pystr * json)) (text : pystr) :
  admitted w timestamps ->
  request_of "type" message ->
  dict_get message (lit "text") = JStr text ->
  10000 < Z.of_nat (length text) < 2 ^ 63 ->
  exists out,
    wire (RespError (lit "Text too long (" ++ dec (Z.of_nat (length text)) ++
                     lit " chars, limit 10000)")) = Some out /\
    process (JDict message) w = (Ret tt, dispatched w timestamps [] out).
Proof.
  intros Ha Hreq Htext Hlen.
  rewrite <- too_long_text_cites.
  apply (type_too_long message text w timestamps Ha Hreq Htext Hlen).
Qed.

Lemma C7_text_too_long_witness :
  exists out,
    wire (P := Reference.quiet)
      (RespError
         (lit "Text too long (" ++
          dec (Z.of_nat (length (repeat 97%N (N.to_nat 10001)))) ++
          lit " chars, limit 10000)")) = Some out /\
    process (P := Reference.quiet)
      (JDict [(lit "action", JStr (lit "type"));
              (lit "text", JStr (repeat 97%N (N.to_nat 10001)))])
      (main_start (P := Reference.quiet) []) =
    (Ret tt,
     dispatched (main_start (P := Reference.quiet) []) [(1 # 1000)%Q] [] out).
Proof.
  apply (C7_text_too_long (P := Reference.quiet)).
  - reflexivity.
  - exists (JStr (lit "type")). split; reflexivity.
  - reflexivity.
  - rewrite repeat_length. split; reflexivity.
Defined.

(** C3 (as stated, refuted): the type request
    [{"action":"type","text":"a","delay":-1}] is no validation failure: its
    character goes to the injector and the response is
    [{"status":"ok","typed":1}].  And after twenty admitted requests within 42
    milliseconds, the type request [{"action":"type"}], which has no [text],
    is answered with the error of the rate limiter: its [text] is not
    looked at. *)
Lemma C3_negative_delay_is_typed :
  Reference.loads (Reference.ascii_bytes (Reference.type_request "a" "-1")) =
    Loaded (JDict [(lit "action", JStr (lit "type")); (lit "text", JStr (lit "a"));
                   (lit "delay", JInt (-1))]) /\
  stdout (quiet_run (Reference.frame (Reference.type_request "a" "-1")) 1) =
    Reference.frame (Reference.ok_typed "1") /\
  injected (quiet_run (Reference.frame (Reference.type_request "a" "-1")) 1) =
    [KeyboardController; KeyType 97] /\
  Reference.loads (Reference.ascii_bytes Reference.bare_type_request) =
    Loaded (JDict [(lit "action", JStr (lit "type"))]) /\
  stdout (quiet_run
            (Reference.burst 20 Reference.empty_text_request ++
             Reference.frame Reference.bare_type_request) 21) =
    Reference.burst 20 (Reference.ok_typed "0") ++
    Reference.frame
      (Reference.error "Rate limit exceeded (20 actions per 1.0s)").
Proof. vm_compute. repeat split; reflexivity. Qed.

(** C3 (amended): for every type request that the rate limiter admits, the
    dispatcher validates that [text] is present, is a string and has at most
    10,000 characters, and answers a failure of one of these with an error
    response without invoking the injector.  The [delay] is not validated: a
    type request with a text of 1 to 10,000 characters and a negative [delay]
    is passed to the injector, which types every character without a pause,
    and is answered with the success response when no injector call
    raises. *)
Theorem C3_type_request_validation {P : Platform} (w : world)
    (timestamps : list Q) (message : list (pystr * json)) :
  admitted w timestamps ->
  request_of "type" message ->
  (dict_get message (lit "text") = JNull ->
   exists out,
     wire (RespError (lit "Missing 'text' field")) = Some out /\
     process (JDict message) w = (Ret tt, dispatched w timestamps [] out)) /\
  (dict_get message (lit "text") <> JNull ->
   (forall text, dict_get message (lit "text") <> JStr text) ->
   exists out,
     wire (RespError (lit "'text' must be a string")) = Some out /\
     process (JDict message) w = (Ret tt, dispatched w timestamps [] out)) /\
  (forall text,
     dict_get message (lit "text") = JStr text ->
     10000 < Z.of_nat (length text) < 2 ^ 63 ->
     exists out,
       wire (RespError (too_long_text text)) = Some out /\
       process (JDict message) w = (Ret tt, dispatched w timestamps [] out)) /\
  (forall text,
     dict_get message (lit "text") = JStr text ->
     0 < Z.of_nat (length text) <= 10000 ->
     negative (dict_get message (lit "delay")) = true ->
     calls_succeed (injected w) (KeyboardController :: map KeyType text) ->
     exists out,
       wire (RespTyped (Z.of_nat (length text))) = Some out /\
       process (JDict message) w =
       (Ret tt,
        dispatched w timestamps (KeyboardController :: map KeyType text) out)).
Proof.
  intros Ha Hreq. repeat split.
  - intros Htext. apply (type_missing_text message w timestamps Ha Hreq Htext).
  - intros Hnone Hstr.
    apply (type_text_not_str message w timestamps Ha Hreq Hnone Hstr).
  - intros text Htext Hlen.
    apply (type_too_long message text w timestamps Ha Hreq Htext Hlen).
  - intros text Htext Hlen Hneg Hok.
    pose proof (negative_gt_zero _ Hneg) as Hgt.
    rewrite <- (typing_calls_no_pause text _ Hgt) in Hok |- *.
    apply (type_typed message text (dict_get message (lit "delay")) false
             w timestamps Ha Hreq Htext Hlen); [|exact Hgt|exact Hok].
    apply dict_get_default_present.
    intros Hnull. rewrite Hnull in Hneg. discriminate.
Qed.

Lemma C3_type_request_validation_witness :
  (exists out,
     wire (P := Reference.quiet) (RespError (lit "'text' must be a string"))
       = Some out /\
     process (P := Reference.quiet)
       (JDict [(lit "action", JStr (lit "type")); (lit "text", JInt 7)])
       (main_start (P := Reference.quiet) []) =
     (Ret tt,
      dispatched (main_start (P := Reference.quiet) []) [(1 # 1000)%Q] [] out))
  /\
  (exists out,
     wire (P := Reference.quiet) (RespTyped (Z.of_nat (length (lit "a"))))
       = Some out /\
     process (P := Reference.quiet)
       (JDict [(lit "action", JStr (lit "type")); (lit "text", JStr (lit "a"));
               (lit "delay", JInt (-1))])
       (main_start (P := Reference.quiet) []) =
     (Ret tt,
      dispatched (main_start (P := Reference.quiet) []) [(1 # 1000)%Q]
        (KeyboardController :: map KeyType (lit "a")) out)).
Proof.
  split.
  - apply (proj1 (proj2 (C3_type_request_validation (P := Reference.quiet)
                           (main_start (P := Reference.quiet) []) [(1 # 1000)%Q]
                           [(lit "action", JStr (lit "type")); (lit "text", JInt 7)]
                           eq_refl
                           (ex_intro _ (JStr (lit "type")) (conj eq_refl eq_refl))))).
    + discriminate.
    + intros text. discriminate.
  - apply (proj2 (proj2 (proj2
             (C3_type_request_validation (P := Reference.quiet)
                (main_start (P := Reference.quiet) []) [(1 # 1000)%Q]
                [(lit "action", JStr (lit "type")); (lit "text", JStr (lit "a"));
                 (lit "delay", JInt (-1))]
                eq_refl
                (ex_intro _ (JStr (lit "type")) (conj eq_refl eq_refl)))))
             (lit "a")).
    + reflexivity.
    + cbn. lia.
    + reflexivity.
    + cbn. repeat split.
Defined.

(** [int] of a float rounds toward zero. *)
Lemma truncate_nonneg (q : Q) : (0 <= q)%Q -> truncate q = Qfloor q.
Proof.
  destruct q as [n d]. unfold Qle, truncate, Qfloor. cbn [Qnum Qden].
  intros H. apply Z.quot_div_nonneg; lia.
Qed.

Lemma truncate_opp (q : Q) : truncate (- q) = - truncate q.
Proof.
  destruct q as [n d]. unfold truncate, Qopp. cbn [Qnum Qden].
  apply Z.quot_opp_l. discriminate.
Qed.

(** C10 (as stated, refuted): the click request
    [{"action":"click","x":1e999,"y":2.5}] has two floats for coordinates;
    [x] is an infinity, [int(x)] raises, no injector call is made and the
    response is an error.  And after twenty admitted requests within 42
    milliseconds, the click request [{"action":"click","x":2.5,"y":-7.75}] is
    answered with the error of the rate limiter, without an injector call. *)
Lemma C10_click_without_injector_call :
  Reference.loads (Reference.ascii_bytes (Reference.click_request "1e999" "2.5")) =
    Loaded (JDict [(lit "action", JStr (lit "click"));
                   (lit "x", JFloat (Inf false));
                   (lit "y", JFloat (Finite (5 # 2)))]) /\
  stdout (quiet_run (Reference.frame (Reference.click_request "1e999" "2.5")) 1) =
    Reference.frame (Reference.error "cannot convert float infinity to integer") /\
  injected
    (quiet_run (Reference.frame (Reference.click_request "1e999" "2.5")) 1) = [] /\
  stdout (quiet_run
            (Reference.burst 20 Reference.empty_text_request ++
             Reference.frame (Reference.click_request "2.5" "-7.75")) 21) =
    Reference.burst 20 (Reference.ok_typed "0") ++
    Reference.frame
      (Reference.error "Rate limit exceeded (20 actions per 1.0s)") /\
  injected (quiet_run
              (Reference.burst 20 Reference.empty_text_request ++
               Reference.frame (Reference.click_request "2.5" "-7.75")) 21) = [].
Proof. vm_compute. repeat split; reflexivity. Qed.

(** C10 (amended): for every click request that the rate limiter admits and
    whose [x] and [y] are finite floats, the dispatcher truncates each
    coordinate toward zero and invokes the injector with the truncated values;
    when no injector call raises, the success response echoes the truncated
    integers rather than the values the client sent.  (The integer part of a
    double is below [2^1024] in absolute value.) *)
Theorem C10_click_truncates_floats {P : Platform} (w : world)
    (timestamps : list Q) (message : list (pystr * json)) (x y : Q) :
  admitted w timestamps ->
  request_of "click" message ->
  dict_get message (lit "x") = JFloat (Finite x) ->
  dict_get message (lit "y") = JFloat (Finite y) ->
  try_body (JDict message) w =
    (click_at (truncate x) (truncate y) ;;
     send_message (RespClick (truncate x) (truncate y)))
      (set_timestamps (tick w) timestamps) /\
  (calls_succeed (injected w) (clicking_calls (truncate x) (truncate y)) ->
   Z.abs (truncate x) < 2 ^ 1024 -> Z.abs (truncate y) < 2 ^ 1024 ->
   exists out,
     wire (RespClick (truncate x) (truncate y)) = Some out /\
     process (JDict message) w =
     (Ret tt,
      dispatched w timestamps (clicking_calls (truncate x) (truncate y)) out)).
Proof.
  intros Ha Hreq Hx Hy.
  assert (try_body (JDict message) w =
          (click_at (truncate x) (truncate y) ;;
           send_message (RespClick (truncate x) (truncate y)))
            (set_timestamps (tick w) timestamps)) as Hbody.
  { apply (click_clicked message (JFloat (Finite x)) (JFloat (Finite y)));
      try assumption; try discriminate; reflexivity. }
  split; [exact Hbody|].
  intros Hok Hbx Hby.
  destruct (wire_click (truncate x) (truncate y) Hbx Hby) as [out Hout].
  exists out. split; [exact Hout|].
  apply process_returns. rewrite Hbody. unfold bind.
  rewrite (click_at_ok _ _ (set_timestamps (tick w) timestamps)) by exact Hok.
  rewrite (send_message_wire _ out _ Hout). world_eq.
Qed.

Lemma C10_click_truncates_floats_witness :
  exists out,
    wire (P := Reference.quiet) (RespClick 2 (-7)) = Some out /\
    process (P := Reference.quiet)
      (JDict [(lit "action", JStr (lit "click"));
              (lit "x", JFloat (Finite (5 # 2)));
              (lit "y", JFloat (Finite (-31 # 4)))])
      (main_start (P := Reference.quiet) []) =
    (Ret tt,
     dispatched (main_start (P := Reference.quiet) []) [(1 # 1000)%Q]
       (clicking_calls 2 (-7)) out).
Proof.
  apply (proj2 (C10_click_truncates_floats (P := Reference.quiet)
                  (main_start (P := Reference.quiet) []) [(1 # 1000)%Q]
                  [(lit "action", JStr (lit "click"));
                   (lit "x", JFloat (Finite (5 # 2)));
                   (lit "y", JFloat (Finite (-31 # 4)))]
                  (5 # 2) (-31 # 4) eq_refl
                  (ex_intro _ (JStr (lit "click")) (conj eq_refl eq_refl))
                  eq_refl eq_refl)).
  - cbn. repeat split.
  - reflexivity.
  - reflexivity.
Defined.

(** ** The rate limiter *)

Section RateLimiterFacts.

Variable now : Q.

Lemma discard_old_suffix (ts : list Q) :
  exists dropped, ts = dropped ++ discard_old now ts /\
    Forall (fun t => t <= now - RATE_LIMIT_WINDOW)%Q dropped.
Proof.
  induction ts as [|t rest IH]; simpl.
  - exists []; split; [reflexivity | constructor].
  - destruct (Qle_bool t (now - RATE_LIMIT_WINDOW)) eqn:E.
    + destruct IH as [d [Hd Hall]].
      exists (t :: d); split.
      * simpl; congruence.
      * constructor; [apply Qle_bool_iff; exact E | exact Hall].
    + exists []; split; [reflexivity | constructor].
Qed.

Lemma discard_old_head (ts : list Q) (t : Q) (rest : list Q) :
  discard_old now ts = t :: rest -> in_window now t = true.
Proof.
  induction ts as [|u us IH]; simpl; [discriminate|].
  destruct (Qle_bool u (now - RATE_LIMIT_WINDOW)) eqn:E; intros H.
  - apply IH; exact H.
  - injection H as <- _. unfold in_window. rewrite E. reflexivity.
Qed.

Lemma in_window_mono (t u : Q) :
  (t <= u)%Q -> in_window now t = true -> in_window now u = true.
Proof.
  unfold in_window; intros Htu Ht.
  destruct (Qle_bool u (now - RATE_LIMIT_WINDOW)) eqn:E; [|reflexivity].
  apply Qle_bool_iff in E.
  assert (Qle_bool t (now - RATE_LIMIT_WINDOW) = true) as Ht'.
  { apply Qle_bool_iff. eapply Qle_trans; eassumption. }
  rewrite Ht' in Ht; discriminate.
Qed.

Lemma filter_all_in_window (ts : list Q) :
  Forall (fun t => in_window now t = true) ts -> filter (in_window now) ts = ts.
Proof.
  induction 1 as [|t ts Ht _ IH]; simpl; [reflexivity|].
  rewrite Ht, IH; reflexivity.
Qed.

(** On a state in arrival order the loop removes exactly the timestamps that
    are not strictly newer than [now - 1.0]. *)
Lemma discard_old_sorted (ts : list Q) :
  StronglySorted Qle ts -> discard_old now ts = filter (in_window now) ts.
Proof.
  induction 1 as [|t rest Hs IH Hall]; simpl; [reflexivity|].
  unfold in_window at 1.
  destruct (Qle_bool t (now - RATE_LIMIT_WINDOW)) eqn:E; simpl.
  - exact IH.
  - f_equal. symmetry. apply filter_all_in_window.
    eapply Forall_impl; [|exact Hall].
    intros u Htu. apply (in_window_mono t u Htu).
    unfold in_window; rewrite E; reflexivity.
Qed.

End RateLimiterFacts.

(** *** The states that the host reaches *)

Lemma discard_old_length (now : Q) (ts : list Q) :
  (length (discard_old now ts) <= length ts)%nat.
Proof.
  induction ts as [|t ts IH]; cbn [discard_old length]; [lia|].
  destruct (Qle_bool t (now - RATE_LIMIT_WINDOW)); cbn [length]; lia.
Qed.

Lemma sorted_suffix (a b : list Q) :
  StronglySorted Qle (a ++ b) -> StronglySorted Qle b.
Proof.
  induction a as [|x a IH]; [trivial|].
  cbn [app]. intros H. apply StronglySorted_inv in H. apply IH, H.
Qed.

Lemma sorted_snoc (l : list Q) (x : Q) :
  StronglySorted Qle l -> Forall (fun t => t <= x)%Q l ->
  StronglySorted Qle (l ++ [x]).
Proof.
  induction 1 as [|t l Hs IH Hall]; intros Hx; cbn [app].
  - repeat constructor.
  - apply Forall_cons_iff in Hx. destruct Hx as [Ht Hx].
    constructor; [apply IH; exact Hx|].
    apply Forall_app. split; [exact Hall|]. constructor; [exact Ht|constructor].
Qed.

Lemma forall_suffix {A} (good : A -> Prop) (a b : list A) :
  Forall good (a ++ b) -> Forall good b.
Proof. intros H. apply Forall_app in H. apply H. Qed.

(** The admission check keeps a state in arrival order, below the clock and
    within the cap. *)
Lemma check_rate_limit_at_in_order (now : Q) (ts : list Q) :
  StronglySorted Qle ts -> Forall (fun t => t <= now)%Q ts ->
  Z.of_nat (length ts) <= RATE_LIMIT_MAX ->
  StronglySorted Qle (snd (check_rate_limit_at now ts)) /\
  Forall (fun t => t <= now)%Q (snd (check_rate_limit_at now ts)) /\
  Z.of_nat (length (snd (check_rate_limit_at now ts))) <= RATE_LIMIT_MAX.
Proof.
  intros Hs Hb Hcap. unfold check_rate_limit_at.
  destruct (discard_old_suffix now ts) as [dropped [Hsplit _]].
  pose proof (discard_old_length now ts) as Hlen.
  rewrite Hsplit in Hs, Hb.
  apply sorted_suffix in Hs. apply forall_suffix in Hb.
  destruct (Z.of_nat (length (discard_old now ts)) >=? RATE_LIMIT_MAX) eqn:E;
    cbn [snd].
  - repeat split; [exact Hs|exact Hb|lia].
  - rewrite Z.geb_leb in E. apply Z.leb_gt in E.
    repeat split.
    + apply sorted_snoc; assumption.
    + apply Forall_app. split; [exact Hb|].
      constructor; [apply Qle_refl|constructor].
    + rewrite length_app. cbn [length]. lia.
Qed.

Section Order.

Context {P : Platform}.

Hypothesis clock_never_goes_back : clock_monotone.

Lemma order_ret {A} (a : A) : keeps_order (ret a).
Proof. intros w H; exact H. Qed.

Lemma order_raise {A} (e : exn) : keeps_order (raise (A := A) e).
Proof. intros w H; exact H. Qed.

Lemma order_sys_exit {A} (code : Z) : keeps_order (sys_exit (A := A) code).
Proof. intros w H; exact H. Qed.

Lemma order_bind {A B} (m : M A) (k : A -> M B) :
  keeps_order m -> (forall a, keeps_order (k a)) -> keeps_order (bind m k).
Proof.
  intros Hm Hk w Hw. unfold bind. specialize (Hm w Hw).
  destruct (m w) as [[a|e|code] w']; cbn [snd] in *; try exact Hm.
  apply Hk. exact Hm.
Qed.

Lemma order_try_except {A} (m : M A) (catches : exn -> bool)
    (handler : exn -> M A) :
  keeps_order m -> (forall e, keeps_order (handler e)) ->
  keeps_order (try_except m catches handler).
Proof.
  intros Hm Hh w Hw. unfold try_except. specialize (Hm w Hw).
  destruct (m w) as [[a|e|code] w']; cbn [snd] in *; try exact Hm.
  destruct (catches e); [|exact Hm]. apply Hh. exact Hm.
Qed.

Lemma order_stdin_read (n : nat) : keeps_order (stdin_read n).
Proof. intros w H; exact H. Qed.

Lemma order_stdout_write (data : bytes) : keeps_order (stdout_write data).
Proof. intros w H; exact H. Qed.

Lemma order_inject (ev : event) : keeps_order (inject ev).
Proof.
  intros w H. unfold inject. destruct (inj_raises (injected w) ev); exact H.
Qed.

Lemma order_tick (w : world) :
  timestamps_in_order w -> timestamps_in_order (tick w).
Proof.
  intros [Hs [Hb Hc]]. repeat split; [exact Hs| |exact Hc].
  cbn [tick action_timestamps clock]. eapply Forall_impl; [|exact Hb].
  intros t Ht k Hk. apply Ht. lia.
Qed.

Lemma order_time_monotonic : keeps_order time_monotonic.
Proof. intros w H. apply order_tick. exact H. Qed.

(** The admission check leaves the rate limiter in order: this is where the
    state changes. *)
Lemma order_check_rate_limit : keeps_order _check_rate_limit.
Proof.
  intros w [Hs [Hb Hc]]. unfold _check_rate_limit, bind, time_monotonic.
  cbn [tick action_timestamps].
  destruct (check_rate_limit_at_in_order (monotonic (clock w))
              (action_timestamps w) Hs) as [Hs' [Hb' Hc']].
  { eapply Forall_impl; [|exact Hb]. intros t Ht. apply Ht. lia. }
  { exact Hc. }
  destruct (check_rate_limit_at (monotonic (clock w)) (action_timestamps w))
    as [allowed timestamps].
  cbn [snd] in *. repeat split; [exact Hs'| |exact Hc'].
  cbn [set_timestamps tick action_timestamps clock].
  eapply Forall_impl; [|exact Hb']. intros t Ht k Hk.
  eapply Qle_trans; [exact Ht|]. apply clock_never_goes_back. lia.
Qed.

Lemma order_touch_activity : keeps_order touch_activity.
Proof.
  intros w H. unfold touch_activity, bind, time_monotonic.
  apply (order_tick w H).
Qed.

#[local] Hint Resolve order_ret order_raise order_sys_exit order_stdin_read
  order_stdout_write order_inject order_time_monotonic order_check_rate_limit
  order_touch_activity : order.

Ltac order :=
  repeat first
    [ solve [auto with order]
    | apply order_bind; [|intros ?]
    | apply order_try_except; [|intros ?]
    | match goal with
      | |- keeps_order (if ?b then _ else _) => destruct b
      | |- keeps_order (match ?x with _ => _ end) => destruct x
      end ].

Lemma order_send_message (r : response) : keeps_order (send_message r).
Proof. unfold send_message. order. Qed.

Lemma order_type_chars (text : pystr) (delay : json) (count : Z) :
  keeps_order (type_chars text delay count).
Proof.
  revert count. induction text as [|char text IH]; intros count;
    cbn [type_chars]; unfold py_gt_zero; order.
Qed.

#[local] Hint Resolve order_send_message order_type_chars : order.

Lemma order_main_iteration : keeps_order main_iteration.
Proof.
  unfold main_iteration, read_message, read_frame, decode_message, process,
    try_body, type_action, click_action, type_text, click_at, py_int.
  order.
Qed.

(** However long the host runs, on whatever input, the state of its rate
    limiter is in arrival order and never holds more than 20 timestamps. *)
Lemma reachable_timestamps_in_order (input : bytes) (turns : nat) :
  timestamps_in_order (state_of (main_loop turns (main_start input))).
Proof.
  assert (forall w, timestamps_in_order w ->
                    timestamps_in_order (state_of (main_loop turns w))) as H.
  { induction turns as [|turns IH]; intros w Hw; [exact Hw|].
    cbn [main_loop]. pose proof (order_main_iteration w Hw) as Hw'.
    destruct (main_iteration w) as [[[]|e|code] w']; cbn [snd state_of] in *;
      [apply IH; exact Hw'|exact Hw'|exact Hw']. }
  apply H. repeat split; [constructor|constructor|].
  unfold RATE_LIMIT_MAX. cbn. lia.
Qed.

End Order.

(** C1 (as stated, refuted): with the state [[4.0]] and [now = 5.0] the only
    timestamp equals [now - 1.0]; the specification's admission check retains
    it, the code's loop pops it. *)
Lemma C1_equal_timestamp_is_discarded :
  check_rate_limit_at 5 [4%Q] = (true, [5%Q]) /\
  tryAdmit_spec 5 [4%Q] = (true, [4%Q; 5%Q]) /\
  check_rate_limit_at 5 [4%Q] <> tryAdmit_spec 5 [4%Q].
Proof.
  repeat split; try reflexivity.
  vm_compute. discriminate.
Qed.

(** C1 (amended): on a rate-limiter state in arrival order (non-decreasing
    timestamps) the admission check discards every timestamp that is at or
    before [now - 1.0] and keeps the others in order; if fewer than 20 remain it
    appends [now] and allows, otherwise it denies and leaves the remaining
    timestamps as the state.  A timestamp equal to [now - 1.0] is discarded. *)
Theorem C1_check_rate_limit_sliding_window (now : Q) (state : list Q) :
  StronglySorted Qle state ->
  let remaining := filter (in_window now) state in
  (forall t, In t remaining <-> In t state /\ ~ (t <= now - 1)%Q) /\
  check_rate_limit_at now state =
    (if Z.of_nat (length remaining) <? 20
     then (true, remaining ++ [now])
     else (false, remaining)) /\
  check_rate_limit_at now ((now - 1)%Q :: state) = check_rate_limit_at now state.
Proof.
  intros Hs remaining. split; [|split].
  - intros t. unfold remaining. rewrite filter_In. unfold in_window.
    split; intros [Hin Hw]; split; try exact Hin.
    + intros Hle. apply Qle_bool_iff in Hle.
      unfold RATE_LIMIT_WINDOW in Hw. rewrite Hle in Hw. discriminate.
    + destruct (Qle_bool t (now - RATE_LIMIT_WINDOW)) eqn:E; [|reflexivity].
      apply Qle_bool_iff in E. contradiction.
  - unfold check_rate_limit_at. rewrite (discard_old_sorted now state Hs).
    fold remaining. unfold RATE_LIMIT_MAX.
    destruct (Z.of_nat (length remaining) <? 20) eqn:E.
    + apply Z.ltb_lt in E.
      destruct (Z.of_nat (length remaining) >=? 20) eqn:E'; [|reflexivity].
      apply Z.geb_le in E'. lia.
    + apply Z.ltb_ge in E.
      destruct (Z.of_nat (length remaining) >=? 20) eqn:E'; [reflexivity|].
      rewrite Z.geb_leb in E'. apply Z.leb_gt in E'. lia.
  - unfold check_rate_limit_at. simpl discard_old.
    assert (Qle_bool (now - 1) (now - RATE_LIMIT_WINDOW) = true) as ->.
    { apply Qle_bool_iff. unfold RATE_LIMIT_WINDOW. apply Qle_refl. }
    reflexivity.
Qed.

Lemma C1_check_rate_limit_sliding_window_witness :
  StronglySorted Qle [4%Q; 4.5%Q] /\
  check_rate_limit_at 5 [4%Q; 4.5%Q] = (true, [4.5%Q; 5%Q]).
Proof.
  assert (StronglySorted Qle [4%Q; 4.5%Q]) as Hs.
  { repeat constructor. vm_compute. discriminate. }
  split; [exact Hs|].
  destruct (C1_check_rate_limit_sliding_window 5 [4%Q; 4.5%Q] Hs) as [_ [H _]].
  rewrite H. reflexivity.
Defined.

(** ** Frames in sequence *)

Section Frames.

Context {P : Platform}.

Lemma set_stdin_twice (w : world) (a b : bytes) :
  set_stdin (set_stdin w a) b = set_stdin w b.
Proof. reflexivity. Qed.

Lemma read_frames_arrive (payloads frames : list bytes) :
  Forall2 (fun payload frame => frame_of payload = Some frame) payloads frames ->
  Forall (fun payload => Z.of_nat (length payload) <= MAX_MESSAGE_BYTES) payloads ->
  forall (w : world) (rest : bytes),
    stdin w = concat frames ++ rest ->
    read_frames (length payloads) w = (Ret payloads, set_stdin w rest).
Proof.
  induction 1 as [|payload frame payloads frames Hf _ IH]; intros Hmax w rest Hin.
  - cbn [concat app] in Hin. cbn [length read_frames]. unfold ret.
    rewrite <- Hin. destruct w; reflexivity.
  - apply Forall_cons_iff in Hmax. destruct Hmax as [Hmax Hrest].
    cbn [concat] in Hin. rewrite <- app_assoc in Hin.
    cbn [length read_frames]. unfold bind at 1.
    rewrite (read_frame_arrives w payload (concat frames ++ rest));
      [|exists frame; split; assumption|exact Hmax].
    unfold bind at 1.
    rewrite (IH Hrest (set_stdin w (concat frames ++ rest)) rest) by reflexivity.
    reflexivity.
Qed.

Lemma send_messages_wire (responses : list response) (outs : list bytes) :
  Forall2 (fun r out => wire r = Some out) responses outs ->
  forall w,
    send_messages responses w = (Ret tt, set_stdout w (stdout w ++ concat outs)).
Proof.
  induction 1 as [|r out responses outs Hout _ IH]; intros w.
  - cbn [send_messages concat]. unfold ret. rewrite app_nil_r.
    destruct w; reflexivity.
  - cbn [send_messages concat]. unfold bind.
    rewrite (send_message_wire r out w Hout), IH. world_eq.
Qed.

Lemma wire_frame_of_payload (r : response) : wire r = frame_of (payload_of r).
Proof. unfold wire, payload_of. rewrite encoded_response. reflexivity. Qed.

Lemma wires_exist (responses : list response) :
  Forall (fun r => Z.of_nat (length (json_dumps r)) <= MAX_MESSAGE_BYTES)
    responses ->
  exists outs, Forall2 (fun r out => wire r = Some out) responses outs.
Proof.
  induction 1 as [|r responses Hr _ [outs IH]].
  - exists []. constructor.
  - destruct (wire_fits r) as [out Hout];
      [unfold MAX_MESSAGE_BYTES in Hr; lia|].
    exists (out :: outs). constructor; assumption.
Qed.

(** X1: responses that [send_message] writes one after the other, each with
    a serialization of at most 1,048,576 bytes, are read back by successive
    calls of [read_message]'s framing as their payloads, in the order they were
    sent; the bytes after the last frame are left on the stream. *)
Theorem X1_responses_are_read_back_in_order (responses : list response)
    (sender reader : world) :
  Forall (fun r => Z.of_nat (length (json_dumps r)) <= MAX_MESSAGE_BYTES)
    responses ->
  exists out,
    send_messages responses sender =
      (Ret tt, set_stdout sender (stdout sender ++ out)) /\
    forall rest,
      stdin reader = out ++ rest ->
      read_frames (length responses) reader =
        (Ret (map payload_of responses), set_stdin reader rest).
Proof.
  intros Hmax. destruct (wires_exist responses Hmax) as [outs Houts].
  exists (concat outs). split; [apply send_messages_wire; exact Houts|].
  intros rest Hin. rewrite <- (length_map payload_of).
  apply (read_frames_arrive (map payload_of responses) outs).
  - clear Hmax Hin. induction Houts as [|r out responses outs Hout _ IH];
      cbn [map]; constructor; [|exact IH].
    rewrite <- wire_frame_of_payload. exact Hout.
  - clear Houts Hin. induction Hmax as [|r responses Hr _ IH]; cbn [map];
      constructor; [|exact IH].
    unfold payload_of. rewrite length_map. exact Hr.
  - exact Hin.
Qed.

(** X2: the payload that [send_message] writes is pure ASCII, one byte for
    each character of the serialization, whatever the text of the response;
    so the encoding to UTF-8 never fails, and the only way [send_message] can
    raise is [struct.pack] on a payload of [2^32] bytes or more, in which case
    nothing is written. *)
Theorem X2_send_message_writes_an_ascii_frame (r : response) (w : world) :
  is_ascii (json_dumps r) = true /\
  ((exists prefix,
      struct_pack_I native_order (Z.of_nat (length (json_dumps r))) = Some prefix /\
      length prefix = 4%nat /\
      struct_unpack_I native_order prefix = Z.of_nat (length (payload_of r)) /\
      send_message r w =
        (Ret tt, set_stdout w (stdout w ++ prefix ++ payload_of r))) \/
   (4294967296 <= Z.of_nat (length (json_dumps r)) /\
    send_message r w =
      (Raise (fault_exn (PackRange (Z.of_nat (length (json_dumps r))))), w))).
Proof.
  split; [apply json_dumps_ascii|].
  unfold send_message, payload_of. rewrite encoded_response. cbv beta iota.
  rewrite length_map.
  destruct (struct_pack_I native_order (Z.of_nat (length (json_dumps r))))
    as [prefix|] eqn:Hp.
  - left. exists prefix. repeat split.
    + eapply struct_pack_I_length; exact Hp.
    + apply struct_unpack_pack. exact Hp.
    + unfold bind, stdout_write. world_eq.
  - right. split; [|reflexivity].
    unfold struct_pack_I in Hp.
    destruct ((0 <=? Z.of_nat (length (json_dumps r))) &&
              (Z.of_nat (length (json_dumps r)) <? 4294967296)) eqn:E;
      [discriminate|].
    apply andb_false_iff in E. destruct E as [E|E].
    + apply Z.leb_gt in E. lia.
    + apply Z.ltb_ge in E. exact E.
Qed.

End Frames.

(** ** The three kinds of response *)

Lemma digits_of_above (fuel : nat) :
  forall (n : N) (acc : pystr),
    Forall (fun c => 45 <= c)%N acc ->
    Forall (fun c => 45 <= c)%N (digits_of fuel n acc).
Proof.
  assert (forall m, 45 <= 48 + m)%N as Habove by (intros m; lia).
  induction fuel as [|fuel IH]; intros n acc Hacc; cbn [digits_of].
  - constructor; [apply Habove|exact Hacc].
  - destruct (n / 10 =? 0)%N.
    + constructor; [apply Habove|exact Hacc].
    + apply IH. constructor; [apply Habove|exact Hacc].
Qed.

(** A numeral holds digits and a sign, and no comma. *)
Lemma dec_above (z : Z) : Forall (fun c => 45 <= c)%N (dec z).
Proof.
  unfold dec, dec_N. destruct (z <? 0).
  - constructor; [lia|]. apply digits_of_above. constructor.
  - apply digits_of_above. constructor.
Qed.

Lemma split_at_comma (u v s t : pystr) :
  Forall (fun c => 45 <= c)%N u -> Forall (fun c => 45 <= c)%N v ->
  u ++ 44%N :: s = v ++ 44%N :: t -> u = v /\ s = t.
Proof.
  intros Hu. revert v. induction Hu as [|c u Hc _ IH]; intros v Hv H.
  - destruct Hv as [|d v Hd _]; cbn [app] in H.
    + split; [reflexivity|congruence].
    + exfalso. assert (44%N = d) by congruence. lia.
  - destruct Hv as [|d v Hd Hv]; cbn [app] in H.
    + exfalso. assert (c = 44%N) by congruence. lia.
    + assert (c = d) as -> by congruence.
      assert (u ++ 44%N :: s = v ++ 44%N :: t) as H' by congruence.
      destruct (IH v Hv H') as [-> ->]. split; reflexivity.
Qed.

Lemma json_dumps_click_inj (x y x' y' : Z) :
  json_dumps (RespClick x y) = json_dumps (RespClick x' y') -> x = x' /\ y = y'.
Proof.
  unfold json_dumps. intros H.
  do 11 apply app_inv_head in H.
  change (lit "," ++ dumps_str (lit "y") ++ lit ":" ++ dec y ++ lit "}")
    with (44%N :: dumps_str (lit "y") ++ lit ":" ++ dec y ++ lit "}") in H.
  change (lit "," ++ dumps_str (lit "y") ++ lit ":" ++ dec y' ++ lit "}")
    with (44%N :: dumps_str (lit "y") ++ lit ":" ++ dec y' ++ lit "}") in H.
  apply split_at_comma in H; try apply dec_above.
  destruct H as [Hx Hy]. split; [apply dec_inj; exact Hx|].
  do 2 apply app_inv_head in Hy. apply app_inv_tail in Hy.
  apply dec_inj. exact Hy.
Qed.

Lemma json_dumps_error_not_click (message : pystr) (x y : Z) :
  json_dumps (RespError message) <> json_dumps (RespClick x y).
Proof.
  unfold json_dumps. intros H.
  do 3 apply app_inv_head in H.
  apply (f_equal (fun s => nth 1 s 0%N)) in H.
  cbn in H. discriminate.
Qed.

Lemma json_dumps_typed_not_click (typed x y : Z) :
  json_dumps (RespTyped typed) <> json_dumps (RespClick x y).
Proof.
  unfold json_dumps. intros H.
  do 5 apply app_inv_head in H.
  apply (f_equal (fun s => nth 1 s 0%N)) in H.
  cbn in H. discriminate.
Qed.

(** X3: the serialization tells the three kinds of response apart, and a
    success response determines the numbers it reports: two responses with the
    same serialization are of the same kind, with the same [typed], or the
    same [x] and [y]. *)
Theorem X3_serialization_tells_responses_apart (r1 r2 : response) :
  json_dumps r1 = json_dumps r2 ->
  match r1, r2 with
  | RespTyped a, RespTyped b => a = b
  | RespClick x y, RespClick x' y' => x = x' /\ y = y'
  | RespError _, RespError _ => True
  | _, _ => False
  end.
Proof.
  destruct r1 as [a|x y|m], r2 as [b|x' y'|m']; intros H.
  - apply json_dumps_typed_inj. exact H.
  - apply (json_dumps_typed_not_click a x' y'). exact H.
  - apply (json_dumps_error_not_typed m' a). symmetry. exact H.
  - apply (json_dumps_typed_not_click b x y). symmetry. exact H.
  - apply json_dumps_click_inj. exact H.
  - apply (json_dumps_error_not_click m' x y). symmetry. exact H.
  - apply (json_dumps_error_not_typed m b). exact H.
  - apply (json_dumps_error_not_click m x' y'). exact H.
  - exact I.
Qed.

Lemma X1_responses_are_read_back_in_order_witness :
  exists out,
    send_messages (P := Reference.quiet) [RespTyped 1; RespClick 2 (-7)]
      (main_start (P := Reference.quiet) []) =
      (Ret tt,
       set_stdout (main_start (P := Reference.quiet) [])
         (stdout (main_start (P := Reference.quiet) []) ++ out)) /\
    forall rest,
      stdin (main_start (P := Reference.quiet) []) = out ++ rest ->
      read_frames (P := Reference.quiet) 2 (main_start (P := Reference.quiet) []) =
        (Ret (map payload_of [RespTyped 1; RespClick 2 (-7)]),
         set_stdin (main_start (P := Reference.quiet) []) rest).
Proof.
  apply (X1_responses_are_read_back_in_order (P := Reference.quiet)
           [RespTyped 1; RespClick 2 (-7)]).
  repeat constructor; vm_compute; discriminate.
Defined.

Lemma X3_serialization_tells_responses_apart_witness : 2 = 2 /\ -7 = -7.
Proof.
  apply (X3_serialization_tells_responses_apart (RespClick 2 (-7))
           (RespClick 2 (-7))).
  reflexivity.
Defined.

(** ** The rate limiter over time *)

Lemma discard_old_later (now later : Q) (ts : list Q) :
  (now <= later)%Q ->
  discard_old later (discard_old now ts) = discard_old later ts.
Proof.
  intros Hle. induction ts as [|t ts IH]; [reflexivity|].
  cbn [discard_old].
  destruct (Qle_bool t (now - RATE_LIMIT_WINDOW)) eqn:E; [|reflexivity].
  assert (Qle_bool t (later - RATE_LIMIT_WINDOW) = true) as ->; [|exact IH].
  apply Qle_bool_iff. apply Qle_bool_iff in E.
  eapply Qle_trans; [exact E|].
  unfold Qminus. apply Qplus_le_compat; [exact Hle|apply Qle_refl].
Qed.

Lemma check_rate_limit_at_denied (now : Q) (state : list Q) :
  fst (check_rate_limit_at now state) = false ->
  check_rate_limit_at now state = (false, discard_old now state) /\
  20 <= Z.of_nat (length (discard_old now state)).
Proof.
  unfold check_rate_limit_at, RATE_LIMIT_MAX.
  destruct (Z.of_nat (length (discard_old now state)) >=? 20) eqn:E;
    cbn [fst]; [|discriminate].
  intros _. split; [reflexivity|]. apply Z.geb_le in E. exact E.
Qed.

(** X4: an action that the rate limiter denies is not recorded: the state
    keeps the twenty or more timestamps of the window and no other, and every
    later call decides as if the denied call had not been made. *)
Theorem X4_denied_action_leaves_no_trace (now later : Q) (state : list Q) :
  fst (check_rate_limit_at now state) = false ->
  (now <= later)%Q ->
  snd (check_rate_limit_at now state) = discard_old now state /\
  20 <= Z.of_nat (length (snd (check_rate_limit_at now state))) /\
  check_rate_limit_at later (snd (check_rate_limit_at now state)) =
    check_rate_limit_at later state.
Proof.
  intros Hdenied Hle.
  destruct (check_rate_limit_at_denied now state Hdenied) as [-> Hlen].
  cbn [snd]. repeat split; [exact Hlen|].
  unfold check_rate_limit_at. rewrite (discard_old_later now later state Hle).
  reflexivity.
Qed.

Lemma X4_denied_action_leaves_no_trace_witness :
  snd (check_rate_limit_at 5 (repeat 5%Q 20)) = discard_old 5 (repeat 5%Q 20) /\
  20 <= Z.of_nat (length (snd (check_rate_limit_at 5 (repeat 5%Q 20)))) /\
  check_rate_limit_at 5.5 (snd (check_rate_limit_at 5 (repeat 5%Q 20))) =
    check_rate_limit_at 5.5 (repeat 5%Q 20).
Proof.
  apply (X4_denied_action_leaves_no_trace 5 5.5 (repeat 5%Q 20)).
  - reflexivity.
  - vm_compute. discriminate.
Defined.

Lemma discard_old_all (now : Q) (state : list Q) :
  Forall (fun t => t <= now - 1)%Q state -> discard_old now state = [].
Proof.
  induction 1 as [|t state Ht _ IH]; [reflexivity|].
  cbn [discard_old].
  assert (Qle_bool t (now - RATE_LIMIT_WINDOW) = true) as ->; [|exact IH].
  apply Qle_bool_iff. exact Ht.
Qed.

Lemma check_rate_limit_at_below (now : Q) (state : list Q) :
  Z.of_nat (length (discard_old now state)) < 20 ->
  check_rate_limit_at now state = (true, discard_old now state ++ [now]).
Proof.
  intros H. unfold check_rate_limit_at, RATE_LIMIT_MAX.
  destruct (Z.of_nat (length (discard_old now state)) >=? 20) eqn:E;
    [|reflexivity].
  apply Z.geb_le in E. lia.
Qed.

(** X5: the window slides.  With fewer than twenty timestamps in the state
    the action is allowed, whatever the clock reads; with at most twenty, it
    is allowed as soon as the oldest is one second old; and when all of them
    are, the state is left with the new timestamp alone. *)
Theorem X5_the_window_slides (now : Q) (state : list Q) :
  (Z.of_nat (length state) < 20 ->
   check_rate_limit_at now state = (true, discard_old now state ++ [now])) /\
  (forall oldest rest,
     state = oldest :: rest -> Z.of_nat (length state) <= 20 ->
     (oldest <= now - 1)%Q ->
     check_rate_limit_at now state = (true, discard_old now rest ++ [now])) /\
  (Forall (fun t => t <= now - 1)%Q state ->
   check_rate_limit_at now state = (true, [now])).
Proof.
  split; [|split].
  - intros H. apply check_rate_limit_at_below.
    pose proof (discard_old_length now state). lia.
  - intros oldest rest -> Hlen Hold.
    assert (discard_old now (oldest :: rest) = discard_old now rest) as Hd.
    { cbn [discard_old].
      assert (Qle_bool oldest (now - RATE_LIMIT_WINDOW) = true) as ->;
        [|reflexivity].
      apply Qle_bool_iff. exact Hold. }
    rewrite <- Hd. apply check_rate_limit_at_below. rewrite Hd.
    pose proof (discard_old_length now rest). cbn [length] in Hlen. lia.
  - intros Hall. rewrite check_rate_limit_at_below;
      rewrite (discard_old_all now state Hall); [reflexivity|cbn; lia].
Qed.

Lemma X5_the_window_slides_witness :
  check_rate_limit_at 3 [5%Q] = (true, discard_old 3 [5%Q] ++ [3%Q]) /\
  check_rate_limit_at 6 (repeat 5%Q 20) =
    (true, discard_old 6 (repeat 5%Q 19) ++ [6%Q]) /\
  check_rate_limit_at 6 (repeat 5%Q 20) = (true, [6%Q]).
Proof.
  split; [|split].
  - apply (proj1 (X5_the_window_slides 3 [5%Q])). cbn. lia.
  - apply (proj1 (proj2 (X5_the_window_slides 6 (repeat 5%Q 20)))
             5%Q (repeat 5%Q 19)).
    + reflexivity.
    + cbn. lia.
    + vm_compute. discriminate.
  - apply (proj2 (proj2 (X5_the_window_slides 6 (repeat 5%Q 20)))).
    repeat constructor; vm_compute; discriminate.
Defined.

Lemma spaced_snoc (old state : list Q) (now : Q) :
  spaced (old ++ state) -> (length state < 20)%nat ->
  Forall (fun t => t <= now - 1)%Q old ->
  spaced (old ++ state ++ [now]).
Proof.
  intros Hsp Hlen Hold i t u Ht Hu.
  rewrite app_assoc in Ht, Hu.
  assert (i + 20 < length ((old ++ state) ++ [now]))%nat as Hin
    by (apply nth_error_Some; congruence).
  rewrite length_app in Hin. cbn [length] in Hin.
  destruct (Nat.eq_dec (i + 20) (length (old ++ state))) as [Heq|Hne].
  - rewrite nth_error_app2, Heq, Nat.sub_diag in Hu by lia.
    cbn in Hu. assert (u = now) as -> by congruence.
    rewrite length_app in Heq.
    rewrite nth_error_app1 in Ht by (rewrite length_app; lia).
    rewrite nth_error_app1 in Ht by lia.
    apply nth_error_In in Ht.
    rewrite Forall_forall in Hold. specialize (Hold t Ht).
    apply (Qplus_le_compat _ _ 1 1) in Hold; [|apply Qle_refl].
    eapply Qle_trans; [exact Hold|].
    unfold Qminus. rewrite <- Qplus_assoc.
    setoid_replace (- (1) + 1)%Q with 0%Q by reflexivity.
    rewrite Qplus_0_r. apply Qle_refl.
  - rewrite nth_error_app1 in Ht by lia.
    rewrite nth_error_app1 in Hu by lia.
    apply (Hsp i t u Ht Hu).
Qed.

Lemma admissions_spaced_from (nows : list Q) :
  StronglySorted Qle nows ->
  forall (old state : list Q),
    Forall (fun t => Forall (fun now => t <= now - 1)%Q nows) old ->
    (length state <= 20)%nat ->
    spaced (old ++ state) ->
    spaced (old ++ state ++ admissions nows state).
Proof.
  induction 1 as [|now rest Hsorted IH Hnext]; intros old state Hold Hlen Hsp.
  - cbn [admissions]. rewrite app_nil_r. exact Hsp.
  - destruct (discard_old_suffix now state) as [dropped [Hsplit Hdropped]].
    pose proof (discard_old_length now state) as Hshort.
    cbn [admissions]. unfold check_rate_limit_at.
    revert Hsplit Hshort.
    generalize (discard_old now state) as kept. intros kept Hsplit Hshort.
    subst state.
    assert (Forall (fun t => t <= now - 1)%Q (old ++ dropped)) as Hnow.
    { apply Forall_app. split; [|exact Hdropped].
      eapply Forall_impl; [|exact Hold].
      intros t Ht. apply Forall_cons_iff in Ht. apply Ht. }
    assert (Forall (fun t => Forall (fun later => t <= later - 1)%Q rest)
              (old ++ dropped)) as Hlater.
    { eapply Forall_impl; [|exact Hnow].
      intros t Ht. eapply Forall_impl; [|exact Hnext].
      intros later Hle. eapply Qle_trans; [exact Ht|].
      unfold Qminus. apply Qplus_le_compat; [exact Hle|apply Qle_refl]. }
    rewrite (app_assoc old dropped kept) in Hsp.
    destruct (Z.of_nat (length kept) >=? RATE_LIMIT_MAX) eqn:E.
    + cbn [app]. rewrite <- (app_assoc dropped kept), (app_assoc old dropped).
      apply IH; [exact Hlater|lia|exact Hsp].
    + rewrite Z.geb_leb in E. apply Z.leb_gt in E.
      unfold RATE_LIMIT_MAX in E.
      rewrite <- (app_assoc dropped kept), (app_assoc old dropped).
      rewrite (app_assoc kept [now]).
      apply IH; [exact Hlater|rewrite length_app; cbn [length]; lia|].
      apply spaced_snoc; [exact Hsp|lia|exact Hnow].
Qed.

(** X6: what the rate limiter guarantees.  When the clock does not go back
    between the calls, of any twenty-one consecutive actions that
    [_check_rate_limit] allows, the last is allowed at least one second after
    the first: no window shorter than a second holds more than twenty allowed
    actions. *)
Theorem X6_allowed_actions_are_spaced (nows : list Q) :
  StronglySorted Qle nows ->
  forall i t u,
    nth_error (admissions nows []) i = Some t ->
    nth_error (admissions nows []) (i + 20) = Some u ->
    (t + 1 <= u)%Q.
Proof.
  intros Hsorted.
  apply (admissions_spaced_from nows Hsorted [] []).
  - constructor.
  - cbn. lia.
  - intros i t u Ht. destruct i; discriminate.
Qed.

Lemma X6_allowed_actions_are_spaced_witness : (0 + 1 <= 1)%Q.
Proof.
  apply (X6_allowed_actions_are_spaced (repeat 0%Q 20 ++ [1%Q])) with (i := 0%nat).
  - repeat constructor; vm_compute; discriminate.
  - reflexivity.
  - reflexivity.
Defined.

Lemma quiet_clock_monotone : clock_monotone (P := Reference.quiet).
Proof.
  intros i j Hij. unfold Qle. cbn. lia.
Qed.

(** X7: however long the host runs and whatever it reads, when the clock
    does not go back the list of the rate limiter stays in arrival order,
    holds no timestamp ahead of the clock, and never holds more than twenty
    timestamps. *)
Theorem X7_rate_limiter_state_stays_bounded {P : Platform} (input : bytes)
    (turns : nat) :
  clock_monotone ->
  StronglySorted Qle
    (action_timestamps (state_of (main_loop turns (main_start input)))) /\
  Forall (fun t => (t <= monotonic
                           (clock (state_of (main_loop turns (main_start input)))))%Q)
    (action_timestamps (state_of (main_loop turns (main_start input)))) /\
  (length (action_timestamps (state_of (main_loop turns (main_start input))))
   <= 20)%nat.
Proof.
  intros Hclock.
  destruct (reachable_timestamps_in_order Hclock input turns) as [Hs [Hb Hc]].
  split; [exact Hs|]. split.
  - eapply Forall_impl; [|exact Hb]. intros t Ht. apply Ht. lia.
  - unfold RATE_LIMIT_MAX in Hc. lia.
Qed.

Lemma X7_rate_limiter_state_stays_bounded_witness :
  (length (action_timestamps
             (quiet_run (Reference.burst 21 Reference.empty_text_request) 21))
   <= 20)%nat.
Proof.
  apply (X7_rate_limiter_state_stays_bounded (P := Reference.quiet)
           (Reference.burst 21 Reference.empty_text_request) 21).
  intros i j Hij. unfold Qle. cbn. lia.
Defined.

(** ** The branches of the dispatcher *)

Section Dispatcher.

Context {P : Platform}.

(** An error response whose message has fewer than [2^28] characters fits a
    frame. *)
Lemma wire_error_wide (message : pystr) :
  Z.of_nat (length message) < 2 ^ 28 ->
  exists out, wire (RespError message) = Some out.
Proof.
  intros H. apply wire_fits.
  pose proof (json_dumps_error_length message).
  change (2 ^ 28) with 268435456 in H. lia.
Qed.

(** An admitted request whose handling ends in sending an error response,
    before any injector call. *)
Lemma process_refuses (message : json) (w : world) (timestamps : list Q)
    (text : pystr) :
  try_body message w =
    send_message (RespError text) (set_timestamps (tick w) timestamps) ->
  Z.of_nat (length text) < 2 ^ 28 ->
  exists out,
    wire (RespError text) = Some out /\
    process message w = (Ret tt, dispatched w timestamps [] out).
Proof.
  intros Hbody Hlen. destruct (wire_error_wide text Hlen) as [out Hout].
  exists out. split; [exact Hout|].
  rewrite (process_sends message w (set_timestamps (tick w) timestamps)
             (RespError text) out Hbody Hout).
  world_eq.
Qed.

(** An admitted request whose handling raises an exception of the interpreter
    before any injector call: the last handler answers with its text. *)
Lemma process_faults (message : json) (w : world) (timestamps : list Q)
    (f : fault) :
  try_body message w =
    (Raise (fault_exn f), set_timestamps (tick w) timestamps) ->
  Z.of_nat (length (fault_text f)) < 2 ^ 28 ->
  exists out,
    wire (RespError (fault_text f)) = Some out /\
    process message w = (Ret tt, dispatched w timestamps [] out).
Proof.
  intros Hbody Hlen. destruct (wire_error_wide _ Hlen) as [out Hout].
  exists out. split; [exact Hout|].
  unfold process, try_except. rewrite Hbody.
  assert (is_JSONDecodeError (fault_exn f) = false) as ->
    by (destruct f as [v|v|[| | |[| |]| | |]|n|s]; reflexivity).
  cbn [fault_exn exn_text].
  rewrite (send_message_wire _ out _ Hout). world_eq.
Qed.

Lemma eq_str_neq (v : json) (s : pystr) : v <> JStr s -> eq_str v s = false.
Proof.
  intros H. destruct (eq_str v s) eqn:E; [|reflexivity].
  apply eq_str_inv in E. contradiction.
Qed.

Lemma is_None_neq (v : json) : v <> JNull -> is_None v = false.
Proof. destruct v; try reflexivity. congruence. Qed.

Lemma dict_has_get (items : list (pystr * json)) (key : pystr) :
  dict_has items key = false -> dict_get items key = JNull.
Proof.
  induction items as [|[k v] items IH]; cbn [dict_get dict_has];
    [reflexivity|].
  destruct (pystr_eqb k key); [discriminate|]. exact IH.
Qed.

(** X8: a request that the rate limiter denies is not looked at: whatever
    the decoded value is, a request of any kind or no request at all, the
    response is the error of the rate limiter, the same for all, and no
    injector call is made. *)
Theorem X8_denied_request_is_not_looked_at (message other : json) (w : world)
    (timestamps : list Q) :
  check_rate_limit_at (monotonic (clock w)) (action_timestamps w) =
    (false, timestamps) ->
  (exists out,
     wire (RespError (lit "Rate limit exceeded (20 actions per 1.0s)")) = Some out /\
     process message w = (Ret tt, dispatched w timestamps [] out)) /\
  process other w = process message w.
Proof.
  intros Hrate.
  destruct (process_denied message w timestamps Hrate) as [out [Hout Hrun]].
  split; [exists out; split; assumption|].
  destruct (process_denied other w timestamps Hrate) as [out' [Hout' Hrun']].
  rewrite Hrun, Hrun'. congruence.
Qed.

(** X9: an admitted request that names no action ([action] is absent or
    [null]) and has no [text] is answered with the error
    [Missing 'action' field], and no injector call is made. *)
Theorem X9_missing_action (items : list (pystr * json)) (w : world)
    (timestamps : list Q) :
  admitted w timestamps ->
  dict_get items (lit "action") = JNull ->
  dict_has items (lit "text") = false ->
  exists out,
    wire (RespError (lit "Missing 'action' field")) = Some out /\
    process (JDict items) w = (Ret tt, dispatched w timestamps [] out).
Proof.
  intros Ha Haction Htext. apply process_refuses; [|cbn; lia].
  rewrite (try_body_admitted items w timestamps Ha).
  unfold resolve_action. rewrite Haction, Htext. reflexivity.
Qed.

(** X10: an admitted request whose [action] is neither [null], nor ["type"],
    nor ["click"] is answered with the error [Unknown action: ] followed by
    the action as [str] formats it, and no injector call is made; its other
    fields are not looked at. *)
Theorem X10_unknown_action (items : list (pystr * json)) (action : json)
    (w : world) (timestamps : list Q) :
  admitted w timestamps ->
  dict_get items (lit "action") = action ->
  action <> JNull -> action <> JStr (lit "type") -> action <> JStr (lit "click") ->
  Z.of_nat (length (py_format action)) < 2 ^ 27 ->
  exists out,
    wire (RespError (lit "Unknown action: " ++ py_format action)) = Some out /\
    process (JDict items) w = (Ret tt, dispatched w timestamps [] out).
Proof.
  intros Ha Haction Hnone Htype Hclick Hlen. apply process_refuses.
  - rewrite (try_body_admitted items w timestamps Ha).
    unfold resolve_action. rewrite Haction, (is_None_neq action Hnone).
    rewrite (eq_str_neq _ _ Htype), (eq_str_neq _ _ Hclick). reflexivity.
  - rewrite length_app. change (length (lit "Unknown action: ")) with 16%nat.
    change (2 ^ 27) with 134217728 in Hlen. change (2 ^ 28) with 268435456.
    lia.
Qed.

(** X11: an admitted click request in which [x] or [y] is absent or [null]
    is answered with the error [Missing 'x' or 'y' for click], and no injector
    call is made. *)
Theorem X11_click_without_a_coordinate (items : list (pystr * json)) (w : world)
    (timestamps : list Q) :
  admitted w timestamps ->
  request_of "click" items ->
  dict_get items (lit "x") = JNull \/ dict_get items (lit "y") = JNull ->
  exists out,
    wire (RespError (lit "Missing 'x' or 'y' for click")) = Some out /\
    process (JDict items) w = (Ret tt, dispatched w timestamps [] out).
Proof.
  intros Ha Hreq Hmissing. apply process_refuses; [|cbn; lia].
  rewrite (try_body_click items w timestamps Ha Hreq). unfold click_action.
  destruct Hmissing as [-> | ->]; cbn [is_None orb]; [reflexivity|].
  rewrite orb_true_r. reflexivity.
Qed.

(** X12: an admitted click request with a coordinate that [int] refuses (a
    list, a dict, an infinity, a NaN, a string that is no numeral) is answered
    with the text of the exception of [int], and no injector call is made:
    both coordinates are converted before the mouse is touched, [x] first. *)
Theorem X12_click_with_a_coordinate_that_is_no_number
    (items : list (pystr * json)) (vx vy : json) (w : world)
    (timestamps : list Q) :
  admitted w timestamps ->
  request_of "click" items ->
  dict_get items (lit "x") = vx -> dict_get items (lit "y") = vy ->
  vx <> JNull -> vy <> JNull ->
  (int_of vx = None ->
   Z.of_nat (length (fault_text (BadInt vx))) < 2 ^ 28 ->
   exists out,
     wire (RespError (fault_text (BadInt vx))) = Some out /\
     process (JDict items) w = (Ret tt, dispatched w timestamps [] out)) /\
  (forall x,
     int_of vx = Some x -> int_of vy = None ->
     Z.of_nat (length (fault_text (BadInt vy))) < 2 ^ 28 ->
     exists out,
       wire (RespError (fault_text (BadInt vy))) = Some out /\
       process (JDict items) w = (Ret tt, dispatched w timestamps [] out)).
Proof.
  intros Ha Hreq Hx Hy Hnx Hny.
  assert (try_body (JDict items) w =
          (x <- py_int vx ;; y <- py_int vy ;;
           click_at x y ;; send_message (RespClick x y))
            (set_timestamps (tick w) timestamps)) as Hbody.
  { rewrite (try_body_click items w timestamps Ha Hreq). unfold click_action.
    rewrite Hx, Hy, (is_None_neq vx Hnx), (is_None_neq vy Hny). reflexivity. }
  split.
  - intros Hix Hlen. apply process_faults; [|exact Hlen].
    rewrite Hbody. unfold bind, py_int. rewrite Hix. reflexivity.
  - intros x Hix Hiy Hlen. apply process_faults; [|exact Hlen].
    rewrite Hbody. unfold bind, py_int. rewrite Hix, Hiy. reflexivity.
Qed.

(** X13: an admitted click request whose coordinates [int] accepts (an
    integer, which it leaves as it is, a boolean, a finite float, a numeral in
    a string) moves the mouse to the converted coordinates and clicks once;
    when no injector call raises, the response echoes the converted
    coordinates. *)
Theorem X13_click_converts_its_coordinates (items : list (pystr * json))
    (vx vy : json) (x y : Z) (w : world) (timestamps : list Q) :
  admitted w timestamps ->
  request_of "click" items ->
  dict_get items (lit "x") = vx -> dict_get items (lit "y") = vy ->
  vx <> JNull -> vy <> JNull ->
  int_of vx = Some x -> int_of vy = Some y ->
  calls_succeed (injected w) (clicking_calls x y) ->
  Z.abs x < 2 ^ 1024 -> Z.abs y < 2 ^ 1024 ->
  (forall z, vx = JInt z -> x = z) /\
  exists out,
    wire (RespClick x y) = Some out /\
    process (JDict items) w =
      (Ret tt, dispatched w timestamps (clicking_calls x y) out).
Proof.
  intros Ha Hreq Hx Hy Hnx Hny Hix Hiy Hok Hbx Hby. split.
  - intros z ->. cbn [int_of] in Hix. congruence.
  - destruct (wire_click x y Hbx Hby) as [out Hout].
    exists out. split; [exact Hout|].
    apply process_returns.
    rewrite (click_clicked items vx vy x y w timestamps Ha Hreq Hx Hy Hnx Hny
               Hix Hiy).
    unfold bind.
    rewrite (click_at_ok _ _ (set_timestamps (tick w) timestamps)) by exact Hok.
    rewrite (send_message_wire _ out _ Hout). world_eq.
Qed.

(** X14: an admitted frame whose JSON value is no object (a list, a string,
    a number, [null]) makes [message.get] raise; the last handler answers with
    the text of the exception, no injector call is made, and the frame has
    taken a slot of the rate limiter. *)
Theorem X14_value_that_is_no_object (message : json) (w : world)
    (timestamps : list Q) :
  admitted w timestamps ->
  (forall items, message <> JDict items) ->
  Z.of_nat (length (fault_text (NoGetAttr message))) < 2 ^ 28 ->
  timestamps =
    discard_old (monotonic (clock w)) (action_timestamps w) ++ [monotonic (clock w)]
  /\
  exists out,
    wire (RespError (fault_text (NoGetAttr message))) = Some out /\
    process message w = (Ret tt, dispatched w timestamps [] out).
Proof.
  intros Ha Hno Hlen. split.
  - unfold admitted, check_rate_limit_at in Ha.
    destruct (Z.of_nat (length (discard_old (monotonic (clock w))
                                  (action_timestamps w))) >=? RATE_LIMIT_MAX);
      [discriminate|].
    congruence.
  - apply process_faults; [|exact Hlen].
    unfold try_body, bind.
    rewrite (check_rate_limit_admitted w timestamps Ha). cbn [negb].
    destruct message; try reflexivity.
    exfalso. apply (Hno items). reflexivity.
Qed.

(** X15: a request without an [action] key that has a [text] key is handled
    as the same request with the action ["type"]: the two leave the process in
    the same state, with the same response and the same injector calls. *)
Theorem X15_text_implies_the_type_action (items : list (pystr * json))
    (w : world) :
  dict_has items (lit "action") = false ->
  dict_has items (lit "text") = true ->
  process (JDict items) w =
  process (JDict ((lit "action", JStr (lit "type")) :: items)) w.
Proof.
  intros Haction Htext.
  assert (try_body (JDict items) w =
          try_body (JDict ((lit "action", JStr (lit "type")) :: items)) w)
    as Hbody.
  { unfold try_body, bind.
    destruct (_check_rate_limit w) as [[[|]|e|code] w1]; try reflexivity.
    cbn [negb]. unfold resolve_action.
    rewrite (dict_has_get items _ Haction), Htext.
    reflexivity. }
  unfold process, try_except. rewrite Hbody. reflexivity.
Qed.

End Dispatcher.

Lemma X8_denied_request_is_not_looked_at_witness :
  (exists out,
     wire (P := Reference.quiet)
       (RespError (lit "Rate limit exceeded (20 actions per 1.0s)")) = Some out /\
     process (P := Reference.quiet) (JList [])
       (quiet_run (Reference.burst 20 Reference.empty_text_request) 20) =
     (Ret tt,
      dispatched (quiet_run (Reference.burst 20 Reference.empty_text_request) 20)
        (action_timestamps
           (quiet_run (Reference.burst 20 Reference.empty_text_request) 20))
        [] out)) /\
  process (P := Reference.quiet) JNull
    (quiet_run (Reference.burst 20 Reference.empty_text_request) 20) =
  process (P := Reference.quiet) (JList [])
    (quiet_run (Reference.burst 20 Reference.empty_text_request) 20).
Proof.
  apply (X8_denied_request_is_not_looked_at (P := Reference.quiet)).
  vm_compute. reflexivity.
Defined.

Lemma X9_missing_action_witness :
  exists out,
    wire (P := Reference.quiet) (RespError (lit "Missing 'action' field")) =
      Some out /\
    process (P := Reference.quiet) (JDict [(lit "delay", JInt 1)])
      (main_start (P := Reference.quiet) []) =
    (Ret tt,
     dispatched (main_start (P := Reference.quiet) []) [(1 # 1000)%Q] [] out).
Proof.
  apply (X9_missing_action (P := Reference.quiet)); reflexivity.
Defined.

Lemma X10_unknown_action_witness :
  exists out,
    wire (P := Reference.quiet)
      (RespError (lit "Unknown action: " ++
                  py_format (P := Reference.quiet) (JStr (lit "press")))) =
      Some out /\
    process (P := Reference.quiet) (JDict [(lit "action", JStr (lit "press"))])
      (main_start (P := Reference.quiet) []) =
    (Ret tt,
     dispatched (main_start (P := Reference.quiet) []) [(1 # 1000)%Q] [] out).
Proof.
  apply (X10_unknown_action (P := Reference.quiet)).
  - reflexivity.
  - reflexivity.
  - discriminate.
  - vm_compute. discriminate.
  - vm_compute. discriminate.
  - vm_compute. reflexivity.
Defined.

Lemma X11_click_without_a_coordinate_witness :
  exists out,
    wire (P := Reference.quiet) (RespError (lit "Missing 'x' or 'y' for click")) =
      Some out /\
    process (P := Reference.quiet)
      (JDict [(lit "action", JStr (lit "click")); (lit "x", JInt 1)])
      (main_start (P := Reference.quiet) []) =
    (Ret tt,
     dispatched (main_start (P := Reference.quiet) []) [(1 # 1000)%Q] [] out).
Proof.
  apply (X11_click_without_a_coordinate (P := Reference.quiet)).
  - reflexivity.
  - exists (JStr (lit "click")). split; reflexivity.
  - right. reflexivity.
Defined.

Lemma X12_click_with_a_coordinate_that_is_no_number_witness :
  (exists out,
     wire (P := Reference.quiet)
       (RespError (fault_text (Platform := Reference.quiet) (BadInt (JList [])))) =
       Some out /\
     process (P := Reference.quiet)
       (JDict [(lit "action", JStr (lit "click")); (lit "x", JList []);
               (lit "y", JInt 1)])
       (main_start (P := Reference.quiet) []) =
     (Ret tt,
      dispatched (main_start (P := Reference.quiet) []) [(1 # 1000)%Q] [] out))
  /\
  (exists out,
     wire (P := Reference.quiet)
       (RespError (fault_text (Platform := Reference.quiet)
                     (BadInt (JStr (lit "a"))))) = Some out /\
     process (P := Reference.quiet)
       (JDict [(lit "action", JStr (lit "click")); (lit "x", JInt 1);
               (lit "y", JStr (lit "a"))])
       (main_start (P := Reference.quiet) []) =
     (Ret tt,
      dispatched (main_start (P := Reference.quiet) []) [(1 # 1000)%Q] [] out)).
Proof.
  split.
  - apply (proj1 (X12_click_with_a_coordinate_that_is_no_number
                    (P := Reference.quiet)
                    [(lit "action", JStr (lit "click")); (lit "x", JList []);
                     (lit "y", JInt 1)]
                    (JList []) (JInt 1)
                    (main_start (P := Reference.quiet) []) [(1 # 1000)%Q]
                    eq_refl
                    (ex_intro _ (JStr (lit "click")) (conj eq_refl eq_refl))
                    eq_refl eq_refl
                    ltac:(discriminate) ltac:(discriminate))).
    + reflexivity.
    + vm_compute. reflexivity.
  - apply (proj2 (X12_click_with_a_coordinate_that_is_no_number
                    (P := Reference.quiet)
                    [(lit "action", JStr (lit "click")); (lit "x", JInt 1);
                     (lit "y", JStr (lit "a"))]
                    (JInt 1) (JStr (lit "a"))
                    (main_start (P := Reference.quiet) []) [(1 # 1000)%Q]
                    eq_refl
                    (ex_intro _ (JStr (lit "click")) (conj eq_refl eq_refl))
                    eq_refl eq_refl
                    ltac:(discriminate) ltac:(discriminate)) 1).
    + reflexivity.
    + vm_compute. reflexivity.
    + vm_compute. reflexivity.
Defined.

Lemma X13_click_converts_its_coordinates_witness :
  exists out,
    wire (P := Reference.quiet) (RespClick 3 1) = Some out /\
    process (P := Reference.quiet)
      (JDict [(lit "action", JStr (lit "click")); (lit "x", JInt 3);
              (lit "y", JBool true)])
      (main_start (P := Reference.quiet) []) =
    (Ret tt,
     dispatched (main_start (P := Reference.quiet) []) [(1 # 1000)%Q]
       (clicking_calls 3 1) out).
Proof.
  apply (proj2 (X13_click_converts_its_coordinates (P := Reference.quiet)
                  [(lit "action", JStr (lit "click")); (lit "x", JInt 3);
                   (lit "y", JBool true)]
                  (JInt 3) (JBool true) 3 1
                  (main_start (P := Reference.quiet) []) [(1 # 1000)%Q]
                  eq_refl
                  (ex_intro _ (JStr (lit "click")) (conj eq_refl eq_refl))
                  eq_refl eq_refl
                  ltac:(discriminate) ltac:(discriminate)
                  eq_refl eq_refl
                  (conj eq_refl (conj eq_refl (conj eq_refl (conj eq_refl I))))
                  eq_refl eq_refl)).
Defined.

Lemma X14_value_that_is_no_object_witness :
  exists out,
    wire (P := Reference.quiet)
      (RespError (fault_text (Platform := Reference.quiet) (NoGetAttr (JList []))))
      = Some out /\
    process (P := Reference.quiet) (JList [])
      (main_start (P := Reference.quiet) []) =
    (Ret tt,
     dispatched (main_start (P := Reference.quiet) []) [(1 # 1000)%Q] [] out).
Proof.
  apply (proj2 (X14_value_that_is_no_object (P := Reference.quiet) (JList [])
                  (main_start (P := Reference.quiet) []) [(1 # 1000)%Q]
                  eq_refl
                  ltac:(intros items; discriminate)
                  ltac:(vm_compute; reflexivity))).
Defined.

Lemma X15_text_implies_the_type_action_witness :
  process (P := Reference.quiet) (JDict [(lit "text", JStr (lit "a"))])
    (main_start (P := Reference.quiet) []) =
  process (P := Reference.quiet)
    (JDict [(lit "action", JStr (lit "type")); (lit "text", JStr (lit "a"))])
    (main_start (P := Reference.quiet) []).
Proof.
  apply (X15_text_implies_the_type_action (P := Reference.quiet));
    reflexivity.
Defined.

(** ** One response for each request *)

Section Responses.

Context {P : Platform}.

Lemma silently_stdout {A} (good : A -> Prop) (w0 w : world)
    (result : outcome A * world) :
  stdout w = stdout w0 -> silently good w result -> silently good w0 result.
Proof.
  intros Hs. destruct result as [[a|e|code] w']; cbn [silently];
    try rewrite Hs; trivial.
Qed.

Lemma responds_stdout {A} (w0 w : world) (result : outcome A * world) :
  stdout w = stdout w0 -> responds w result -> responds w0 result.
Proof.
  intros Hs. destruct result as [[a|e|code] w']; cbn [responds];
    unfold answered_with; try rewrite Hs; trivial.
Qed.

Lemma responds_send (r : response) (w0 w : world) :
  stdout w = stdout w0 -> responds w0 (send_message r w).
Proof.
  intros Hs. apply (responds_stdout w0 w _ Hs).
  destruct (send_message_outcome r w) as [[out [Hout ->]]|[e ->]];
    cbn [responds]; [|reflexivity].
  exists r, out. split; [exact Hout|reflexivity].
Qed.

Lemma responds_raise (e : exn) (w0 w : world) :
  stdout w = stdout w0 -> responds w0 (raise (A := unit) e w).
Proof. intros Hs. exact Hs. Qed.

Lemma responds_bind {A B} (m : M A) (k : A -> M B) (good : A -> Prop)
    (w0 w : world) :
  silently good w0 (m w) ->
  (forall a w1, good a -> stdout w1 = stdout w0 -> responds w0 (k a w1)) ->
  responds w0 (bind m k w).
Proof.
  unfold bind. destruct (m w) as [[a|e|code] w1]; cbn [silently].
  - intros [Hg Hs] Hk. apply Hk; assumption.
  - intros Hs _. exact Hs.
  - intros [].
Qed.

Lemma check_rate_limit_outcome (w0 w : world) :
  stdout w = stdout w0 -> silently (fun _ => True) w0 (_check_rate_limit w).
Proof.
  intros Hs. unfold _check_rate_limit, bind, time_monotonic.
  destruct (check_rate_limit_at (monotonic (clock w))
              (action_timestamps (tick w))) as [allowed timestamps].
  cbn [silently]. split; [exact I|exact Hs].
Qed.

Lemma py_int_outcome (v : json) (w0 w : world) :
  stdout w = stdout w0 -> silently (fun _ => True) w0 (py_int v w).
Proof.
  intros Hs. unfold py_int. destruct (int_of v); cbn [silently ret raise]; auto.
Qed.

Lemma click_at_outcome (x y : Z) (w0 w : world) :
  stdout w = stdout w0 -> silently (fun _ => True) w0 (click_at x y w).
Proof.
  intros Hs. unfold click_at.
  apply (silently_bind _ _ (fun _ => True)); [apply inject_outcome; exact Hs|].
  intros _ w1 _ Hs1.
  apply (silently_bind _ _ (fun _ => True)); [apply inject_outcome; exact Hs1|].
  intros _ w2 _ Hs2.
  apply (silently_bind _ _ (fun _ => True)); [apply inject_outcome; exact Hs2|].
  intros _ w3 _ Hs3. apply inject_outcome. exact Hs3.
Qed.

Lemma type_action_responds (items : list (pystr * json)) (w0 w : world) :
  stdout w = stdout w0 -> responds w0 (type_action items w).
Proof.
  intros Hs. unfold type_action.
  destruct (is_None (dict_get items (lit "text")));
    [apply responds_send; exact Hs|].
  destruct (dict_get items (lit "text")) as [| | | |text| |];
    try (apply responds_send; exact Hs).
  destruct (Z.of_nat (length text) >? MAX_TEXT_LENGTH);
    [apply responds_send; exact Hs|].
  destruct (length text =? 0)%nat; [apply responds_send; exact Hs|].
  apply (responds_bind _ _ (fun _ => True)).
  - apply (silently_stdout _ w0 w _ Hs).
    pose proof (type_text_outcome text
                  (dict_get_default items (lit "delay") default_delay) w) as H.
    destruct (type_text text
                (dict_get_default items (lit "delay") default_delay) w)
      as [[typed|e|code] w1]; cbn [silently] in *; tauto.
  - intros typed w1 _ Hs1. apply responds_send. exact Hs1.
Qed.

Lemma click_action_responds (items : list (pystr * json)) (w0 w : world) :
  stdout w = stdout w0 -> responds w0 (click_action items w).
Proof.
  intros Hs. unfold click_action.
  destruct (is_None (dict_get items (lit "x")) ||
            is_None (dict_get items (lit "y")));
    [apply responds_send; exact Hs|].
  apply (responds_bind _ _ (fun _ => True)); [apply py_int_outcome; exact Hs|].
  intros x w1 _ Hs1.
  apply (responds_bind _ _ (fun _ => True)); [apply py_int_outcome; exact Hs1|].
  intros y w2 _ Hs2.
  apply (responds_bind _ _ (fun _ => True)); [apply click_at_outcome; exact Hs2|].
  intros _ w3 _ Hs3. apply responds_send. exact Hs3.
Qed.

Lemma try_body_responds (message : json) (w : world) :
  responds w (try_body message w).
Proof.
  unfold try_body.
  apply (responds_bind _ _ (fun _ => True));
    [apply check_rate_limit_outcome; reflexivity|].
  intros allowed w1 _ Hs1.
  destruct (negb allowed); [apply responds_send; exact Hs1|].
  destruct message as [| | | | | |items];
    try (apply responds_raise; exact Hs1).
  destruct (resolve_action items) as [action|];
    [|apply responds_send; exact Hs1].
  destruct (eq_str action (lit "type"));
    [apply type_action_responds; exact Hs1|].
  destruct (eq_str action (lit "click"));
    [apply click_action_responds; exact Hs1|].
  apply responds_send. exact Hs1.
Qed.

(** What [send_message] raises, when it raises. *)
Lemma send_message_raises (r : response) (w w' : world) (e : exn) :
  send_message r w = (Raise e, w') -> exn_class_of e = StructError.
Proof.
  unfold send_message. rewrite encoded_response. cbv beta iota.
  destruct (struct_pack_I native_order
              (Z.of_nat (length (map byte_of_N (json_dumps r))))).
  - unfold bind, stdout_write. discriminate.
  - unfold raise. intros H. assert (Raise (A := unit)
      (fault_exn (PackRange (Z.of_nat (length (map byte_of_N (json_dumps r))))))
      = Raise e) as He by congruence.
    assert (fault_exn (PackRange
              (Z.of_nat (length (map byte_of_N (json_dumps r))))) = e) as <-
      by congruence.
    reflexivity.
Qed.

Lemma process_responds (message : json) (w : world) :
  responds w (process message w).
Proof.
  unfold process, try_except.
  pose proof (try_body_responds message w) as H.
  destruct (try_body message w) as [[[]|e|code] w1]; cbn [responds] in H.
  - exact H.
  - destruct (is_JSONDecodeError e); apply responds_send; exact H.
  - contradiction.
Qed.

(** The dispatcher in the main thread, when nothing ends the process: it does
    not exit; when it returns it has written the frame of one response and
    nothing else; the one exception it lets escape is the [struct.error] of a
    response of [2^32] bytes or more, and then it has written nothing. *)
Lemma process_outcome (message : json) (w : world) :
  match process message w with
  | (Ret _, w') => exists r, answered_with w w' r
  | (Raise e, w') => exn_class_of e = StructError /\ stdout w' = stdout w
  | (SysExit _, _) => False
  end.
Proof.
  pose proof (process_responds message w) as H.
  destruct (process message w) as [[[]|e|code] w'] eqn:Hrun;
    cbn [responds] in H; [exact H| |exact H].
  split; [|exact H].
  unfold process, try_except in Hrun.
  destruct (try_body message w) as [[[]|e1|code1] w1]; [discriminate| |discriminate].
  destruct (is_JSONDecodeError e1);
    apply (send_message_raises _ _ _ _ Hrun).
Qed.

Lemma read_message_outcome (w : world) :
  match read_message w with
  | (SysExit code, w') => stdout w' = stdout w /\ (code = 0 \/ code = 1)
  | (_, w') => stdout w' = stdout w
  end.
Proof.
  unfold read_message, read_frame, bind at 1 2, stdin_read at 1.
  destruct (length (firstn 4 (stdin w)) =? 0)%nat; [split; auto|].
  destruct (length (firstn 4 (stdin w)) <? 4)%nat; [split; auto|].
  cbv zeta.
  destruct (struct_unpack_I native_order (firstn 4 (stdin w)) >? MAX_MESSAGE_BYTES);
    [reflexivity|].
  unfold bind, stdin_read.
  match goal with
  | |- context [if ?b then _ else _] => destruct b
  end; [split; auto|].
  unfold ret, decode_message.
  match goal with
  | |- context [py_loads ?raw] => destruct (py_loads raw)
  end; reflexivity.
Qed.

Lemma main_iteration_outcome (w : world) :
  match main_iteration w with
  | (Ret _, w') => exists r, answered_with w w' r
  | (Raise _, w') => stdout w' = stdout w
  | (SysExit code, w') => stdout w' = stdout w /\ (code = 0 \/ code = 1)
  end.
Proof.
  pose proof (read_message_outcome w) as Hread.
  destruct (read_message w) as [[message|e|code] w1] eqn:Hr.
  - rewrite (main_iteration_decoded w w1 message Hr).
    pose proof (process_responds message
                  (set_last_activity (tick w1) (monotonic (clock w1)))) as H.
    apply (responds_stdout w) in H; [|exact Hread].
    destruct (process message _) as [[[]|e|code] w2]; cbn [responds] in H;
      [exact H|exact H|contradiction].
  - destruct (is_ValueError e) eqn:He.
    + rewrite (main_iteration_value_error w w1 e Hr He).
      destruct (send_message_outcome (RespError (exn_text e)) w1)
        as [[out [Hout ->]]|[e' ->]].
      * exists (RespError (exn_text e)), out.
        split; [exact Hout|]. cbn [set_stdout stdout]. rewrite Hread.
        reflexivity.
      * exact Hread.
    + unfold main_iteration, bind, try_except, bind.
      rewrite Hr, He. exact Hread.
  - unfold main_iteration, bind, try_except, bind. rewrite Hr. exact Hread.
Qed.

Lemma wrote_responses_cons (w w1 w' : world) (r : response) (count : nat) :
  answered_with w w1 r -> wrote_responses w1 w' count ->
  wrote_responses w w' (S count).
Proof.
  intros [out [Hout Hs]] [responses [outs [Hlen [Hall Hs']]]].
  exists (r :: responses), (out :: outs). split; [cbn [length]; lia|].
  split; [constructor; assumption|].
  rewrite Hs', Hs. cbn [concat]. rewrite app_assoc. reflexivity.
Qed.

Lemma wrote_responses_none (w w' : world) :
  stdout w' = stdout w -> wrote_responses w w' 0.
Proof.
  intros Hs. exists [], []. split; [reflexivity|]. split; [constructor|].
  cbn [concat]. rewrite app_nil_r. exact Hs.
Qed.

(** The loop in the main thread, when nothing ends the process: after any
    number of turns the bytes written are the frames of as many responses as
    turns were completed; the turn that ends the loop writes nothing, and
    [sys.exit] is called with the code 0 or 1. *)
Lemma main_loop_wrote_responses (turns : nat) (w : world) :
  match main_loop turns w with
  | Running w' => wrote_responses w w' turns
  | Exited code w' =>
      (code = 0 \/ code = 1) /\
      exists count, (count < turns)%nat /\ wrote_responses w w' count
  | Crashed _ w' =>
      exists count, (count < turns)%nat /\ wrote_responses w w' count
  end.
Proof.
  revert w. induction turns as [|turns IH]; intros w.
  - cbn [main_loop]. apply wrote_responses_none. reflexivity.
  - cbn [main_loop]. pose proof (main_iteration_outcome w) as Hturn.
    destruct (main_iteration w) as [[[]|e|code] w1].
    + destruct Hturn as [r Hr]. specialize (IH w1).
      destruct (main_loop turns w1) as [w'|code w'|e w'].
      * apply (wrote_responses_cons w w1 w' r turns Hr IH).
      * destruct IH as [Hcode [count [Hlt Hw]]]. split; [exact Hcode|].
        exists (S count). split; [lia|].
        apply (wrote_responses_cons w w1 w' r count Hr Hw).
      * destruct IH as [count [Hlt Hw]].
        exists (S count). split; [lia|].
        apply (wrote_responses_cons w w1 w' r count Hr Hw).
    + exists 0%nat. split; [lia|]. apply wrote_responses_none. exact Hturn.
    + destruct Hturn as [Hs Hcode]. split; [exact Hcode|].
      exists 0%nat. split; [lia|]. apply wrote_responses_none. exact Hs.
Qed.

End Responses.

(** ** What a turn reads *)

Section Stdin.

Context {P : Platform}.

Lemma stdin_ret {A} (a : A) : keeps_stdin (ret a).
Proof. intros w; reflexivity. Qed.

Lemma stdin_raise {A} (e : exn) : keeps_stdin (raise (A := A) e).
Proof. intros w; reflexivity. Qed.

Lemma stdin_bind {A B} (m : M A) (k : A -> M B) :
  keeps_stdin m -> (forall a, keeps_stdin (k a)) -> keeps_stdin (bind m k).
Proof.
  intros Hm Hk w. unfold bind. specialize (Hm w).
  destruct (m w) as [[a|e|code] w']; cbn [snd] in *; try exact Hm.
  rewrite (Hk a w'). exact Hm.
Qed.

Lemma stdin_try_except {A} (m : M A) (catches : exn -> bool)
    (handler : exn -> M A) :
  keeps_stdin m -> (forall e, keeps_stdin (handler e)) ->
  keeps_stdin (try_except m catches handler).
Proof.
  intros Hm Hh w. unfold try_except. specialize (Hm w).
  destruct (m w) as [[a|e|code] w']; cbn [snd] in *; try exact Hm.
  destruct (catches e); [|exact Hm]. rewrite (Hh e w'). exact Hm.
Qed.

Lemma stdin_stdout_write (data : bytes) : keeps_stdin (stdout_write data).
Proof. intros w; reflexivity. Qed.

Lemma stdin_time_monotonic : keeps_stdin time_monotonic.
Proof. intros w; reflexivity. Qed.

Lemma stdin_inject (ev : event) : keeps_stdin (inject ev).
Proof.
  intros w. unfold inject. destruct (inj_raises (injected w) ev); reflexivity.
Qed.

Create HintDb stdin.

#[local] Hint Resolve stdin_ret stdin_raise stdin_stdout_write
  stdin_time_monotonic stdin_inject : stdin.

Ltac stdin :=
  repeat first
    [ solve [auto with stdin]
    | apply stdin_bind; [|intros ?]
    | apply stdin_try_except; [|intros ?]
    | match goal with
      | |- keeps_stdin (if ?b then _ else _) => destruct b
      | |- keeps_stdin (match ?x with _ => _ end) => destruct x
      end ].

Lemma stdin_send_message (r : response) : keeps_stdin (send_message r).
Proof. unfold send_message. stdin. Qed.

Lemma stdin_check_rate_limit : keeps_stdin _check_rate_limit.
Proof.
  unfold _check_rate_limit. apply stdin_bind; [auto with stdin|].
  intros now w.
  destruct (check_rate_limit_at now (action_timestamps w)); reflexivity.
Qed.

#[local] Hint Resolve stdin_send_message stdin_check_rate_limit : stdin.

Lemma stdin_type_chars (text : pystr) (delay : json) (count : Z) :
  keeps_stdin (type_chars text delay count).
Proof.
  revert count. induction text as [|char text IH]; intros count;
    cbn [type_chars]; unfold py_gt_zero; stdin.
Qed.

#[local] Hint Resolve stdin_type_chars : stdin.

(** The dispatcher reads nothing from [stdin]. *)
Lemma stdin_process (message : json) : keeps_stdin (process message).
Proof.
  unfold process, try_body, type_action, click_action, type_text, click_at,
    py_int.
  stdin.
Qed.

(** X18: a turn of the loop takes exactly one frame from [stdin].  When a
    whole frame within the size limit arrives, the turn leaves on [stdin] the
    bytes that follow the frame, whatever the payload is: a payload that is
    not JSON, a request that is denied or one whose handling fails cannot shift
    the reading of the frames that follow. *)
Theorem X18_turn_takes_exactly_one_frame (w : world) (payload rest : bytes) :
  arrives w payload rest ->
  Z.of_nat (length payload) <= MAX_MESSAGE_BYTES ->
  stdin (snd (main_iteration w)) = rest.
Proof.
  intros Ha Hmax.
  pose proof (read_message_arrives w payload rest Ha Hmax) as Hread.
  destruct (py_loads payload) as [message|e].
  - rewrite (main_iteration_decoded w _ message Hread).
    rewrite (stdin_process message). reflexivity.
  - destruct (is_ValueError e) eqn:He.
    + rewrite (main_iteration_value_error w _ e Hread He).
      pose proof (stdin_send_message (RespError (exn_text e)) (set_stdin w rest))
        as Hs.
      destruct (send_message (RespError (exn_text e)) (set_stdin w rest))
        as [[[]|e'|code] w']; exact Hs.
    + unfold main_iteration, bind, try_except, bind. rewrite Hread, He.
      reflexivity.
Qed.

End Stdin.

Lemma X18_turn_takes_exactly_one_frame_witness :
  stdin (snd (main_iteration (P := Reference.quiet)
                (main_start (P := Reference.quiet)
                   (Reference.frame "{" ++ [x41])))) = [x41].
Proof.
  apply (X18_turn_takes_exactly_one_frame (P := Reference.quiet)
           (main_start (P := Reference.quiet) (Reference.frame "{" ++ [x41]))
           (Reference.ascii_bytes "{") [x41]).
  - exists (Reference.frame "{"). split; vm_compute; reflexivity.
  - vm_compute. discriminate.
Defined.

(** ** The assignments to [last_activity[0]] *)

(** X19: [last_activity[0]] is refreshed by the frames that are decoded, and
    by nothing else.  A frame that is read and decoded refreshes it exactly
    once, with the clock reading that follows the read, whatever the decoded
    value is and whatever the dispatcher does with it: a request that the rate
    limiter denies, one that is refused and one whose handling raises count as
    activity.  A turn in which [read_message] returns no value leaves it as it
    was: a frame that is oversized, one whose payload is not UTF-8 or not JSON,
    and the end of the input do not count as activity. *)
Theorem X19_last_activity_is_refreshed_by_decoded_frames {P : Platform}
    (w : world) :
  (forall payload rest message,
     arrives w payload rest ->
     Z.of_nat (length payload) <= MAX_MESSAGE_BYTES ->
     py_loads payload = Loaded message ->
     activity_writes (snd (main_iteration w)) = S (activity_writes w) /\
     last_activity (snd (main_iteration w)) = monotonic (clock w)) /\
  ((forall message w', read_message w <> (Ret message, w')) ->
   activity_writes (snd (main_iteration w)) = activity_writes w /\
   last_activity (snd (main_iteration w)) = last_activity w).
Proof.
  split.
  - intros payload rest message Ha Hmax Hloads.
    apply (decoded_frame_updates_last_activity w payload rest message Ha Hmax
             Hloads).
  - apply unread_frame_keeps_last_activity.
Qed.

Lemma X19_last_activity_is_refreshed_by_decoded_frames_witness :
  (activity_writes
     (snd (main_iteration (P := Reference.quiet)
             (main_start (P := Reference.quiet) (Reference.frame "[]")))) =
     S (activity_writes (main_start (P := Reference.quiet) (Reference.frame "[]")))
   /\
   last_activity
     (snd (main_iteration (P := Reference.quiet)
             (main_start (P := Reference.quiet) (Reference.frame "[]")))) =
     monotonic (Platform := Reference.quiet)
       (clock (main_start (P := Reference.quiet) (Reference.frame "[]")))) /\
  (activity_writes
     (snd (main_iteration (P := Reference.quiet)
             (main_start (P := Reference.quiet) [x01; x00; x10; x00; x41]))) =
     activity_writes (main_start (P := Reference.quiet) [x01; x00; x10; x00; x41])
   /\
   last_activity
     (snd (main_iteration (P := Reference.quiet)
             (main_start (P := Reference.quiet) [x01; x00; x10; x00; x41]))) =
     last_activity (main_start (P := Reference.quiet) [x01; x00; x10; x00; x41])).
Proof.
  split.
  - apply (proj1 (X19_last_activity_is_refreshed_by_decoded_frames
                    (P := Reference.quiet)
                    (main_start (P := Reference.quiet) (Reference.frame "[]")))
             (Reference.ascii_bytes "[]") [] (JList [])).
    + exists (Reference.frame "[]"). split; vm_compute; reflexivity.
    + vm_compute. discriminate.
    + vm_compute. reflexivity.
  - apply (proj2 (X19_last_activity_is_refreshed_by_decoded_frames
                    (P := Reference.quiet)
                    (main_start (P := Reference.quiet)
                       [x01; x00; x10; x00; x41]))).
    intros message w' Hread.
    rewrite (read_message_oversized (P := Reference.quiet)
               (main_start (P := Reference.quiet) [x01; x00; x10; x00; x41])
               [x01; x00; x10; x00] [x41] eq_refl eq_refl) in Hread.
    + discriminate Hread.
    + vm_compute. reflexivity.
Defined.

(** ** When the injector raises *)

Section InjectorFailure.

Context {P : Platform}.

Lemma add_calls_nil (w : world) : add_calls w [] = w.
Proof. destruct w. world_eq. Qed.

Lemma attempt_app (before rest : list event) :
  forall history,
    calls_succeed history before ->
    attempt history (before ++ rest) =
    (before ++ fst (attempt (history ++ before) rest),
     snd (attempt (history ++ before) rest)).
Proof.
  induction before as [|ev before IH]; intros history Hok.
  - cbn [app]. rewrite app_nil_r. destruct (attempt history rest); reflexivity.
  - cbn [calls_succeed] in Hok. destruct Hok as [Hev Hok].
    cbn [app attempt]. rewrite Hev, (IH _ Hok), <- app_assoc. reflexivity.
Qed.

(** The calls up to the first that raises are made, that one included, and
    no other. *)
Lemma attempt_fails (before after : list event) (ev : event) (e : exn)
    (history : list event) :
  calls_succeed history before ->
  inj_raises (history ++ before) ev = Some e ->
  attempt history (before ++ ev :: after) = (before ++ [ev], Some e).
Proof.
  intros Hok Hev. rewrite (attempt_app before (ev :: after) history Hok).
  cbn [attempt]. rewrite Hev. reflexivity.
Qed.

Lemma inject_attempt (ev : event) (w : world) :
  inject ev w =
  match inj_raises (injected w) ev with
  | Some e => (Raise e, add_calls w [ev])
  | None => (Ret tt, add_calls w [ev])
  end.
Proof. unfold inject. destruct (inj_raises (injected w) ev); reflexivity. Qed.

Lemma type_chars_attempt (text : pystr) (delay : json) (positive : bool) :
  gt_zero delay = Some positive ->
  forall (count : Z) (w : world),
    type_chars text delay count w =
    match attempt (injected w)
            (flat_map (fun char => KeyType char :: pause delay) text) with
    | (made, None) => (Ret (count + Z.of_nat (length text)), add_calls w made)
    | (made, Some e) => (Raise e, add_calls w made)
    end.
Proof.
  intros Hd.
  assert (pause delay = if positive then [Sleep delay] else []) as Hp.
  { unfold pause. rewrite Hd. destruct positive; reflexivity. }
  rewrite Hp. clear Hp.
  induction text as [|char text IH]; intros count w.
  - cbn [flat_map attempt type_chars length]. unfold ret.
    rewrite add_calls_nil, Z.add_0_r. reflexivity.
  - cbn [flat_map app type_chars attempt]. unfold bind at 1.
    rewrite inject_attempt.
    destruct (inj_raises (injected w) (KeyType char)) as [e|]; [reflexivity|].
    unfold bind at 1, py_gt_zero. rewrite Hd. unfold ret at 1.
    destruct positive; cbn [app attempt].
    + unfold bind at 1. rewrite inject_attempt. cbn [add_calls injected].
      destruct (inj_raises (injected w ++ [KeyType char]) (Sleep delay))
        as [e|]; [rewrite add_calls_app; reflexivity|].
      rewrite IH, add_calls_app. cbn [add_calls injected].
      rewrite (app_assoc (injected w) [KeyType char] [Sleep delay]).
      match goal with
      | |- context [attempt ?h ?c] => destruct (attempt h c) as [made [e|]]
      end; rewrite add_calls_app; cbn [app length]; [reflexivity|].
      f_equal. f_equal. lia.
    + unfold bind at 1, ret at 1. rewrite IH. cbn [add_calls injected].
      match goal with
      | |- context [attempt ?h ?c] => destruct (attempt h c) as [made [e|]]
      end; rewrite add_calls_app; cbn [app length]; [reflexivity|].
      f_equal. f_equal. lia.
Qed.

Lemma type_text_attempt (text : pystr) (delay : json) (positive : bool)
    (w : world) :
  gt_zero delay = Some positive ->
  type_text text delay w =
  match attempt (injected w) (typing_calls text delay) with
  | (made, None) => (Ret (Z.of_nat (length text)), add_calls w made)
  | (made, Some e) => (Raise e, add_calls w made)
  end.
Proof.
  intros Hd. unfold type_text, typing_calls, bind. cbn [attempt].
  rewrite inject_attempt.
  destruct (inj_raises (injected w) KeyboardController) as [e|];
    [reflexivity|].
  rewrite (type_chars_attempt text delay positive Hd). cbn [add_calls injected].
  match goal with
  | |- context [attempt ?h ?c] => destruct (attempt h c) as [made [e|]]
  end; rewrite add_calls_app; reflexivity.
Qed.

Lemma click_at_attempt (x y : Z) (w : world) :
  click_at x y w =
  match attempt (injected w) (clicking_calls x y) with
  | (made, None) => (Ret tt, add_calls w made)
  | (made, Some e) => (Raise e, add_calls w made)
  end.
Proof.
  unfold click_at, clicking_calls. cbn [attempt].
  unfold bind at 1. rewrite inject_attempt.
  destruct (inj_raises (injected w) MouseController) as [e|]; [reflexivity|].
  unfold bind at 1. rewrite inject_attempt. cbn [add_calls injected].
  destruct (inj_raises (injected w ++ [MouseController]) (MouseMove x y))
    as [e|]; [rewrite add_calls_app; reflexivity|].
  unfold bind at 1. rewrite inject_attempt. cbn [add_calls injected].
  destruct (inj_raises ((injected w ++ [MouseController]) ++ [MouseMove x y])
              (Sleep (JFloat (Finite (1 # 20))))) as [e|];
    [rewrite !add_calls_app; reflexivity|].
  rewrite inject_attempt. cbn [add_calls injected].
  destruct (inj_raises _ MouseClick) as [e|]; rewrite !add_calls_app;
    reflexivity.
Qed.

(** An admitted request whose handling raises an exception after the
    injector calls [made]: a handler answers with its text. *)
Lemma process_raises (message : json) (w w1 : world) (timestamps : list Q)
    (made : list event) (e : exn) :
  try_body message w =
    (Raise e, add_calls (set_timestamps (tick w) timestamps) made) ->
  is_JSONDecodeError e = false ->
  Z.of_nat (length (exn_text e)) < 2 ^ 28 ->
  exists out,
    wire (RespError (exn_text e)) = Some out /\
    process message w = (Ret tt, dispatched w timestamps made out).
Proof.
  intros Hbody Hclass Hlen. destruct (wire_error_wide _ Hlen) as [out Hout].
  exists out. split; [exact Hout|].
  unfold process, try_except. rewrite Hbody, Hclass.
  rewrite (send_message_wire _ out _ Hout). world_eq.
Qed.

(** X20: when a call of the injector raises while a text is typed, the
    typing stops there: the calls before it and the call that raised are the
    only ones made, no later character is typed, and the response is an error
    with the text of the exception instead of a count. *)
Theorem X20_injector_failure_stops_the_typing (items : list (pystr * json))
    (text : pystr) (delay : json) (positive : bool) (w : world)
    (timestamps : list Q) (before after : list event) (ev : event) (e : exn) :
  admitted w timestamps ->
  request_of "type" items ->
  dict_get items (lit "text") = JStr text ->
  0 < Z.of_nat (length text) <= MAX_TEXT_LENGTH ->
  dict_get_default items (lit "delay") default_delay = delay ->
  gt_zero delay = Some positive ->
  typing_calls text delay = before ++ ev :: after ->
  calls_succeed (injected w) before ->
  inj_raises (injected w ++ before) ev = Some e ->
  is_JSONDecodeError e = false ->
  Z.of_nat (length (exn_text e)) < 2 ^ 28 ->
  exists out,
    wire (RespError (exn_text e)) = Some out /\
    process (JDict items) w =
      (Ret tt, dispatched w timestamps (before ++ [ev]) out).
Proof.
  intros Ha Hreq Htext [Hpos Hmax] Hdelay Hgt Hsplit Hok Hev Hclass Hlen.
  apply (process_raises (JDict items) w w timestamps (before ++ [ev]) e);
    [|exact Hclass|exact Hlen].
  rewrite (try_body_type items w timestamps Ha Hreq).
  unfold type_action. rewrite Htext. cbn [is_None].
  rewrite (gtb_false _ _ Hmax).
  assert ((length text =? 0)%nat = false) as -> by (apply Nat.eqb_neq; lia).
  rewrite Hdelay. unfold bind.
  rewrite (type_text_attempt text delay positive _ Hgt), Hsplit.
  cbn [set_timestamps tick injected].
  rewrite (attempt_fails before after ev e (injected w) Hok Hev).
  reflexivity.
Qed.

(** X21: the [delay] of a type request is first looked at after the first
    character has been typed.  With a [delay] that does not compare with 0 (a
    string, a list, [null] given explicitly) the first character of the text
    goes to the injector, the comparison raises, no other character is typed,
    and the response is an error with the text of the exception. *)
Theorem X21_delay_is_looked_at_after_the_first_character
    (items : list (pystr * json)) (char : codepoint) (rest : pystr)
    (delay : json) (w : world) (timestamps : list Q) :
  admitted w timestamps ->
  request_of "type" items ->
  dict_get items (lit "text") = JStr (char :: rest) ->
  Z.of_nat (length (char :: rest)) <= MAX_TEXT_LENGTH ->
  dict_get_default items (lit "delay") default_delay = delay ->
  gt_zero delay = None ->
  calls_succeed (injected w) [KeyboardController; KeyType char] ->
  Z.of_nat (length (fault_text (NotOrdered delay))) < 2 ^ 28 ->
  exists out,
    wire (RespError (fault_text (NotOrdered delay))) = Some out /\
    process (JDict items) w =
      (Ret tt, dispatched w timestamps [KeyboardController; KeyType char] out).
Proof.
  intros Ha Hreq Htext Hmax Hdelay Hgt Hok Hlen.
  cbn [calls_succeed] in Hok. destruct Hok as [Hctl [Hkey _]].
  apply (process_raises (JDict items) w w timestamps
           [KeyboardController; KeyType char] (fault_exn (NotOrdered delay)));
    [|reflexivity|exact Hlen].
  rewrite (try_body_type items w timestamps Ha Hreq).
  unfold type_action. rewrite Htext. cbn [is_None].
  rewrite (gtb_false _ _ Hmax).
  change ((length (char :: rest) =? 0)%nat) with false. cbv iota.
  rewrite Hdelay. unfold bind at 1. unfold type_text, bind at 1.
  rewrite inject_attempt. cbn [set_timestamps tick injected]. rewrite Hctl.
  cbn [type_chars]. unfold bind at 1. rewrite inject_attempt.
  cbn [add_calls set_timestamps tick injected]. rewrite Hkey.
  unfold bind at 1, py_gt_zero. rewrite Hgt. unfold raise.
  rewrite add_calls_app. reflexivity.
Qed.

(** X22: when a call of the injector raises during a click, the calls that
    follow it are not made (a pointer that cannot be moved is not clicked), and
    the response is an error with the text of the exception. *)
Theorem X22_injector_failure_stops_the_click (items : list (pystr * json))
    (vx vy : json) (x y : Z) (w : world) (timestamps : list Q)
    (before after : list event) (ev : event) (e : exn) :
  admitted w timestamps ->
  request_of "click" items ->
  dict_get items (lit "x") = vx -> dict_get items (lit "y") = vy ->
  vx <> JNull -> vy <> JNull ->
  int_of vx = Some x -> int_of vy = Some y ->
  clicking_calls x y = before ++ ev :: after ->
  calls_succeed (injected w) before ->
  inj_raises (injected w ++ before) ev = Some e ->
  is_JSONDecodeError e = false ->
  Z.of_nat (length (exn_text e)) < 2 ^ 28 ->
  exists out,
    wire (RespError (exn_text e)) = Some out /\
    process (JDict items) w =
      (Ret tt, dispatched w timestamps (before ++ [ev]) out).
Proof.
  intros Ha Hreq Hx Hy Hnx Hny Hix Hiy Hsplit Hok Hev Hclass Hlen.
  apply (process_raises (JDict items) w w timestamps (before ++ [ev]) e);
    [|exact Hclass|exact Hlen].
  rewrite (click_clicked items vx vy x y w timestamps Ha Hreq Hx Hy Hnx Hny
             Hix Hiy).
  unfold bind. rewrite click_at_attempt, Hsplit.
  cbn [set_timestamps tick injected].
  rewrite (attempt_fails before after ev e (injected w) Hok Hev).
  reflexivity.
Qed.

End InjectorFailure.

Lemma X20_injector_failure_stops_the_typing_witness :
  exists out,
    wire (P := Reference.stuck) (RespError (lit "key refused")) = Some out /\
    process (P := Reference.stuck)
      (JDict [(lit "text", JStr (lit "abc"))])
      (main_start (P := Reference.stuck) []) =
    (Ret tt,
     dispatched (main_start (P := Reference.stuck) []) [(1 # 1000)%Q]
       ([KeyboardController; KeyType 97; Sleep (JFloat (Finite (1 # 20)))] ++
        [KeyType 98]) out).
Proof.
  apply (X20_injector_failure_stops_the_typing (P := Reference.stuck)
           [(lit "text", JStr (lit "abc"))] (lit "abc")
           (JFloat (Finite (1 # 20))) true
           (main_start (P := Reference.stuck) []) [(1 # 1000)%Q]
           [KeyboardController; KeyType 97; Sleep (JFloat (Finite (1 # 20)))]
           [Sleep (JFloat (Finite (1 # 20))); KeyType 99;
            Sleep (JFloat (Finite (1 # 20)))]
           (KeyType 98) (mk_exn OtherException (lit "key refused"))).
  - reflexivity.
  - exists (JStr (lit "type")). split; reflexivity.
  - reflexivity.
  - unfold MAX_TEXT_LENGTH. cbn. lia.
  - reflexivity.
  - reflexivity.
  - reflexivity.
  - cbn. repeat split.
  - reflexivity.
  - reflexivity.
  - vm_compute. reflexivity.
Defined.

Lemma X21_delay_is_looked_at_after_the_first_character_witness :
  exists out,
    wire (P := Reference.quiet)
      (RespError (fault_text (Platform := Reference.quiet) (NotOrdered JNull))) =
      Some out /\
    process (P := Reference.quiet)
      (JDict [(lit "text", JStr (lit "ab")); (lit "delay", JNull)])
      (main_start (P := Reference.quiet) []) =
    (Ret tt,
     dispatched (main_start (P := Reference.quiet) []) [(1 # 1000)%Q]
       [KeyboardController; KeyType 97] out).
Proof.
  apply (X21_delay_is_looked_at_after_the_first_character
           (P := Reference.quiet)
           [(lit "text", JStr (lit "ab")); (lit "delay", JNull)]
           97%N (lit "b") JNull).
  - reflexivity.
  - exists (JStr (lit "type")). split; reflexivity.
  - reflexivity.
  - unfold MAX_TEXT_LENGTH. cbn. lia.
  - reflexivity.
  - reflexivity.
  - cbn. repeat split.
  - vm_compute. reflexivity.
Defined.

Lemma X22_injector_failure_stops_the_click_witness :
  exists out,
    wire (P := Reference.pinned) (RespError (lit "pointer refused")) = Some out /\
    process (P := Reference.pinned)
      (JDict [(lit "action", JStr (lit "click")); (lit "x", JInt 3);
              (lit "y", JInt 4)])
      (main_start (P := Reference.pinned) []) =
    (Ret tt,
     dispatched (main_start (P := Reference.pinned) []) [(1 # 1000)%Q]
       ([MouseController] ++ [MouseMove 3 4]) out).
Proof.
  apply (X22_injector_failure_stops_the_click (P := Reference.pinned)
           [(lit "action", JStr (lit "click")); (lit "x", JInt 3);
            (lit "y", JInt 4)]
           (JInt 3) (JInt 4) 3 4
           (main_start (P := Reference.pinned) []) [(1 # 1000)%Q]
           [MouseController]
           [Sleep (JFloat (Finite (1 # 20))); MouseClick]
           (MouseMove 3 4) (mk_exn OtherException (lit "pointer refused"))).
  - reflexivity.
  - exists (JStr (lit "click")). split; reflexivity.
  - reflexivity.
  - reflexivity.
  - discriminate.
  - discriminate.
  - reflexivity.
  - reflexivity.
  - reflexivity.
  - cbn. repeat split.
  - reflexivity.
  - reflexivity.
  - vm_compute. reflexivity.
Defined.

(** ** The idle watchdog *)

Lemma watchdog_turn_cases (now last_activity : Q) :
  match watchdog_turn now last_activity with
  | WatchdogExit code => code = 0 /\ (300 <= now - last_activity)%Q
  | WatchdogSleep seconds =>
      (now - last_activity < 300)%Q /\ (0 < seconds)%Q /\ (seconds <= 10)%Q /\
      (now + seconds <= last_activity + 300)%Q /\
      (last_activity + 290 <= now -> now + seconds == last_activity + 300)%Q /\
      (now < last_activity + 290 -> seconds == 10)%Q
  end.
Proof.
  unfold watchdog_turn, IDLE_TIMEOUT_SECONDS.
  change (inject_Z 300) with 300%Q.
  destruct (Qle_bool (300 - (now - last_activity)) 0) eqn:E.
  - apply Qle_bool_iff in E. split; [reflexivity|lra].
  - assert (~ (300 - (now - last_activity) <= 0)%Q) as Hpos.
    { intros H. apply Qle_bool_iff in H. congruence. }
    destruct (Qle_bool (300 - (now - last_activity)) 10) eqn:E'.
    + apply Qle_bool_iff in E'. repeat split; try lra.
    + assert (~ (300 - (now - last_activity) <= 10)%Q) as Hbig.
      { intros H. apply Qle_bool_iff in H. congruence. }
      repeat split; try lra.
Qed.

(** X23: one turn of the watchdog.  It ends the process, with the exit code
    0, exactly when the last activity it reads is 300 seconds old or older;
    otherwise it sleeps for a positive time of at most 10 seconds that never
    ends after the moment at which the activity will be 300 seconds old. *)
Theorem X23_watchdog_turn_is_never_early (now last_activity : Q) :
  match watchdog_turn now last_activity with
  | WatchdogExit code => code = 0 /\ (300 <= now - last_activity)%Q
  | WatchdogSleep seconds =>
      (now - last_activity < 300)%Q /\ (0 < seconds)%Q /\ (seconds <= 10)%Q /\
      (now + seconds <= last_activity + 300)%Q
  end.
Proof.
  pose proof (watchdog_turn_cases now last_activity) as H.
  destruct (watchdog_turn now last_activity); tauto.
Qed.

Lemma watchdog_exits_within (observe : nat -> Q * Q) (since : Q) (turns : nat) :
  sleeps_honoured observe ->
  forall wake,
    (forall k, (wake <= k)%nat -> snd (observe k) = since) ->
    (300 - (fst (observe wake) - since) <= 10 * inject_Z (Z.of_nat turns))%Q ->
    exists k,
      (wake <= k <= wake + turns)%nat /\
      watchdog observe wake (S turns) = Some (k, 0) /\
      (300 <= fst (observe k) - since)%Q.
Proof.
  intros Hsleep. induction turns as [|turns IH]; intros wake Hidle Hleft.
  - exists wake. split; [lia|].
    cbn [watchdog]. rewrite (Hidle wake (Nat.le_refl wake)).
    pose proof (watchdog_turn_cases (fst (observe wake)) since) as Hturn.
    change (inject_Z (Z.of_nat 0)) with 0%Q in Hleft.
    destruct (watchdog_turn (fst (observe wake)) since) as [code|seconds].
    + destruct Hturn as [-> Hold]. split; [reflexivity|exact Hold].
    + exfalso. lra.
  - pose proof (watchdog_turn_cases (fst (observe wake)) since) as Hturn.
    pose proof (Hsleep wake) as Hwake.
    rewrite (Hidle wake (Nat.le_refl wake)) in Hwake.
    cbn [watchdog]. rewrite (Hidle wake (Nat.le_refl wake)).
    destruct (watchdog_turn (fst (observe wake)) since) as [code|seconds].
    + destruct Hturn as [-> Hold]. exists wake.
      split; [lia|]. split; [reflexivity|exact Hold].
    + specialize (Hwake seconds eq_refl).
      destruct (IH (S wake)) as [k [Hk [Hrun Hold]]].
      * intros k Hk. apply Hidle. lia.
      * rewrite Nat2Z.inj_succ in Hleft. unfold Z.succ in Hleft.
        rewrite inject_Z_plus in Hleft. change (inject_Z 1) with 1%Q in Hleft.
        assert (0 <= inject_Z (Z.of_nat turns))%Q as Hm
          by (unfold Qle; cbn; lia).
        revert Hleft Hm. generalize (inject_Z (Z.of_nat turns)) as m.
        intros m Hleft Hm.
        destruct Hturn as [Hyoung [Hpos [Hmax [Hend [Hlast Hten]]]]].
        destruct (Qlt_le_dec (fst (observe wake)) (since + 290)) as [Hfar|Hnear].
        -- specialize (Hten Hfar). lra.
        -- specialize (Hlast Hnear). lra.
      * exists k. split; [lia|]. split; [exact Hrun|exact Hold].
Qed.

(** X24: the watchdog ends a process that has gone idle.  When [time.sleep]
    suspends the thread for at least the time it is given and, from some turn
    of the thread on, the loop of [main] records no new activity, the thread
    calls [os._exit(0)] within 31 turns, and not before the last activity is
    300 seconds old. *)
Theorem X24_watchdog_ends_an_idle_process (observe : nat -> Q * Q)
    (wake : nat) (since : Q) :
  sleeps_honoured observe ->
  (forall k, (wake <= k)%nat -> snd (observe k) = since) ->
  (since <= fst (observe wake))%Q ->
  exists k,
    (wake <= k <= wake + 30)%nat /\
    watchdog observe wake 31 = Some (k, 0) /\
    (300 <= fst (observe k) - since)%Q.
Proof.
  intros Hsleep Hidle Hstart.
  apply (watchdog_exits_within observe since 30 Hsleep wake Hidle).
  change (inject_Z (Z.of_nat 30)) with 30%Q. lra.
Qed.

Lemma X24_watchdog_ends_an_idle_process_witness :
  exists k,
    (0 <= k <= 0 + 30)%nat /\
    watchdog late_observations 0 31 = Some (k, 0) /\
    (300 <= fst (late_observations k) - 0)%Q.
Proof.
  apply (X24_watchdog_ends_an_idle_process late_observations 0 0).
  - intros [|wake] seconds Hturn.
    + vm_compute in Hturn.
      assert (seconds = 10%Q) as -> by congruence.
      vm_compute. discriminate.
    + vm_compute in Hturn. discriminate Hturn.
  - intros [|k] _; reflexivity.
  - vm_compute. discriminate.
Defined.

(** ** The legacy host and the host that replaces it *)

Section LegacyFacts.

Context {P : Platform}.

(** The legacy host reads a whole frame of any size. *)
Lemma legacy_read_frame_arrives (w : world) (payload rest : bytes) :
  arrives w payload rest ->
  Legacy.read_frame w = (Ret payload, set_stdin w rest).
Proof.
  intros [frame [Hf Hs]].
  destruct (frame_of_inv _ _ Hf) as [prefix [Hp [-> Hlen]]].
  unfold Legacy.read_frame, bind, stdin_read.
  rewrite Hs, <- app_assoc, (firstn_exact _ _ 4 Hlen), Hlen.
  change ((4 =? 0)%nat) with false. change ((4 <? 4)%nat) with false.
  cbv iota zeta.
  rewrite (struct_unpack_pack _ _ _ Hp).
  unfold set_stdin at 1 2. cbn [stdin].
  rewrite (skipn_exact _ _ 4 Hlen), Nat2Z.id.
  rewrite (firstn_exact _ _ _ eq_refl), Z.ltb_irrefl.
  unfold ret, set_stdin. cbn [stdin stdout clock action_timestamps last_activity
    activity_writes injected].
  rewrite (skipn_exact _ _ _ eq_refl). reflexivity.
Qed.

Lemma legacy_read_message_arrives (w : world) (payload rest : bytes) :
  arrives w payload rest ->
  Legacy.read_message w =
  match py_loads payload with
  | Loaded v => (Ret v, set_stdin w rest)
  | LoadsRaise e => (Raise e, set_stdin w rest)
  end.
Proof.
  intros Ha. unfold Legacy.read_message, bind.
  rewrite (legacy_read_frame_arrives w payload rest Ha).
  unfold decode_message. destruct (py_loads payload); reflexivity.
Qed.

Lemma json_decode_error_is_value_error (e : exn) :
  is_JSONDecodeError e = true -> is_ValueError e = true.
Proof.
  unfold is_JSONDecodeError, is_ValueError.
  destruct (exn_class_of e); try discriminate; reflexivity.
Qed.

(** X25: a frame whose payload is not JSON is answered differently by the
    two hosts.  The legacy host, which reads inside its [try], answers with
    [Invalid JSON: ] followed by the text of the decoder; in [host.py] the
    [JSONDecodeError] is a [ValueError] and is taken by the handler of the
    first [try], which answers with the text of the decoder alone. *)
Theorem X25_invalid_json_in_the_two_hosts (w : world) (payload rest : bytes)
    (e : exn) :
  arrives w payload rest ->
  py_loads payload = LoadsRaise e ->
  is_JSONDecodeError e = true ->
  Z.of_nat (length (exn_text e)) < 2 ^ 27 ->
  (exists out,
     wire (RespError (lit "Invalid JSON: " ++ exn_text e)) = Some out /\
     Legacy.main_iteration w =
       (Ret tt, set_stdout (set_stdin w rest) (stdout w ++ out))) /\
  (Z.of_nat (length payload) <= MAX_MESSAGE_BYTES ->
   exists out,
     wire (RespError (exn_text e)) = Some out /\
     main_iteration w =
       (Ret tt, set_stdout (set_stdin w rest) (stdout w ++ out))).
Proof.
  intros Ha Hloads Hclass Hlen.
  change (2 ^ 27) with 134217728 in Hlen.
  split.
  - destruct (wire_error_wide (lit "Invalid JSON: " ++ exn_text e)) as [out Hout].
    { rewrite length_app. change (length (lit "Invalid JSON: ")) with 14%nat.
      change (2 ^ 28) with 268435456. lia. }
    exists out. split; [exact Hout|].
    unfold Legacy.main_iteration, try_except, bind.
    rewrite (legacy_read_message_arrives w payload rest Ha), Hloads.
    unfold Legacy.handlers. rewrite Hclass.
    rewrite (send_message_wire _ out _ Hout). reflexivity.
  - intros Hmax.
    destruct (wire_error_wide (exn_text e)) as [out Hout].
    { change (2 ^ 28) with 268435456. lia. }
    exists out. split; [exact Hout|].
    pose proof (read_message_arrives w payload rest Ha Hmax) as Hread.
    rewrite Hloads in Hread.
    rewrite (main_iteration_value_error w _ e Hread
               (json_decode_error_is_value_error e Hclass)).
    rewrite (send_message_wire _ out _ Hout). reflexivity.
Qed.



End LegacyFacts.

Lemma X25_invalid_json_in_the_two_hosts_witness :
  (exists out,
     wire (P := Reference.quiet)
       (RespError (lit "Invalid JSON: " ++ lit "Expecting value")) = Some out /\
     Legacy.main_iteration (P := Reference.quiet)
       (main_start (P := Reference.quiet) (Reference.frame "{")) =
     (Ret tt,
      set_stdout
        (set_stdin (main_start (P := Reference.quiet) (Reference.frame "{")) [])
        (stdout (main_start (P := Reference.quiet) (Reference.frame "{")) ++ out)))
  /\
  (exists out,
     wire (P := Reference.quiet) (RespError (lit "Expecting value")) = Some out /\
     main_iteration (P := Reference.quiet)
       (main_start (P := Reference.quiet) (Reference.frame "{")) =
     (Ret tt,
      set_stdout
        (set_stdin (main_start (P := Reference.quiet) (Reference.frame "{")) [])
        (stdout (main_start (P := Reference.quiet) (Reference.frame "{")) ++ out))).
Proof.
  destruct (X25_invalid_json_in_the_two_hosts (P := Reference.quiet)
              (main_start (P := Reference.quiet) (Reference.frame "{"))
              (Reference.ascii_bytes "{") []
              (mk_exn JSONDecodeError (lit "Expecting value")))
    as [Hlegacy Hnew].
  - exists (Reference.frame "{"). split; vm_compute; reflexivity.
  - vm_compute. reflexivity.
  - reflexivity.
  - vm_compute. reflexivity.
  - split; [exact Hlegacy|]. apply Hnew. vm_compute. discriminate.
Defined.


(** ** A session of whole frames *)

Section Session.

Context {P : Platform}.

Lemma main_loop_step (turns : nat) (w : world) :
  main_loop (S turns) w =
  match main_iteration w with
  | (Ret _, w') => main_loop turns w'
  | (SysExit code, w') => Exited code w'
  | (Raise e, w') => Crashed e w'
  end.
Proof. reflexivity. Qed.

(** A turn that finds a whole frame within the size limit: it takes the
    frame, and it does not end the process. *)
Lemma main_iteration_arrives (w : world) (payload rest : bytes) :
  arrives w payload rest ->
  Z.of_nat (length payload) <= MAX_MESSAGE_BYTES ->
  stdin (snd (main_iteration w)) = rest /\
  match main_iteration w with
  | (Ret _, w') => exists r, answered_with w w' r
  | (Raise _, w') => stdout w' = stdout w
  | (SysExit _, _) => False
  end.
Proof.
  intros Ha Hmax.
  pose proof (read_message_arrives w payload rest Ha Hmax) as Hread.
  pose proof (main_iteration_outcome w) as Hturn.
  destruct (py_loads payload) as [message|e].
  - rewrite (main_iteration_decoded w _ message Hread) in *.
    split; [rewrite (stdin_process message); reflexivity|].
    pose proof (process_responds message
                  (set_last_activity (tick (set_stdin w rest))
                     (monotonic (clock (set_stdin w rest))))) as H.
    destruct (process message _) as [[[]|e|code] w2]; cbn [responds] in H;
      [exact Hturn|exact Hturn|contradiction].
  - destruct (is_ValueError e) eqn:He.
    + rewrite (main_iteration_value_error w _ e Hread He) in *.
      pose proof (stdin_send_message (RespError (exn_text e)) (set_stdin w rest))
        as Hs.
      destruct (send_message_outcome (RespError (exn_text e)) (set_stdin w rest))
        as [[out [Hout Hsend]]|[e' Hsend]]; rewrite Hsend in *;
        split; assumption.
    + assert (main_iteration w = (Raise e, set_stdin w rest)) as Hrun.
      { unfold main_iteration, bind, try_except, bind. rewrite Hread, He.
        reflexivity. }
      rewrite Hrun in *. split; [reflexivity|exact Hturn].
Qed.

(** The loop in the main thread on a sequence of whole frames within the
    size limit, when nothing ends the process: one turn for each frame, then
    [sys.exit(0)] at the end of the input, unless an exception escapes a
    turn. *)
Lemma main_loop_session (payloads frames : list bytes) (w : world) :
  Forall2 (fun payload frame => frame_of payload = Some frame) payloads frames ->
  Forall (fun payload => Z.of_nat (length payload) <= MAX_MESSAGE_BYTES)
    payloads ->
  stdin w = concat frames ->
  match main_loop (S (length payloads)) w with
  | Exited code w' =>
      code = 0 /\ stdin w' = [] /\ wrote_responses w w' (length payloads)
  | Crashed _ w' =>
      exists count,
        (count < length payloads)%nat /\ wrote_responses w w' count
  | Running _ => False
  end.
Proof.
  intros Hframes. revert w.
  induction Hframes as [|payload frame payloads frames Hf _ IH];
    intros w Hmax Hin.
  - cbn [concat] in Hin. cbn [length]. rewrite main_loop_step.
    rewrite (main_iteration_exits w _ 0 (read_frame_eof w Hin)).
    split; [reflexivity|]. split; [reflexivity|].
    apply wrote_responses_none. reflexivity.
  - apply Forall_cons_iff in Hmax. destruct Hmax as [Hmax Hrest].
    cbn [concat] in Hin. cbn [length]. rewrite main_loop_step.
    destruct (main_iteration_arrives w payload (concat frames)) as [Hs Hturn];
      [exists frame; split; assumption|exact Hmax|].
    destruct (main_iteration w) as [[[]|e|code] w1]; cbn [snd] in Hs.
    + destruct Hturn as [r Hr]. specialize (IH w1 Hrest Hs).
      destruct (main_loop (S (length payloads)) w1) as [w'|code w'|e w'].
      * exact IH.
      * destruct IH as [Hcode [Hend Hw]]. split; [exact Hcode|].
        split; [exact Hend|].
        apply (wrote_responses_cons w w1 w' r _ Hr Hw).
      * destruct IH as [count [Hlt Hw]]. exists (S count). split; [lia|].
        apply (wrote_responses_cons w w1 w' r _ Hr Hw).
    + exists 0%nat. split; [lia|]. apply wrote_responses_none. exact Hturn.
    + contradiction.
Qed.

End Session.

(** ** The registration script *)

Section RegistrationFacts.

Import Registration.

Context {machine : Machine}.

Lemma pystr_eqb_refl (a : pystr) : pystr_eqb a a = true.
Proof. apply pystr_eqb_eq. reflexivity. Qed.

Lemma lookup_delete_same {A} (entries : list (pystr * A)) (key : pystr) :
  lookup (delete entries key) key = None.
Proof.
  induction entries as [|[k v] entries IH]; cbn [delete lookup]; [reflexivity|].
  destruct (pystr_eqb k key) eqn:E; [exact IH|].
  cbn [lookup]. rewrite E. exact IH.
Qed.

Lemma lookup_delete_other {A} (entries : list (pystr * A)) (key other : pystr) :
  pystr_eqb key other = false ->
  lookup (delete entries key) other = lookup entries other.
Proof.
  intros Hne.
  induction entries as [|[k v] entries IH]; cbn [delete lookup]; [reflexivity|].
  destruct (pystr_eqb k key) eqn:E.
  - apply pystr_eqb_eq in E. subst k. rewrite Hne. exact IH.
  - cbn [lookup]. rewrite IH. reflexivity.
Qed.

Lemma lookup_delete_some {A} (entries : list (pystr * A)) (key other : pystr)
    (v : A) :
  lookup (delete entries key) other = Some v -> lookup entries other = Some v.
Proof.
  destruct (pystr_eqb key other) eqn:E.
  - apply pystr_eqb_eq in E. subst other. rewrite lookup_delete_same.
    discriminate.
  - rewrite (lookup_delete_other entries key other E). trivial.
Qed.

(** What [makedirs] leaves when the path is no file. *)
Lemma makedirs_done (path : pystr) (s : system) :
  is_file s path = false ->
  exists s',
    makedirs path s = (Done tt, s') /\
    is_dir s' path = true /\ files s' = files s /\ commands s' = commands s /\
    (forall other, is_dir s other = true -> is_dir s' other = true) /\
    (forall other, pystr_eqb other path = false ->
                   is_dir s' other = is_dir s other).
Proof.
  intros Hfile. unfold makedirs. rewrite Hfile.
  destruct (is_dir s path) eqn:Hdir.
  - exists s. repeat split; trivial.
  - eexists. split; [reflexivity|].
    cbn [files commands]. unfold is_dir. cbn [directories existsb].
    rewrite pystr_eqb_refl. repeat split.
    + intros other ->. apply orb_true_r.
    + intros other ->. reflexivity.
Qed.

(** The state after [write_manifest]. *)
Lemma register_runs (extension_id manifest_dir host : pystr) (s : system) :
  _manifest_dir = Done manifest_dir ->
  which (lit "keystroke-sender") = Some host ->
  is_file s manifest_dir = false ->
  is_dir s (manifest_file manifest_dir) = false ->
  pystr_eqb (manifest_file manifest_dir) manifest_dir = false ->
  exists s1,
    is_dir s1 manifest_dir = true /\ files s1 = files s /\
    commands s1 = commands s /\
    register extension_id s =
    (if is_win32 then run (reg_add (manifest_file manifest_dir)) true
     else done tt)
      (mk_system (directories s1)
         ((manifest_file manifest_dir, manifest_for (abspath host) extension_id)
          :: delete (files s1) (manifest_file manifest_dir))
         (commands s1)).
Proof.
  intros Hdir Hwhich Hfile Hnodir Hne.
  destruct (makedirs_done manifest_dir s Hfile)
    as [s1 [Hmk [Hisdir [Hfiles [Hcommands [_ Hother]]]]]].
  exists s1. repeat split; try assumption.
  unfold register, and_then, lift, _host_executable.
  rewrite Hdir, Hmk, Hwhich. unfold write_manifest.
  rewrite (Hother _ Hne), Hnodir. reflexivity.
Qed.

Lemma unregister_removes (manifest_dir : pystr) (s : system) :
  _manifest_dir = Done manifest_dir ->
  is_file s (manifest_file manifest_dir) = true ->
  unregister s =
  (if is_win32 then run reg_delete false else done tt)
    (mk_system (directories s) (delete (files s) (manifest_file manifest_dir))
       (commands s)).
Proof.
  intros Hdir Hfile. unfold unregister, and_then, lift.
  rewrite Hdir. unfold path_exists, remove. rewrite Hfile. reflexivity.
Qed.

Lemma is_win32_true : is_win32 = true -> sys_platform = Win32.
Proof. unfold is_win32. destruct sys_platform; try discriminate; reflexivity. Qed.

(** X28: [register] is not atomic.  It creates the manifest directory before
    it looks for the host, so when [keystroke-sender] is not on the PATH the
    script exits with its error message and leaves the directory behind, with
    no manifest; and on Windows it writes the manifest before it runs [reg], so
    when [reg add] fails the [CalledProcessError] leaves the manifest
    written. *)
Theorem X28_register_is_not_atomic (extension_id manifest_dir : pystr)
    (s : system) :
  _manifest_dir = Done manifest_dir ->
  is_file s manifest_dir = false ->
  (which (lit "keystroke-sender") = None ->
   exists s',
     register extension_id s = (Failed (SystemExit not_found_text), s') /\
     is_dir s' manifest_dir = true /\
     files s' = files s /\ commands s' = commands s) /\
  (forall host,
     which (lit "keystroke-sender") = Some host ->
     sys_platform = Win32 ->
     is_dir s (manifest_file manifest_dir) = false ->
     pystr_eqb (manifest_file manifest_dir) manifest_dir = false ->
     returncode (reg_add (manifest_file manifest_dir)) <> 0 ->
     exists s',
       register extension_id s =
         (Failed (CalledProcessError (reg_add (manifest_file manifest_dir))), s') /\
       file_at s' (manifest_file manifest_dir) =
         Some (manifest_for (abspath host) extension_id)).
Proof.
  intros Hdir Hfile. split.
  - intros Hwhich.
    destruct (makedirs_done manifest_dir s Hfile)
      as [s1 [Hmk [Hisdir [Hfiles [Hcommands _]]]]].
    exists s1.
    unfold register, and_then, lift, _host_executable.
    rewrite Hdir, Hmk, Hwhich. repeat split; assumption.
  - intros host Hwhich Hwin Hnodir Hne Hcode.
    destruct (register_runs extension_id manifest_dir host s Hdir Hwhich Hfile
                Hnodir Hne) as [s1 [_ [_ [_ Hrun]]]].
    rewrite Hrun. unfold is_win32. rewrite Hwin. unfold run. cbn [andb].
    assert ((returncode (reg_add (manifest_file manifest_dir)) =? 0) = false)
      as -> by (apply Z.eqb_neq; exact Hcode).
    cbn [negb]. eexists. split; [reflexivity|].
    unfold file_at. cbn [files lookup]. rewrite pystr_eqb_refl. reflexivity.
Qed.

(** X29: [unregister] undoes [register].  On a supported platform with the
    host on the PATH, [register] writes one file, the manifest, which names
    the host, its absolute path, the type [stdio] and the one origin
    [chrome-extension://<id>/]; [unregister] then removes it and leaves every
    other file as it was before the registration.  On Windows the two run
    [reg add] and [reg delete], in this order, and no other command; the
    manifest directory stays. *)
Theorem X29_unregister_undoes_register (extension_id manifest_dir host : pystr)
    (s : system) :
  _manifest_dir = Done manifest_dir ->
  which (lit "keystroke-sender") = Some host ->
  is_file s manifest_dir = false ->
  is_dir s (manifest_file manifest_dir) = false ->
  pystr_eqb (manifest_file manifest_dir) manifest_dir = false ->
  (sys_platform = Win32 -> returncode (reg_add (manifest_file manifest_dir)) = 0) ->
  exists s1 s2,
    register extension_id s = (Done tt, s1) /\
    file_at s1 (manifest_file manifest_dir) =
      Some (mk_manifest HOST_NAME
              (lit "Simulates OS-level keystrokes for Chrome Form Filler")
              (abspath host) (lit "stdio")
              [lit "chrome-extension://" ++ extension_id ++ lit "/"]) /\
    unregister s1 = (Done tt, s2) /\
    file_at s2 (manifest_file manifest_dir) = None /\
    (forall path,
       pystr_eqb (manifest_file manifest_dir) path = false ->
       file_at s1 path = file_at s path /\ file_at s2 path = file_at s path) /\
    is_dir s2 manifest_dir = true /\
    commands s2 =
      commands s ++
      (if is_win32 then [reg_add (manifest_file manifest_dir); reg_delete]
       else []).
Proof.
  intros Hdir Hwhich Hfile Hnodir Hne Hcode.
  destruct (register_runs extension_id manifest_dir host s Hdir Hwhich Hfile
              Hnodir Hne) as [s0 [Hisdir [Hfiles [Hcommands Hrun]]]].
  rewrite Hrun. clear Hrun.
  destruct is_win32 eqn:Hwin.
  - unfold run at 1. rewrite (Hcode (is_win32_true Hwin)).
    cbn [andb negb Z.eqb].
    eexists. eexists. split; [reflexivity|].
    split; [unfold file_at; cbn [files lookup]; rewrite pystr_eqb_refl;
            reflexivity|].
    rewrite (unregister_removes manifest_dir _ Hdir), Hwin;
      [|unfold is_file, file_at; cbn [files lookup]; rewrite pystr_eqb_refl;
        reflexivity].
    unfold run. cbn [andb directories files commands delete].
    rewrite pystr_eqb_refl.
    split; [reflexivity|]. unfold file_at, is_dir.
    cbn [files directories commands lookup].
    split; [apply lookup_delete_same|].
    split.
    { intros path Hpath. rewrite Hpath.
      rewrite !(lookup_delete_other _ _ _ Hpath), Hfiles. split; reflexivity. }
    split; [exact Hisdir|]. rewrite Hcommands, <- app_assoc. reflexivity.
  - unfold done at 1.
    eexists. eexists. split; [reflexivity|].
    split; [unfold file_at; cbn [files lookup]; rewrite pystr_eqb_refl;
            reflexivity|].
    rewrite (unregister_removes manifest_dir _ Hdir), Hwin;
      [|unfold is_file, file_at; cbn [files lookup]; rewrite pystr_eqb_refl;
        reflexivity].
    unfold done. cbn [directories files commands delete].
    rewrite pystr_eqb_refl.
    split; [reflexivity|]. unfold file_at, is_dir.
    cbn [files directories commands lookup].
    split; [apply lookup_delete_same|].
    split.
    { intros path Hpath. rewrite Hpath.
      rewrite !(lookup_delete_other _ _ _ Hpath), Hfiles. split; reflexivity. }
    split; [exact Hisdir|]. rewrite Hcommands, app_nil_r. reflexivity.
Qed.

Lemma run_files (command : list pystr) (check : bool) (s : system) :
  files (snd (run command check s)) = files s.
Proof.
  unfold run.
  destruct (check && negb (returncode command =? 0)); reflexivity.
Qed.

Lemma makedirs_files (path : pystr) (s : system) :
  files (snd (makedirs path s)) = files s.
Proof.
  unfold makedirs. destruct (is_file s path); [reflexivity|].
  destruct (is_dir s path); reflexivity.
Qed.

(** What [register] leaves of the files: what it found, or the manifest put
    in the place of what it found at the path of the manifest. *)
Lemma register_files (extension_id : pystr) (s : system) :
  files (snd (register extension_id s)) = files s \/
  exists host manifest_dir,
    _manifest_dir = Done manifest_dir /\
    files (snd (register extension_id s)) =
    (manifest_file manifest_dir, manifest_for (abspath host) extension_id)
    :: delete (files s) (manifest_file manifest_dir).
Proof.
  unfold register, and_then, lift.
  destruct _manifest_dir as [manifest_dir|f] eqn:Hdir; [|left; reflexivity].
  pose proof (makedirs_files manifest_dir s) as Hmk.
  destruct (makedirs manifest_dir s) as [[[]|f] s1]; cbn [snd] in Hmk;
    [|left; exact Hmk].
  destruct _host_executable as [host_path|f] eqn:Hhost; [|left; exact Hmk].
  unfold write_manifest.
  destruct (is_dir s1 (manifest_file manifest_dir)); [left; exact Hmk|].
  right. unfold _host_executable in Hhost.
  destruct (which (lit "keystroke-sender")) as [host|]; [|discriminate].
  assert (host_path = abspath host) as -> by congruence.
  exists host, manifest_dir. split; [reflexivity|].
  destruct is_win32; [rewrite run_files|]; cbn [snd files done];
    rewrite Hmk; reflexivity.
Qed.

Lemma unregister_files (s : system) :
  files (snd (unregister s)) = files s \/
  exists manifest_dir,
    _manifest_dir = Done manifest_dir /\
    files (snd (unregister s)) = delete (files s) (manifest_file manifest_dir).
Proof.
  unfold unregister, and_then, lift.
  destruct _manifest_dir as [manifest_dir|f] eqn:Hdir; [|left; reflexivity].
  destruct (path_exists s (manifest_file manifest_dir)).
  - unfold remove. destruct (is_file s (manifest_file manifest_dir)).
    + right. exists manifest_dir. split; [reflexivity|].
      destruct is_win32; [rewrite run_files|]; reflexivity.
    + left. reflexivity.
  - left. unfold done at 1. destruct is_win32; [rewrite run_files|]; reflexivity.
Qed.

(** X30: what [main] does to the files.  Whatever the arguments and the
    state, a path other than that of the manifest holds after [main] what it
    held before; and a manifest found after [main] was there before or is the
    manifest of the host for an extension id that is not empty: neither an
    empty argument nor a blank answer to the prompt is registered. *)
Theorem X30_main_touches_only_the_manifest (args : arguments) (s : system) :
  (forall path,
     (forall manifest_dir,
        _manifest_dir = Done manifest_dir ->
        pystr_eqb (manifest_file manifest_dir) path = false) ->
     file_at (snd (main args s)) path = file_at s path) /\
  (forall path m,
     file_at (snd (main args s)) path = Some m ->
     file_at s path = Some m \/
     exists extension_id host manifest_dir,
       extension_id <> [] /\
       _manifest_dir = Done manifest_dir /\
       path = manifest_file manifest_dir /\
       m = manifest_for (abspath host) extension_id).
Proof.
  assert (files (snd (main args s)) = files s \/
          (exists manifest_dir,
             _manifest_dir = Done manifest_dir /\
             files (snd (main args s)) =
             delete (files s) (manifest_file manifest_dir)) \/
          (exists extension_id host manifest_dir,
             extension_id <> [] /\
             _manifest_dir = Done manifest_dir /\
             files (snd (main args s)) =
             (manifest_file manifest_dir,
              manifest_for (abspath host) extension_id)
             :: delete (files s) (manifest_file manifest_dir))) as Hfiles.
  { unfold main. destruct (unregister_flag args).
    - destruct (unregister_files s) as [H|H]; [left; exact H|right; left; exact H].
    - destruct (extension_id args) as [[|c rest]|].
      + destruct (strip input_line) as [|c rest]; [left; reflexivity|].
        destruct (register_files (c :: rest) s) as [H|[host [dir [Hdir H]]]];
          [left; exact H|].
        right. right. exists (c :: rest), host, dir.
        split; [discriminate|]. split; assumption.
      + destruct (register_files (c :: rest) s) as [H|[host [dir [Hdir H]]]];
          [left; exact H|].
        right. right. exists (c :: rest), host, dir.
        split; [discriminate|]. split; assumption.
      + destruct (strip input_line) as [|c rest]; [left; reflexivity|].
        destruct (register_files (c :: rest) s) as [H|[host [dir [Hdir H]]]];
          [left; exact H|].
        right. right. exists (c :: rest), host, dir.
        split; [discriminate|]. split; assumption. }
  unfold file_at. split.
  - intros path Hother.
    destruct Hfiles as [->|[[dir [Hdir ->]]|[id [host [dir [_ [Hdir ->]]]]]]].
    + reflexivity.
    + apply lookup_delete_other, Hother, Hdir.
    + cbn [lookup]. rewrite (Hother dir Hdir).
      apply lookup_delete_other, Hother, Hdir.
  - intros path m.
    destruct Hfiles as [->|[[dir [Hdir ->]]|[id [host [dir [Hid [Hdir ->]]]]]]].
    + intros H. left. exact H.
    + intros H. left. apply (lookup_delete_some _ _ _ _ H).
    + cbn [lookup].
      destruct (pystr_eqb (manifest_file dir) path) eqn:E.
      * intros H. right. exists id, host, dir.
        apply pystr_eqb_eq in E.
        repeat split; [exact Hid|exact Hdir|symmetry; exact E|congruence].
      * intros H. left. apply (lookup_delete_some _ _ _ _ H).
Qed.

End RegistrationFacts.

Lemma X28_register_is_not_atomic_witness :
  (exists s',
     Registration.register (machine := Registration.bare) (lit "abc")
       Registration.empty =
     (Registration.Failed
        (Registration.SystemExit
           (Registration.not_found_text)), s') /\
     Registration.is_dir s'
       (lit "/home/u/.config/google-chrome/NativeMessagingHosts") = true /\
     Registration.files s' = Registration.files Registration.empty /\
     Registration.commands s' = Registration.commands Registration.empty) /\
  (exists s',
     Registration.register (machine := Registration.windows) (lit "abc")
       Registration.empty =
     (Registration.Failed
        (Registration.CalledProcessError
           (Registration.reg_add
              (Registration.manifest_file (machine := Registration.windows)
                 (lit "C:\Users\u\AppData\Local\Google\Chrome\User Data\NativeMessagingHosts")))),
      s') /\
     Registration.file_at s'
       (Registration.manifest_file (machine := Registration.windows)
          (lit "C:\Users\u\AppData\Local\Google\Chrome\User Data\NativeMessagingHosts")) =
     Some (Registration.manifest_for
             (Registration.abspath (Machine := Registration.windows)
                (lit "C:\Python\Scripts\keystroke-sender.EXE"))
             (lit "abc"))).
Proof.
  split.
  - apply (proj1 (X28_register_is_not_atomic (machine := Registration.bare)
                    (lit "abc")
                    (lit "/home/u/.config/google-chrome/NativeMessagingHosts")
                    Registration.empty eq_refl eq_refl)).
    reflexivity.
  - apply (proj2 (X28_register_is_not_atomic (machine := Registration.windows)
                    (lit "abc")
                    (lit "C:\Users\u\AppData\Local\Google\Chrome\User Data\NativeMessagingHosts")
                    Registration.empty eq_refl eq_refl)
             (lit "C:\Python\Scripts\keystroke-sender.EXE")).
    + reflexivity.
    + reflexivity.
    + reflexivity.
    + vm_compute. reflexivity.
    + vm_compute. discriminate.
Defined.

Lemma X29_unregister_undoes_register_witness :
  exists s1 s2,
    Registration.register (machine := Registration.linux) (lit "abc")
      Registration.empty = (Registration.Done tt, s1) /\
    Registration.file_at s1
      (Registration.manifest_file (machine := Registration.linux)
         (lit "/home/u/.config/google-chrome/NativeMessagingHosts")) =
      Some (Registration.mk_manifest Registration.HOST_NAME
              (lit "Simulates OS-level keystrokes for Chrome Form Filler")
              (Registration.abspath (Machine := Registration.linux)
                 (lit "/usr/bin/keystroke-sender"))
              (lit "stdio")
              [lit "chrome-extension://" ++ lit "abc" ++ lit "/"]) /\
    Registration.unregister (machine := Registration.linux) s1 =
      (Registration.Done tt, s2) /\
    Registration.file_at s2
      (Registration.manifest_file (machine := Registration.linux)
         (lit "/home/u/.config/google-chrome/NativeMessagingHosts")) = None /\
    (forall path,
       pystr_eqb
         (Registration.manifest_file (machine := Registration.linux)
            (lit "/home/u/.config/google-chrome/NativeMessagingHosts")) path =
         false ->
       Registration.file_at s1 path =
         Registration.file_at Registration.empty path /\
       Registration.file_at s2 path =
         Registration.file_at Registration.empty path) /\
    Registration.is_dir s2
      (lit "/home/u/.config/google-chrome/NativeMessagingHosts") = true /\
    Registration.commands s2 =
      Registration.commands Registration.empty ++
      (if Registration.is_win32 (machine := Registration.linux)
       then [Registration.reg_add
               (Registration.manifest_file (machine := Registration.linux)
                  (lit "/home/u/.config/google-chrome/NativeMessagingHosts"));
             Registration.reg_delete]
       else []).
Proof.
  apply (X29_unregister_undoes_register (machine := Registration.linux)
           (lit "abc")
           (lit "/home/u/.config/google-chrome/NativeMessagingHosts")
           (lit "/usr/bin/keystroke-sender") Registration.empty).
  - reflexivity.
  - reflexivity.
  - reflexivity.
  - reflexivity.
  - vm_compute. reflexivity.
  - intros Hwin. discriminate Hwin.
Defined.


(** ** The main thread and the watchdog thread *)

Lemma keeps_decode_message {P : Platform} (raw_message : bytes) :
  keeps_activity (decode_message raw_message).
Proof.
  intros w. unfold decode_message.
  destruct (py_loads raw_message); split; reflexivity.
Qed.

Lemma watchdog_turns_exit (readings : list Q) (last_activity : Q) (code : Z) :
  Threads.watchdog_turns readings last_activity = Some code ->
  code = 0 /\ exists now, In now readings /\ (300 <= now - last_activity)%Q.
Proof.
  induction readings as [|now readings IH]; cbn [Threads.watchdog_turns];
    [discriminate|].
  pose proof (watchdog_turn_cases now last_activity) as Hturn.
  destruct (watchdog_turn now last_activity) as [exit_code|seconds].
  - intros H. assert (exit_code = code) as <- by congruence.
    destruct Hturn as [-> Hold]. split; [reflexivity|].
    exists now. split; [left; reflexivity|exact Hold].
  - intros H. destruct (IH H) as [Hcode [later [Hin Hold]]].
    split; [exact Hcode|]. exists later. split; [right; exact Hin|exact Hold].
Qed.

Lemma appends_silent {A} (m : M A) :
  (forall w, stdout (snd (m w)) = stdout w) -> Threads.appends m.
Proof. intros H w. exists []. rewrite app_nil_r. apply H. Qed.

Lemma cut_short_start (w final : world) :
  (exists written, stdout final = stdout w ++ written) ->
  Threads.cut_short w w final.
Proof.
  intros [written H]. exists [], written. rewrite app_nil_r.
  split; [reflexivity|exact H].
Qed.

Lemma cut_short_stdout (w0 w w' final0 final : world) :
  stdout w0 = stdout w -> stdout final0 = stdout final ->
  Threads.cut_short w w' final -> Threads.cut_short w0 w' final0.
Proof.
  intros Hw Hf [written [rest [H1 H2]]]. exists written, rest.
  rewrite Hw, Hf. split; assumption.
Qed.

Section Tracking.

Context {P : Platform} {scheduler : Threads.Scheduler}.

Variable good : world -> Prop.

Hypothesis good_respects :
  forall w w', good w -> last_activity w' = last_activity w -> good w'.

(** The turns that the watchdog takes at one operation of the main thread. *)
Lemma yield_cases (op : Threads.operation) (w : world) :
  good w ->
  match Threads.yield op w with
  | (Threads.Goes r, w') => r = Ret tt /\ w' = w
  | (Threads.Killed code, w') => code = 0 /\ Threads.struck good /\ w' = w
  end.
Proof.
  intros Hw. unfold Threads.yield.
  destruct (Threads.watchdog_turns (Threads.polls op w) (last_activity w))
    as [code|] eqn:E.
  - destruct (watchdog_turns_exit _ _ _ E) as [Hcode [now [Hin Hold]]].
    split; [exact Hcode|]. split; [|reflexivity].
    exists op, w, now. repeat split; assumption.
  - split; reflexivity.
Qed.

Lemma tracks_yield (op : Threads.operation) :
  Threads.tracks good (Threads.yield op) (ret tt).
Proof.
  split; [apply appends_silent; reflexivity|].
  intros w Hw. pose proof (yield_cases op w Hw) as H.
  destruct (Threads.yield op w) as [[r|code] w'].
  - destruct H as [-> ->]. split; [reflexivity|exact Hw].
  - destruct H as [Hcode [Hs ->]]. split; [exact Hcode|]. split; [exact Hs|].
    apply cut_short_start. exists []. rewrite app_nil_r. reflexivity.
Qed.

Lemma tracks_lift {A} (m : M A) :
  keeps_activity m -> Threads.appends m -> Threads.tracks good (Threads.lift m) m.
Proof.
  intros Hm Ha. split; [exact Ha|].
  intros w Hw. unfold Threads.lift. destruct (Hm w) as [_ Hla].
  destruct (m w) as [r w']. cbn [snd] in Hla.
  split; [reflexivity|]. apply (good_respects w w' Hw Hla).
Qed.

Lemma tracks_ret {A} (a : A) : Threads.tracks good (Threads.ret a) (ret a).
Proof.
  split; [apply appends_silent; reflexivity|].
  intros w Hw. split; [reflexivity|exact Hw].
Qed.

Lemma tracks_raise {A} (e : exn) :
  Threads.tracks good (Threads.raise (A := A) e) (raise e).
Proof.
  split; [apply appends_silent; reflexivity|].
  intros w Hw. split; [reflexivity|exact Hw].
Qed.

Lemma tracks_sys_exit {A} (code : Z) :
  Threads.tracks good (Threads.sys_exit (A := A) code) (sys_exit code).
Proof.
  split; [apply appends_silent; reflexivity|].
  intros w Hw. split; [reflexivity|exact Hw].
Qed.

Lemma tracks_bind {A B} (m : Threads.T A) (f : M A) (k : A -> Threads.T B)
    (g : A -> M B) :
  Threads.tracks good m f ->
  (forall a, Threads.tracks good (k a) (g a)) ->
  Threads.tracks good (Threads.bind m k) (bind f g).
Proof.
  intros [Hfa Hm] Hk. split.
  - intros w. unfold bind. destruct (Hfa w) as [x Hx].
    destruct (f w) as [[a|e|code] w1]; cbn [snd] in Hx |- *.
    + destruct (Hk a) as [Hga _]. destruct (Hga w1) as [y Hy].
      exists (x ++ y). rewrite Hy, Hx, app_assoc. reflexivity.
    + exists x. exact Hx.
    + exists x. exact Hx.
  - intros w Hw. unfold Threads.bind, bind. specialize (Hm w Hw).
    destruct (Hfa w) as [x Hx].
    destruct (m w) as [[[a|e|code]|code] w1].
    + destruct Hm as [Hf Hw1]. rewrite Hf in Hx |- *. cbn [snd] in Hx.
      destruct (Hk a) as [_ Hka]. specialize (Hka w1 Hw1).
      destruct (k a w1) as [[r|code] w2]; [exact Hka|].
      destruct Hka as [Hcode [Hs [written [rest [H1 H2]]]]].
      split; [exact Hcode|]. split; [exact Hs|].
      exists (x ++ written), rest.
      split; [rewrite H1, Hx, app_assoc; reflexivity|exact H2].
    + destruct Hm as [-> Hw1]. split; [reflexivity|exact Hw1].
    + destruct Hm as [-> Hw1]. split; [reflexivity|exact Hw1].
    + destruct Hm as [Hcode [Hs [written [rest [H1 H2]]]]].
      split; [exact Hcode|]. split; [exact Hs|].
      destruct (f w) as [[a|e|code0] w0]; cbn [snd] in H2 |- *.
      * destruct (Hk a) as [Hga _]. destruct (Hga w0) as [y Hy].
        exists written, (rest ++ y). split; [exact H1|].
        rewrite Hy, H2, app_assoc. reflexivity.
      * exists written, rest. split; assumption.
      * exists written, rest. split; assumption.
Qed.

Lemma tracks_try_except {A} (m : Threads.T A) (f : M A) (catches : exn -> bool)
    (handler : exn -> Threads.T A) (h : exn -> M A) :
  Threads.tracks good m f ->
  (forall e, Threads.tracks good (handler e) (h e)) ->
  Threads.tracks good (Threads.try_except m catches handler)
    (try_except f catches h).
Proof.
  intros [Hfa Hm] Hh. split.
  - intros w. unfold try_except. destruct (Hfa w) as [x Hx].
    destruct (f w) as [[a|e|code] w1]; cbn [snd] in Hx |- *.
    + exists x. exact Hx.
    + destruct (catches e); [|exists x; exact Hx].
      destruct (Hh e) as [Hha _]. destruct (Hha w1) as [y Hy].
      exists (x ++ y). rewrite Hy, Hx, app_assoc. reflexivity.
    + exists x. exact Hx.
  - intros w Hw. unfold Threads.try_except, try_except. specialize (Hm w Hw).
    destruct (Hfa w) as [x Hx].
    destruct (m w) as [[[a|e|code]|code] w1].
    + destruct Hm as [-> Hw1]. split; [reflexivity|exact Hw1].
    + destruct Hm as [Hf Hw1]. rewrite Hf in Hx |- *. cbn [snd] in Hx.
      destruct (catches e); [|split; [reflexivity|exact Hw1]].
      destruct (Hh e) as [_ Hhe]. specialize (Hhe w1 Hw1).
      destruct (handler e w1) as [[r|code] w2]; [exact Hhe|].
      destruct Hhe as [Hcode [Hs [written [rest [H1 H2]]]]].
      split; [exact Hcode|]. split; [exact Hs|].
      exists (x ++ written), rest.
      split; [rewrite H1, Hx, app_assoc; reflexivity|exact H2].
    + destruct Hm as [-> Hw1]. split; [reflexivity|exact Hw1].
    + destruct Hm as [Hcode [Hs [written [rest [H1 H2]]]]].
      split; [exact Hcode|]. split; [exact Hs|].
      destruct (f w) as [[a|e|code0] w0]; cbn [snd] in H2 |- *.
      * exists written, rest. split; assumption.
      * destruct (catches e); [|exists written, rest; split; assumption].
        destruct (Hh e) as [Hha _]. destruct (Hha w0) as [y Hy].
        exists written, (rest ++ y). split; [exact H1|].
        rewrite Hy, H2, app_assoc. reflexivity.
      * exists written, rest. split; assumption.
Qed.

(** The watchdog thread takes its turns, then the main thread goes on. *)
Lemma tracks_after_yield {A} (op : Threads.operation) (m : Threads.T A)
    (f : M A) :
  Threads.tracks good m f ->
  Threads.tracks good (Threads.bind (Threads.yield op) (fun _ => m)) f.
Proof.
  intros Hm.
  apply (tracks_bind (Threads.yield op) (ret tt) (fun _ => m) (fun _ => f));
    [apply tracks_yield|intros _; exact Hm].
Qed.

Lemma tracks_stdin_read (n : nat) :
  Threads.tracks good (Threads.stdin_read n) (stdin_read n).
Proof.
  unfold Threads.stdin_read. apply tracks_after_yield, tracks_lift.
  - apply keeps_stdin_read.
  - apply appends_silent. reflexivity.
Qed.

Lemma tracks_time_monotonic :
  Threads.tracks good Threads.time_monotonic time_monotonic.
Proof.
  unfold Threads.time_monotonic. apply tracks_after_yield, tracks_lift.
  - apply keeps_time_monotonic.
  - apply appends_silent. reflexivity.
Qed.

Lemma appends_stdout_write (data : bytes) : Threads.appends (stdout_write data).
Proof. intros w. exists data. reflexivity. Qed.

(** A write that blocks after some of its bytes is the write, unless the
    watchdog ends the process while it waits. *)
Lemma tracks_stdout_write (data : bytes) :
  Threads.tracks good (Threads.stdout_write data) (stdout_write data).
Proof.
  split; [apply appends_stdout_write|].
  intros w Hw. unfold Threads.stdout_write.
  destruct (tracks_bind
              (Threads.lift (stdout_write (firstn (Threads.stall w) data)))
              (stdout_write (firstn (Threads.stall w) data))
              (fun _ => Threads.bind
                          (Threads.yield
                             (Threads.Writing (skipn (Threads.stall w) data)))
                          (fun _ => Threads.lift
                                      (stdout_write
                                         (skipn (Threads.stall w) data))))
              (fun _ => stdout_write (skipn (Threads.stall w) data)))
    as [_ H].
  - apply tracks_lift; [apply keeps_stdout_write|apply appends_stdout_write].
  - intros _. apply tracks_after_yield, tracks_lift;
      [apply keeps_stdout_write|apply appends_stdout_write].
  - specialize (H w Hw).
    assert (bind (stdout_write (firstn (Threads.stall w) data))
              (fun _ => stdout_write (skipn (Threads.stall w) data)) w =
            stdout_write data w) as Hwhole.
    { unfold bind, stdout_write, set_stdout.
      cbn [stdin stdout clock action_timestamps last_activity activity_writes
           injected].
      rewrite <- app_assoc, firstn_skipn. reflexivity. }
    rewrite Hwhole in H. exact H.
Qed.

(** A call of the injector is the call, unless the watchdog ends the process
    while it lasts. *)
Lemma tracks_inject (ev : event) :
  Threads.tracks good (Threads.inject ev) (inject ev).
Proof.
  assert (forall w, stdout (snd (inject ev w)) = stdout w) as Hsilent.
  { intros w. unfold inject. destruct (inj_raises (injected w) ev); reflexivity. }
  split; [apply appends_silent; exact Hsilent|].
  intros w Hw. unfold Threads.inject.
  assert (good (add_injected w ev)) as Hstarted
    by (apply (good_respects w); [exact Hw|reflexivity]).
  pose proof (yield_cases (Threads.Calling ev) (add_injected w ev) Hstarted)
    as H.
  destruct (Threads.yield (Threads.Calling ev) (add_injected w ev))
    as [[r|code] w2].
  - destruct H as [_ ->]. unfold inject.
    destruct (inj_raises (injected w) ev); split; try reflexivity;
      exact Hstarted.
  - destruct H as [Hcode [Hs ->]]. split; [exact Hcode|]. split; [exact Hs|].
    apply (cut_short_stdout w (add_injected w ev) (add_injected w ev)
             (snd (inject ev w)) (add_injected w ev));
      [reflexivity|rewrite Hsilent; reflexivity|].
    apply cut_short_start. exists []. rewrite app_nil_r. reflexivity.
Qed.

Lemma tracks_py_gt_zero (delay : json) :
  Threads.tracks good (Threads.lift (py_gt_zero delay)) (py_gt_zero delay).
Proof.
  apply tracks_lift; [apply keeps_py_gt_zero|].
  apply appends_silent. intros w. unfold py_gt_zero.
  destruct (gt_zero delay); reflexivity.
Qed.

Lemma tracks_py_int (v : json) :
  Threads.tracks good (Threads.lift (py_int v)) (py_int v).
Proof.
  apply tracks_lift; [apply keeps_py_int|].
  apply appends_silent. intros w. unfold py_int.
  destruct (int_of v); reflexivity.
Qed.

Lemma tracks_decode_message (raw_message : bytes) :
  Threads.tracks good (Threads.lift (decode_message raw_message))
    (decode_message raw_message).
Proof.
  apply tracks_lift; [apply keeps_decode_message|].
  apply appends_silent. intros w. unfold decode_message.
  destruct (py_loads raw_message); reflexivity.
Qed.

Create HintDb tracks.

#[local] Hint Resolve tracks_ret tracks_raise tracks_sys_exit
  tracks_stdin_read tracks_stdout_write tracks_time_monotonic tracks_inject
  tracks_py_gt_zero tracks_py_int tracks_decode_message : tracks.

Ltac tracks :=
  repeat first
    [ solve [auto with tracks]
    | apply tracks_bind; [|intros ?]
    | apply tracks_try_except; [|intros ?]
    | match goal with
      | |- Threads.tracks _ (if ?b then _ else _) _ => destruct b
      | |- Threads.tracks _ (match ?x with _ => _ end) _ => destruct x
      end ].

Lemma tracks_send_message (r : response) :
  Threads.tracks good (Threads.send_message r) (send_message r).
Proof. unfold Threads.send_message, send_message. tracks. Qed.

Lemma tracks_read_frame : Threads.tracks good Threads.read_frame read_frame.
Proof. unfold Threads.read_frame, read_frame. tracks. Qed.

Lemma tracks_read_message :
  Threads.tracks good Threads.read_message read_message.
Proof.
  unfold Threads.read_message, read_message.
  apply tracks_bind; [apply tracks_read_frame|].
  intros raw. apply tracks_decode_message.
Qed.

#[local] Hint Resolve tracks_send_message tracks_read_message : tracks.

Lemma tracks_type_chars (text : pystr) (delay : json) (count : Z) :
  Threads.tracks good (Threads.type_chars text delay count)
    (type_chars text delay count).
Proof.
  revert count. induction text as [|char text IH]; intros count;
    cbn [Threads.type_chars type_chars]; [auto with tracks|].
  apply tracks_bind; [auto with tracks|]. intros _.
  apply tracks_bind; [auto with tracks|]. intros positive.
  apply tracks_bind; [destruct positive; auto with tracks|]. intros _.
  apply IH.
Qed.

Lemma tracks_type_text (text : pystr) (delay : json) :
  Threads.tracks good (Threads.type_text text delay) (type_text text delay).
Proof.
  unfold Threads.type_text, type_text.
  apply tracks_bind; [auto with tracks|]. intros _. apply tracks_type_chars.
Qed.

Lemma tracks_click_at (x y : Z) :
  Threads.tracks good (Threads.click_at x y) (click_at x y).
Proof. unfold Threads.click_at, click_at. tracks. Qed.

Lemma tracks_check_rate_limit :
  Threads.tracks good Threads._check_rate_limit _check_rate_limit.
Proof.
  unfold Threads._check_rate_limit, _check_rate_limit.
  apply tracks_bind; [apply tracks_time_monotonic|]. intros now.
  apply tracks_lift.
  - intros w.
    destruct (check_rate_limit_at now (action_timestamps w)); split; reflexivity.
  - apply appends_silent. intros w.
    destruct (check_rate_limit_at now (action_timestamps w)); reflexivity.
Qed.

#[local] Hint Resolve tracks_type_text tracks_click_at tracks_check_rate_limit
  : tracks.

Lemma tracks_type_action (items : list (pystr * json)) :
  Threads.tracks good (Threads.type_action items) (type_action items).
Proof. unfold Threads.type_action, type_action. tracks. Qed.

Lemma tracks_click_action (items : list (pystr * json)) :
  Threads.tracks good (Threads.click_action items) (click_action items).
Proof.
  unfold Threads.click_action, click_action.
  destruct (is_None (dict_get items (lit "x")) ||
            is_None (dict_get items (lit "y"))); [auto with tracks|].
  apply tracks_bind; [auto with tracks|]. intros x.
  apply tracks_bind; [auto with tracks|]. intros y.
  tracks.
Qed.

#[local] Hint Resolve tracks_type_action tracks_click_action : tracks.

Lemma tracks_try_body (message : json) :
  Threads.tracks good (Threads.try_body message) (try_body message).
Proof. unfold Threads.try_body, try_body. tracks. Qed.

(** The dispatcher beside the watchdog thread does what the dispatcher does,
    unless the watchdog ends the process. *)
Lemma tracks_process (message : json) :
  Threads.tracks good (Threads.process message) (process message).
Proof.
  unfold Threads.process, process.
  apply tracks_try_except; [apply tracks_try_body|].
  intros e. destruct (is_JSONDecodeError e); auto with tracks.
Qed.

(** A turn of the loop, when the assignment of line 162 keeps [good]. *)
Lemma tracks_main_iteration :
  (forall w now, good w -> good (set_last_activity w now)) ->
  Threads.tracks good Threads.main_iteration main_iteration.
Proof.
  intros Htouch.
  unfold Threads.main_iteration, main_iteration.
  apply tracks_bind.
  - apply tracks_try_except.
    + apply tracks_bind; [apply tracks_read_message|].
      intros message. apply tracks_ret.
    + intros e. apply tracks_bind; [apply tracks_send_message|].
      intros _. apply tracks_ret.
  - intros [message|]; [|apply tracks_ret].
    apply tracks_bind; [|intros _; apply tracks_process].
    unfold Threads.touch_activity, touch_activity.
    apply tracks_bind; [apply tracks_time_monotonic|]. intros now.
    split; [apply appends_silent; reflexivity|].
    intros w Hw. unfold Threads.lift. split; [reflexivity|].
    apply Htouch. exact Hw.
Qed.

End Tracking.

(** ** The process: the loop with the watchdog thread beside it *)

(** The frame of a response does not go on after the frame of a response. *)
Lemma wire_prefix_whole {P : Platform} (r1 r2 : response) (out1 out2 rest : bytes) :
  wire r1 = Some out1 -> wire r2 = Some out2 -> out2 = out1 ++ rest ->
  rest = [] /\ out2 = out1.
Proof.
  intros H1 H2 E.
  destruct (wire_inv r1 out1 H1) as [p1 [Hp1 [Hl1 E1]]].
  destruct (wire_inv r2 out2 H2) as [p2 [Hp2 [Hl2 E2]]].
  rewrite E1, E2, <- app_assoc in E.
  assert (p2 = p1) as Hp.
  { rewrite <- (firstn_exact p2 (map byte_of_N (json_dumps r2)) 4 Hl2), E.
    apply firstn_exact. exact Hl1. }
  subst p2. apply app_inv_head in E.
  assert (length (json_dumps r2) = length (json_dumps r1)) as Hlen.
  { apply Nat2Z.inj.
    rewrite <- (struct_unpack_pack _ _ _ Hp2). apply struct_unpack_pack.
    exact Hp1. }
  pose proof (f_equal (@length byte) E) as El.
  rewrite length_app, !length_map, Hlen in El.
  assert (rest = []) as ->
    by (destruct rest; [reflexivity|cbn [length] in El; lia]).
  split; [reflexivity|]. rewrite app_nil_r in E. rewrite E1, E2, E.
  reflexivity.
Qed.

Section Process.

Context {P : Platform} {scheduler : Threads.Scheduler}.

(** The dispatcher with the watchdog thread beside it: it ends as the
    dispatcher of the main thread ends, or the watchdog ends the process, on a
    reading of the clock that finds the last activity, which the dispatcher
    does not touch, 300 seconds old. *)
Lemma process_beside_the_watchdog (message : json) (w : world) :
  match Threads.process message w with
  | (Threads.Goes r, w') => process message w = (r, w')
  | (Threads.Killed code, w') =>
      code = 0 /\
      (exists op w1 now,
         last_activity w1 = last_activity w /\ In now (Threads.polls op w1) /\
         (300 <= now - last_activity w)%Q) /\
      Threads.cut_short w w' (snd (process message w))
  end.
Proof.
  destruct (tracks_process (fun w1 => last_activity w1 = last_activity w))
    with (message := message) as [_ H].
  { intros w0 w' H0 H1. congruence. }
  specialize (H w eq_refl).
  destruct (Threads.process message w) as [[r|code] w'].
  - exact (proj1 H).
  - destruct H as [Hcode [[op [w1 [now [Hla [Hin Hold]]]]] Hcut]].
    split; [exact Hcode|]. split; [|exact Hcut].
    exists op, w1, now. rewrite Hla in Hold. repeat split; assumption.
Qed.

(** A turn of the loop with the watchdog thread beside it. *)
Lemma main_iteration_beside_the_watchdog (w : world) :
  match Threads.main_iteration w with
  | (Threads.Goes r, w') => main_iteration w = (r, w')
  | (Threads.Killed code, w') =>
      code = 0 /\ Threads.struck (fun _ => True) /\
      Threads.cut_short w w' (snd (main_iteration w))
  end.
Proof.
  destruct (tracks_main_iteration (fun _ => True)) as [_ H]; [auto|auto|].
  specialize (H w I).
  destruct (Threads.main_iteration w) as [[r|code] w']; [exact (proj1 H)|exact H].
Qed.

Lemma threads_main_loop_step (turns : nat) (w : world) :
  Threads.main_loop (S turns) w =
  match Threads.main_iteration w with
  | (Threads.Goes (Ret _), w') => Threads.main_loop turns w'
  | (Threads.Goes (SysExit code), w') => Threads.Exit code w'
  | (Threads.Goes (Raise e), w') => Threads.Uncaught e w'
  | (Threads.Killed code, w') => Threads.Ended code w'
  end.
Proof. reflexivity. Qed.

(** The loop with the watchdog thread beside it: it stands where the loop of
    the main thread stands, or the watchdog ended the process during a turn
    that the main thread had begun. *)
Lemma main_loop_beside_the_watchdog (turns : nat) (w : world) :
  match Threads.main_loop turns w with
  | Threads.Going w' => main_loop turns w = Running w'
  | Threads.Exit code w' => main_loop turns w = Exited code w'
  | Threads.Uncaught e w' => main_loop turns w = Crashed e w'
  | Threads.Ended code w' =>
      code = 0 /\ Threads.struck (fun _ => True) /\
      exists before w1,
        (before < turns)%nat /\ main_loop before w = Running w1 /\
        Threads.cut_short w1 w' (snd (main_iteration w1))
  end.
Proof.
  revert w. induction turns as [|turns IH]; intros w; [reflexivity|].
  rewrite threads_main_loop_step, main_loop_step.
  pose proof (main_iteration_beside_the_watchdog w) as Hturn.
  destruct (Threads.main_iteration w) as [[[[]|e|code]|code] w1].
  - rewrite Hturn. specialize (IH w1).
    destruct (Threads.main_loop turns w1) as [w'|code w'|e w'|code w'];
      try exact IH.
    destruct IH as [Hcode [Hs [before [w2 [Hlt [Hrun Hcut]]]]]].
    split; [exact Hcode|]. split; [exact Hs|].
    exists (S before), w2. split; [lia|]. split; [|exact Hcut].
    rewrite main_loop_step, Hturn. exact Hrun.
  - rewrite Hturn. reflexivity.
  - rewrite Hturn. reflexivity.
  - destruct Hturn as [Hcode [Hs Hcut]].
    split; [exact Hcode|]. split; [exact Hs|].
    exists 0%nat, w. split; [lia|]. split; [reflexivity|exact Hcut].
Qed.

(** What a turn that was cut short had written: nothing, or the beginning of
    the one response of the turn. *)
Lemma cut_short_turn (w w' : world) :
  Threads.cut_short w w' (snd (main_iteration w)) ->
  exists written,
    stdout w' = stdout w ++ written /\ Threads.begins_response written.
Proof.
  intros [written [rest [H1 H2]]]. exists written. split; [exact H1|].
  pose proof (main_iteration_outcome w) as Hturn.
  destruct (main_iteration w) as [[[]|e|code] final]; cbn [snd] in H2.
  - destruct Hturn as [r [out [Hout Hs]]]. right. exists r, rest.
    rewrite Hs, H1, <- app_assoc in H2. apply app_inv_head in H2.
    rewrite <- H2. exact Hout.
  - left. rewrite Hturn, H1, <- app_assoc in H2.
    rewrite <- (app_nil_r (stdout w)) in H2 at 1.
    apply app_inv_head in H2. symmetry in H2.
    apply app_eq_nil in H2. exact (proj1 H2).
  - left. destruct Hturn as [Hs _]. rewrite Hs, H1, <- app_assoc in H2.
    rewrite <- (app_nil_r (stdout w)) in H2 at 1.
    apply app_inv_head in H2. symmetry in H2.
    apply app_eq_nil in H2. exact (proj1 H2).
Qed.

(** A calm scheduler never lets the watchdog end the process. *)
Lemma calm_is_never_struck (good : world -> Prop) :
  Threads.calm -> ~ Threads.struck good.
Proof.
  intros Hcalm [op [w [now [_ [Hin Hold]]]]].
  specialize (Hcalm op w now Hin). lra.
Qed.

(** A whole success response on [stdout], while a type request is handled or
    after it, carries the number of characters of the text. *)
Lemma typed_response_begun (message : list (pystr * json)) (text : pystr)
    (w : world) (typed : Z) (out rest : bytes) :
  request_of "type" message ->
  dict_get message (lit "text") = JStr text ->
  0 < Z.of_nat (length text) <= MAX_TEXT_LENGTH ->
  wire (RespTyped typed) = Some out ->
  stdout (snd (process (JDict message) w)) = stdout w ++ out ++ rest ->
  typed = Z.of_nat (length text).
Proof.
  intros Hreq Htext Hlen Hout Hstd.
  destruct (type_request_outcome message text w Hreq Htext Hlen)
    as [Hnone|[[m [out' [Hout' Hstd']]]|[out' [Hout' Hstd']]]].
  - rewrite Hnone in Hstd. apply (f_equal (@length byte)) in Hstd.
    rewrite !length_app in Hstd. pose proof (wire_nonempty _ _ Hout). lia.
  - rewrite Hstd' in Hstd. apply app_inv_head in Hstd.
    destruct (wire_prefix_whole _ _ _ _ _ Hout Hout' Hstd) as [_ ->].
    exfalso. apply (json_dumps_error_not_typed m typed).
    apply (wire_same_serialization _ _ out Hout' Hout).
  - rewrite Hstd' in Hstd. apply app_inv_head in Hstd.
    destruct (wire_prefix_whole _ _ _ _ _ Hout Hout' Hstd) as [_ ->].
    symmetry. apply json_dumps_typed_inj.
    apply (wire_same_serialization _ _ out Hout' Hout).
Qed.

(** C4 (amended): for every type request whose [text] is a string of 1 to
    10,000 characters, a success response on [stdout] has for [typed] the
    character count of [text], however the turn ended, the watchdog's exit
    included.  And when the rate limiter admits the request, its [delay] is
    absent or a number and no injector call raises, the turn ends with that
    success response, unless the watchdog thread ends the process first, with
    the code 0: it does so only on a reading of the clock that finds the last
    activity 300 seconds old, and what is written then is the beginning of that
    response. *)
Theorem C4_typed_is_the_character_count (w : world)
    (message : list (pystr * json)) (text : pystr) :
  request_of "type" message ->
  dict_get message (lit "text") = JStr text ->
  0 < Z.of_nat (length text) <= 10000 ->
  (forall typed,
     answered_with w (snd (Threads.process (JDict message) w))
       (RespTyped typed) ->
     typed = Z.of_nat (length text)) /\
  (forall timestamps delay positive,
     admitted w timestamps ->
     dict_get_default message (lit "delay") default_delay = delay ->
     gt_zero delay = Some positive ->
     calls_succeed (injected w) (typing_calls text delay) ->
     exists out,
       wire (RespTyped (Z.of_nat (length text))) = Some out /\
       match Threads.process (JDict message) w with
       | (Threads.Goes r, w') =>
           r = Ret tt /\
           w' = dispatched w timestamps (typing_calls text delay) out
       | (Threads.Killed code, w') =>
           code = 0 /\
           (exists op w1 now,
              last_activity w1 = last_activity w /\
              In now (Threads.polls op w1) /\
              (300 <= now - last_activity w)%Q) /\
           exists written rest,
             stdout w' = stdout w ++ written /\ out = written ++ rest
       end).
Proof.
  intros Hreq Htext Hlen.
  pose proof (process_beside_the_watchdog (JDict message) w) as Hrun.
  split.
  - intros typed [out [Hout Hstd]].
    destruct (Threads.process (JDict message) w) as [[r|code] w'];
      cbn [snd] in Hstd.
    + apply (typed_response_begun message text w typed out [] Hreq Htext Hlen
               Hout).
      rewrite Hrun. cbn [snd]. rewrite app_nil_r. exact Hstd.
    + destruct Hrun as [_ [_ [written [rest [H1 H2]]]]].
      apply (typed_response_begun message text w typed out rest Hreq Htext Hlen
               Hout).
      rewrite H2, Hstd, <- app_assoc. reflexivity.
  - intros timestamps delay positive Ha Hdelay Hgt Hok.
    destruct (type_typed message text delay positive w timestamps Ha Hreq Htext
                Hlen Hdelay Hgt Hok) as [out [Hout Hmain]].
    exists out. split; [exact Hout|].
    destruct (Threads.process (JDict message) w) as [[r|code] w'].
    + rewrite Hmain in Hrun. split; congruence.
    + destruct Hrun as [Hcode [Hlate [written [rest [H1 H2]]]]].
      split; [exact Hcode|]. split; [exact Hlate|].
      exists written, rest. split; [exact H1|].
      rewrite Hmain in H2. cbn [snd dispatched stdout] in H2.
      rewrite H1, <- app_assoc in H2. apply app_inv_head in H2. exact H2.
Qed.

(** X16: the dispatcher answers a decoded value with exactly one response,
    unless the watchdog thread ends the process first.  Whatever the value, the
    state and the scheduler, the dispatcher does not call [sys.exit]; when it
    returns it has written the frame of one response and nothing else; the one
    exception it lets escape is the [struct.error] of a response of [2^32]
    bytes or more, and then it has written nothing; and when the watchdog ends
    the process while the value is handled, it is with the code 0, on a reading
    of the clock that finds the last activity 300 seconds old, and [stdout]
    has received nothing or the beginning of that one response. *)
Theorem X16_one_response_for_each_request (message : json) (w : world) :
  match Threads.process message w with
  | (Threads.Goes (Ret _), w') => exists r, answered_with w w' r
  | (Threads.Goes (Raise e), w') =>
      exn_class_of e = StructError /\ stdout w' = stdout w
  | (Threads.Goes (SysExit _), _) => False
  | (Threads.Killed code, w') =>
      code = 0 /\
      (exists op w1 now,
         last_activity w1 = last_activity w /\ In now (Threads.polls op w1) /\
         (300 <= now - last_activity w)%Q) /\
      exists written,
        stdout w' = stdout w ++ written /\ Threads.begins_response written
  end.
Proof.
  pose proof (process_beside_the_watchdog message w) as Hrun.
  pose proof (process_outcome message w) as Hmain.
  destruct (Threads.process message w) as [[r|code] w'].
  - rewrite Hrun in Hmain. destruct r; exact Hmain.
  - destruct Hrun as [Hcode [Hlate [written [rest [H1 H2]]]]].
    split; [exact Hcode|]. split; [exact Hlate|].
    exists written. split; [exact H1|].
    destruct (process message w) as [[[]|e|code0] final]; cbn [snd] in H2.
    + destruct Hmain as [r [out [Hout Hs]]]. right. exists r, rest.
      rewrite Hs, H1, <- app_assoc in H2. apply app_inv_head in H2.
      rewrite <- H2. exact Hout.
    + left. destruct Hmain as [_ Hs]. rewrite Hs, H1, <- app_assoc in H2.
      rewrite <- (app_nil_r (stdout w)) in H2 at 1.
      apply app_inv_head in H2. symmetry in H2.
      apply app_eq_nil in H2. exact (proj1 H2).
    + contradiction.
Qed.

(** X17: [stdout] holds one whole response for each turn of the loop that was
    completed, and after them at most the beginning of one more, when the
    watchdog thread ended the process.  After any number of turns, from any
    state, on any input and with any scheduler: while the process runs, and
    when it ends by [sys.exit] (with the code 0 or 1) or by an exception that
    nothing caught, the bytes written are the frames of as many responses as
    turns were completed, and the turn that ends the process writes nothing;
    when the watchdog ends it, with the code 0, the bytes written are those
    frames and then nothing or the first bytes of the frame of one more
    response, whose write is abandoned. *)
Theorem X17_stdout_holds_one_response_for_each_turn (turns : nat) (w : world) :
  match Threads.main_loop turns w with
  | Threads.Going w' => wrote_responses w w' turns
  | Threads.Exit code w' =>
      (code = 0 \/ code = 1) /\
      exists count, (count < turns)%nat /\ wrote_responses w w' count
  | Threads.Uncaught _ w' =>
      exists count, (count < turns)%nat /\ wrote_responses w w' count
  | Threads.Ended code w' =>
      code = 0 /\
      exists count w1 written,
        (count < turns)%nat /\ wrote_responses w w1 count /\
        stdout w' = stdout w1 ++ written /\ Threads.begins_response written
  end.
Proof.
  pose proof (main_loop_beside_the_watchdog turns w) as Hrun.
  destruct (Threads.main_loop turns w) as [w'|code w'|e w'|code w'].
  - pose proof (main_loop_wrote_responses turns w) as H.
    rewrite Hrun in H. exact H.
  - pose proof (main_loop_wrote_responses turns w) as H.
    rewrite Hrun in H. exact H.
  - pose proof (main_loop_wrote_responses turns w) as H.
    rewrite Hrun in H. exact H.
  - destruct Hrun as [Hcode [_ [before [w1 [Hlt [Hbefore Hcut]]]]]].
    split; [exact Hcode|].
    destruct (cut_short_turn w1 w' Hcut) as [written [Hs Hb]].
    exists before, w1, written. split; [exact Hlt|].
    split; [|split; assumption].
    pose proof (main_loop_wrote_responses before w) as H.
    rewrite Hbefore in H. exact H.
Qed.

(** X27: a session of whole frames.  When the input is a sequence of whole
    frames within the size limit and then ends, the process ends within one
    turn for each frame and one more, in one of three ways: by [sys.exit(0)]
    at the end of the input, having written one response for each frame; by an
    exception that escapes a turn, with the exit status 1, the earlier frames
    having each been answered; or by the watchdog thread, with the code 0, on
    a reading of the clock that finds the last activity 300 seconds old, the
    frames of the earlier turns having each been answered and at most the
    beginning of one more response written.  The exit status is 1 only in the
    second case, and the watchdog does not end the process when the scheduler
    is calm. *)
Theorem X27_session_of_whole_frames (payloads frames : list bytes) (w : world) :
  Forall2 (fun payload frame => frame_of payload = Some frame) payloads frames ->
  Forall (fun payload => Z.of_nat (length payload) <= MAX_MESSAGE_BYTES)
    payloads ->
  stdin w = concat frames ->
  match Threads.main_loop (S (length payloads)) w with
  | Threads.Exit code w' =>
      code = 0 /\ stdin w' = [] /\ wrote_responses w w' (length payloads)
  | Threads.Uncaught _ w' =>
      exists count,
        (count < length payloads)%nat /\ wrote_responses w w' count
  | Threads.Ended code w' =>
      code = 0 /\ ~ Threads.calm /\
      exists count w1 written,
        (count <= length payloads)%nat /\ wrote_responses w w1 count /\
        stdout w' = stdout w1 ++ written /\ Threads.begins_response written
  | Threads.Going _ => False
  end /\
  (Threads.exit_status (Threads.main_loop (S (length payloads)) w) = Some 0 \/
   Threads.exit_status (Threads.main_loop (S (length payloads)) w) = Some 1) /\
  (Threads.exit_status (Threads.main_loop (S (length payloads)) w) = Some 1 <->
   exists e w',
     Threads.main_loop (S (length payloads)) w = Threads.Uncaught e w').
Proof.
  intros Hframes Hmax Hin.
  pose proof (main_loop_beside_the_watchdog (S (length payloads)) w) as Hrun.
  pose proof (main_loop_session payloads frames w Hframes Hmax Hin) as Hmain.
  destruct (Threads.main_loop (S (length payloads)) w)
    as [w'|code w'|e w'|code w'].
  - rewrite Hrun in Hmain. contradiction.
  - rewrite Hrun in Hmain. destruct Hmain as [-> Hmain].
    split; [split; [reflexivity|exact Hmain]|].
    split; [left; reflexivity|].
    split; [discriminate|]. intros [e [w2 H]]. discriminate H.
  - rewrite Hrun in Hmain. split; [exact Hmain|].
    split; [right; reflexivity|].
    split; [intros _; exists e, w'; reflexivity|reflexivity].
  - destruct Hrun as [-> [Hs [before [w1 [Hlt [Hbefore Hcut]]]]]].
    split.
    + split; [reflexivity|].
      split; [intros Hcalm; exact (calm_is_never_struck _ Hcalm Hs)|].
      destruct (cut_short_turn w1 w' Hcut) as [written [Hw Hb]].
      exists before, w1, written. split; [lia|].
      split; [|split; assumption].
      pose proof (main_loop_wrote_responses before w) as H.
      rewrite Hbefore in H. exact H.
    + split; [left; reflexivity|].
      split; [discriminate|]. intros [e [w2 H]]. discriminate H.
Qed.

End Process.

Lemma C4_typed_is_the_character_count_witness :
  exists out,
    wire (P := Reference.quiet) (RespTyped 2) = Some out /\
    Threads.process (P := Reference.quiet) (scheduler := Threads.busy)
      (JDict [(lit "action", JStr (lit "type")); (lit "text", JStr (lit "ab"))])
      (main_start (P := Reference.quiet) []) =
    (Threads.Goes (Ret tt),
     dispatched (main_start (P := Reference.quiet) []) [(1 # 1000)%Q]
       [KeyboardController; KeyType 97; Sleep (JFloat (Finite (1 # 20)));
        KeyType 98; Sleep (JFloat (Finite (1 # 20)))] out).
Proof.
  assert (0 < Z.of_nat (length (lit "ab")) <= 10000) as Hlen by (cbn; lia).
  assert (calls_succeed (P := Reference.quiet)
            (injected (main_start (P := Reference.quiet) []))
            (typing_calls (lit "ab") (JFloat (Finite (1 # 20))))) as Hcalls
    by (cbn; repeat split).
  destruct (proj2 (C4_typed_is_the_character_count (P := Reference.quiet)
                     (scheduler := Threads.busy)
                     (main_start (P := Reference.quiet) [])
                     [(lit "action", JStr (lit "type"));
                      (lit "text", JStr (lit "ab"))]
                     (lit "ab")
                     (ex_intro _ (JStr (lit "type")) (conj eq_refl eq_refl))
                     eq_refl Hlen)
              [(1 # 1000)%Q] (JFloat (Finite (1 # 20))) true
              eq_refl eq_refl eq_refl Hcalls) as [out [Hout Hrun]].
  exists out. split; [exact Hout|].
  destruct (Threads.process (P := Reference.quiet) (scheduler := Threads.busy)
              (JDict [(lit "action", JStr (lit "type"));
                      (lit "text", JStr (lit "ab"))])
              (main_start (P := Reference.quiet) [])) as [[r|code] w'].
  - destruct Hrun as [-> ->]. reflexivity.
  - exfalso. destruct Hrun as [_ [[op [w1 [now [Hla [Hin Hold]]]]] _]].
    cbn [Threads.polls Threads.busy In] in Hin. destruct Hin as [<-|[]].
    rewrite Hla in Hold. revert Hold.
    generalize (last_activity (main_start (P := Reference.quiet) [])).
    intros q Hold. lra.
Defined.

(** C4 (as stated, refuted): a valid type request is not always answered with
    a success response.  The request [{"action":"type","text":"a","delay":301}]
    is read, the letter is typed, and while the main thread sleeps its 301
    seconds the watchdog thread finds the last activity 300 seconds old and
    ends the process: nothing is written.  And after twenty admitted requests
    within 42 milliseconds, the type request with the text [a] is answered
    with the error of the rate limiter, and nothing is typed. *)
Lemma C4_long_typing_is_ended_by_the_watchdog :
  (exists w',
     Threads.main_iteration (P := Reference.quiet)
       (scheduler := Threads.during_a_long_sleep)
       (main_start (P := Reference.quiet)
          (Reference.frame (Reference.type_request "a" "301"))) =
     (Threads.Killed 0, w') /\
     stdin w' = [] /\ stdout w' = [] /\
     injected w' = [KeyboardController; KeyType 97; Sleep (JInt 301)]) /\
  (exists w',
     Threads.process (P := Reference.quiet)
       (scheduler := Threads.during_a_long_sleep)
       (JDict [(lit "action", JStr (lit "type")); (lit "text", JStr (lit "a"))])
       (quiet_run (Reference.burst 20 Reference.empty_text_request) 20) =
     (Threads.Goes (Ret tt), w') /\
     stdout w' =
       Reference.burst 20 (Reference.ok_typed "0") ++
       Reference.frame
         (Reference.error "Rate limit exceeded (20 actions per 1.0s)") /\
     injected w' = []).
Proof.
  split; eexists; vm_compute; repeat split; reflexivity.
Qed.

(** The write of a response is abandoned: the peer stops reading after three
    bytes, and the watchdog ends the process while the write waits. *)
Lemma stalled_write_is_abandoned :
  exists w',
    Threads.main_loop (P := Reference.quiet) (scheduler := Threads.stalled_peer)
      1 (main_start (P := Reference.quiet)
           (Reference.frame Reference.empty_text_request)) =
    Threads.Ended 0 w' /\
    stdout w' = firstn 3 (Reference.frame (Reference.ok_typed "0")).
Proof. eexists. vm_compute. split; reflexivity. Qed.

(** The peer falls silent after one request: the request is answered, and the
    watchdog ends the process while the main thread waits for the next. *)
Lemma silent_peer_ends_the_process :
  exists w',
    Threads.main_loop (P := Reference.quiet) (scheduler := Threads.silent_peer)
      2 (main_start (P := Reference.quiet)
           (Reference.frame Reference.empty_text_request)) =
    Threads.Ended 0 w' /\
    stdout w' = Reference.frame (Reference.ok_typed "0").
Proof. eexists. vm_compute. split; reflexivity. Qed.

Lemma X27_session_of_whole_frames_witness :
  match Threads.main_loop (P := Reference.quiet) (scheduler := Threads.busy)
          (S (length [Reference.ascii_bytes "{"; Reference.ascii_bytes "[]"]))
          (main_start (P := Reference.quiet)
             (Reference.frame "{" ++ Reference.frame "[]")) with
  | Threads.Exit code w' =>
      code = 0 /\ stdin w' = [] /\
      wrote_responses (P := Reference.quiet)
        (main_start (P := Reference.quiet)
           (Reference.frame "{" ++ Reference.frame "[]")) w'
        (length [Reference.ascii_bytes "{"; Reference.ascii_bytes "[]"])
  | Threads.Uncaught _ w' =>
      exists count,
        (count < length [Reference.ascii_bytes "{"; Reference.ascii_bytes "[]"])%nat /\
        wrote_responses (P := Reference.quiet)
          (main_start (P := Reference.quiet)
             (Reference.frame "{" ++ Reference.frame "[]")) w' count
  | Threads.Ended code w' =>
      code = 0 /\ ~ Threads.calm (scheduler := Threads.busy) /\
      exists count w1 written,
        (count <= length [Reference.ascii_bytes "{"; Reference.ascii_bytes "[]"])%nat /\
        wrote_responses (P := Reference.quiet)
          (main_start (P := Reference.quiet)
             (Reference.frame "{" ++ Reference.frame "[]")) w1 count /\
        stdout w' = stdout w1 ++ written /\
        Threads.begins_response (P := Reference.quiet) written
  | Threads.Going _ => False
  end.
Proof.
  apply (X27_session_of_whole_frames (P := Reference.quiet)
           (scheduler := Threads.busy)
           [Reference.ascii_bytes "{"; Reference.ascii_bytes "[]"]
           [Reference.frame "{"; Reference.frame "[]"]).
  - repeat constructor; vm_compute; reflexivity.
  - repeat constructor; vm_compute; discriminate.
  - vm_compute. reflexivity.
Defined.
